(** * Pacman contest runner: match planning, result parsing and ladder

    A shallow embedding of the tournament scripts [pacman-ssh-contest.py]
    and [ssh_commands_script.py].  Both define a class [ContestRunner]; the
    two versions are kept apart in the modules [PacmanSshContest] and
    [SshCommandsScript], and what they share word for word (the planning
    loops, the [wins by] rule of the parser, [_calculate_team_stats]) is
    stated once.

    The scripts are Python 2.  Their values are rendered as follows.
    - [str], a byte string: [list ascii] for the match logs the parser
      scans, [string] for team names and layouts, which are only compared
      and used as dictionary keys;
    - [int]: [Z];
    - [dict] keyed by team name: [gmap string _];
    - [list]: [list], [append] adding at the end;
    - [None]-or-value: [option];
    - exceptions: the [result] type, [Raise] aborting the computation;
    - [self]: a record passed in and returned.

    Left out: the command lines, the log, replay and HTML files, and the
    cluster manager, whose answer is a parameter.

    The file has three parts: the embedding of the scripts, the
    definitions the statements use, and the properties; those of the
    specification are numbered [C1] to [C10]. *)

From Stdlib Require Import ZArith Ascii String List Lia Permutation.
From stdpp Require Import gmap strings list fin_maps.

Open Scope Z_scope.

(** ** Exceptions *)

Inductive exn : Type :=
| ValueError
| KeyError
| IndexError
| IOError.

Inductive result (A : Type) : Type :=
| Ok (a : A)
| Raise (e : exn).
Arguments Ok {A} a.
Arguments Raise {A} e.

#[global] Instance result_ret : MRet result := @Ok.

#[global] Instance result_bind : MBind result := fun A B k m =>
  match m with
  | Ok a => k a
  | Raise e => Raise e
  end.

(** A [for] loop whose body may raise and which threads a state. *)
Fixpoint for_ {A S : Type} (xs : list A) (body : A -> S -> result S) (s : S)
  : result S :=
  match xs with
  | [] => Ok s
  | x :: xs' => s' ← body x s; for_ xs' body s'
  end.

(** ** The Python built-ins the scripts call *)

Module Py.

Abbreviation bytes := (list ascii).

(** String literal of the scripts, as a list of characters. *)
Definition lit (s : string) : bytes := list_ascii_of_string s.

(** [s.startswith(prefix)] *)
Fixpoint startswith (s prefix : bytes) : bool :=
  match prefix, s with
  | [], _ => true
  | p :: prefix', c :: s' =>
      if Ascii.eqb p c then startswith s' prefix' else false
  | _ :: _, [] => false
  end.

(** [s.find(sub)]: lowest index at which [sub] occurs, [-1] if none. *)
Fixpoint find_from (i : Z) (s sub : bytes) : Z :=
  if startswith s sub then i
  else match s with
       | [] => -1
       | _ :: s' => find_from (i + 1) s' sub
       end.

Definition find (s sub : bytes) : Z := find_from 0 s sub.

(** [s.find(sub) != -1] *)
Definition found (s sub : bytes) : bool := negb (find s sub =? -1).

(** First occurrence of [sep], scanning from the left: the text before
    it and the text after it. *)
Fixpoint partition (s sep : bytes) : option (bytes * bytes) :=
  if startswith s sep then Some ([], drop (length sep) s)
  else match s with
       | [] => None
       | c :: s' =>
           match partition s' sep with
           | Some (before, after) => Some (c :: before, after)
           | None => None
           end
       end.

(** [s.split(sep)] for a non-empty separator: cut at every occurrence,
    left to right, occurrences not overlapping.  Each cut consumes at
    least one character, so [length s] rounds are enough. *)
Fixpoint split_fuel (fuel : nat) (s sep : bytes) : list bytes :=
  match fuel with
  | O => [s]
  | S fuel' =>
      match partition s sep with
      | None => [s]
      | Some (before, after) => before :: split_fuel fuel' after sep
      end
  end.

Definition split (s sep : bytes) : list bytes :=
  split_fuel (length s) s sep.

(** [l[i]] on a list. *)
Definition getitem {A : Type} (l : list A) (i : nat) : result A :=
  match l !! i with
  | Some x => Ok x
  | None => Raise IndexError
  end.

(** [s.splitlines()] on a byte string: lines end at LF, CR or CR LF, the
    terminators are dropped and a final terminator opens no new line. *)
Fixpoint splitlines_from (cur : bytes) (s : bytes) : list bytes :=
  match s with
  | [] => match cur with [] => [] | _ => [rev cur] end
  | c :: s' =>
      if Ascii.eqb c "010" then rev cur :: splitlines_from [] s'
      else if Ascii.eqb c "013" then
        rev cur :: match s' with
                   | c' :: s'' =>
                       if Ascii.eqb c' "010" then splitlines_from [] s''
                       else splitlines_from [] s'
                   | [] => splitlines_from [] s'
                   end
      else splitlines_from (c :: cur) s'
  end.

Definition splitlines (s : bytes) : list bytes := splitlines_from [] s.

(** Characters [int] skips around the number: space, TAB, LF, VT, FF, CR. *)
Definition isspace (c : ascii) : bool :=
  let n := nat_of_ascii c in
  (Nat.eqb n 32 || (Nat.leb 9 n && Nat.leb n 13))%bool.

Definition isdigit (c : ascii) : bool :=
  let n := nat_of_ascii c in (Nat.leb 48 n && Nat.leb n 57)%bool.

Fixpoint lstrip (s : bytes) : bytes :=
  match s with
  | c :: s' => if isspace c then lstrip s' else s
  | [] => []
  end.

Definition strip (s : bytes) : bytes := rev (lstrip (rev (lstrip s))).

Fixpoint digits (acc : Z) (s : bytes) : option Z :=
  match s with
  | [] => Some acc
  | c :: s' =>
      if isdigit c
      then digits (10 * acc + (Z.of_nat (nat_of_ascii c) - 48)) s'
      else None
  end.

(** [int(s)] in base ten, as CPython 2 reads a byte string: surrounding
    white space, an optional sign, white space again (it is skipped once
    more after the sign), one or more decimal digits; anything else
    raises [ValueError]. *)
Definition int (s : bytes) : result Z :=
  let t := strip s in
  let '(sign, body) :=
    match t with
    | c :: r =>
        if Ascii.eqb c "-" then (-1, lstrip r)
        else if Ascii.eqb c "+" then (1, lstrip r)
        else (1, t)
    | [] => (1, t)
    end in
  match body with
  | [] => Raise ValueError
  | _ :: _ =>
      match digits 0 body with
      | Some v => Ok (sign * v)
      | None => Raise ValueError
      end
  end.

(** [itertools.combinations(pool, r)]: the [r]-element subsequences of
    [pool], in lexicographic order of positions. *)
Fixpoint combinations {A : Type} (pool : list A) (r : nat) : list (list A) :=
  match r with
  | O => [[]]
  | S r' =>
      match pool with
      | [] => []
      | x :: pool' =>
          map (cons x) (combinations pool' r') ++ combinations pool' r
      end
  end.

(** Unpacking a tuple into two names, as in [for a, b in ...]. *)
Definition unpack2 {A : Type} (t : list A) : result (A * A) :=
  match t with
  | [a; b] => Ok (a, b)
  | _ => Raise ValueError
  end.

End Py.

Import Py.

(** ** The state of a [ContestRunner] *)

(** A team is the tuple [(team_name, agent_factory)]. *)
Abbreviation team := (string * string)%type.

(** One planned game: [(red_team, blue_team, layout)]. *)
Abbreviation match_id := (team * team * string)%type.

(** An entry of [self.games]:
    [(red_team_name, blue_team_name, layout, score, winner)]. *)
Abbreviation game := (string * string * string * Z * option string)%type.

(** A value of [self.team_stats]: the integer put there by [__init__], or
    the row [[points, wins, draws, loses, errors, sum_score]]. *)
Inductive stats_value : Type :=
| Int (n : Z)
| Row (points wins draws loses errors sum_score : Z).

Record ContestRunner : Type := mkContestRunner {
  teams : list team;
  layouts : list string;
  ladder : gmap string (list Z);
  games : list game;
  errors : gmap string Z;
  team_stats : gmap string stats_value
}.

Definition set_ladder (l : gmap string (list Z)) (self : ContestRunner) :=
  mkContestRunner (teams self) (layouts self) l (games self) (errors self)
                  (team_stats self).

Definition set_games (g : list game) (self : ContestRunner) :=
  mkContestRunner (teams self) (layouts self) (ladder self) g (errors self)
                  (team_stats self).

Definition set_errors (e : gmap string Z) (self : ContestRunner) :=
  mkContestRunner (teams self) (layouts self) (ladder self) (games self) e
                  (team_stats self).

Definition set_team_stats (t : gmap string stats_value) (self : ContestRunner) :=
  mkContestRunner (teams self) (layouts self) (ladder self) (games self)
                  (errors self) t.

(** The end of [__init__], once the teams and layouts are set up:
    [self.ladder = {n: [] for n, _ in self.teams}] and so on. *)
Definition init (the_teams : list team) (the_layouts : list string)
  : ContestRunner :=
  {| teams := the_teams;
     layouts := the_layouts;
     ladder := list_to_map ((fun t : team => (t.1, [])) <$> the_teams);
     games := [];
     errors := list_to_map ((fun t : team => (t.1, 0)) <$> the_teams);
     team_stats := list_to_map ((fun t : team => (t.1, Int 0)) <$> the_teams) |}.

(** [self.ladder[name].append(x)] *)
Definition ladder_append (name : string) (x : Z) (self : ContestRunner)
  : result ContestRunner :=
  match ladder self !! name with
  | Some scores => Ok (set_ladder (<[name := scores ++ [x]]> (ladder self)) self)
  | None => Raise KeyError
  end.

(** [self.ladder[name].append(x)] where [name] may be [None], which is
    never a key. *)
Definition ladder_append_opt (name : option string) (x : Z)
    (self : ContestRunner) : result ContestRunner :=
  match name with
  | Some n => ladder_append n x self
  | None => Raise KeyError
  end.

(** [self.errors[name] += 1] *)
Definition errors_incr (name : string) (self : ContestRunner)
  : result ContestRunner :=
  match errors self !! name with
  | Some n => Ok (set_errors (<[name := n + 1]> (errors self)) self)
  | None => Raise KeyError
  end.

(** [self.games.append(g)] *)
Definition games_append (g : game) (self : ContestRunner) : ContestRunner :=
  set_games (games self ++ [g]) self.

(** The local variables of [_parse_result], returned as
    [(score, winner, loser, bug)]. *)
Record parsed : Type := mkParsed {
  score : Z;
  winner : option string;
  loser : option string;
  bug : bool
}.

Definition set_score (n : Z) (v : parsed) : parsed :=
  mkParsed n (winner v) (loser v) (bug v).

Definition set_winner_loser (w l : option string) (v : parsed) : parsed :=
  mkParsed (score v) w l (bug v).

Definition set_bug (f : bool) (v : parsed) : parsed :=
  mkParsed (score v) (winner v) (loser v) f.

(** [score = 0; winner = None; loser = None; bug = False] *)
Definition parsed0 : parsed := mkParsed 0 None None false.

(** [abs(int(line.split(marker)[1].split(stop)[0]))], the expression both
    score rules evaluate. *)
Definition field_after (line marker stop : bytes) : result Z :=
  rest ← getitem (split line marker) 1;
  field ← getitem (split rest stop) 0;
  n ← int field;
  Ok (Z.abs n).

(** The first [if] of the loop body, the same in both scripts: the
    [wins by] rule. *)
Definition wins_by_rule (red_team_name blue_team_name : string)
    (line : bytes) (v : parsed) : result parsed :=
  if found line (lit "wins by") then
    n ← field_after line (lit "wins by") (lit "points");
    let v := set_score n v in
    if found line (lit "Red") then
      Ok (set_winner_loser (Some red_team_name) (Some blue_team_name) v)
    else if found line (lit "Blue") then
      Ok (set_winner_loser (Some blue_team_name) (Some red_team_name) v)
    else Ok v
  else Ok v.

Definition BLUE_RETURNED : bytes := lit "The Blue team has returned at least ".
Definition RED_RETURNED : bytes := lit "The Red team has returned at least ".

(** ** [_calculate_team_stats], the same in both scripts *)

(** The inner loop [for s in scores]. *)
Fixpoint tally (scores : list Z) (wins draws loses sum_score : Z)
  : Z * Z * Z * Z :=
  match scores with
  | [] => (wins, draws, loses, sum_score)
  | s :: scores' =>
      if 0 <? s then tally scores' (wins + 1) draws loses (sum_score + s)
      else if s =? 0 then tally scores' wins (draws + 1) loses (sum_score + s)
      else tally scores' wins draws (loses + 1) (sum_score + s)
  end.

(** One round of [for team, scores in iteritems(self.ladder)]. *)
Definition team_stats_round (item : string * list Z) (self : ContestRunner)
  : result ContestRunner :=
  let '(team_name, scores) := item in
  let '(wins, draws, loses, sum_score) := tally scores 0 0 0 0 in
  match errors self !! team_name with
  | Some e =>
      Ok (set_team_stats
            (<[team_name := Row (wins * 3 + draws) wins draws loses e sum_score]>
               (team_stats self)) self)
  | None => Raise KeyError
  end.

Definition _calculate_team_stats (self : ContestRunner) : result ContestRunner :=
  for_ (map_to_list (ladder self)) team_stats_round self.

(** ** The planning loops, the same in all three contest drivers

    [for red_team, blue_team in combinations(self.teams, r=2):
         for layout in self.layouts: ...] *)

Section planning.
Context {S : Type}.
Variable each_match : team -> team -> string -> S -> result S.

Definition for_each_match (self_teams : list team) (self_layouts : list string)
  : S -> result S :=
  for_ (combinations self_teams 2) (fun t s =>
    '(red_team, blue_team) ← unpack2 t;
    for_ self_layouts (fun layout s => each_match red_team blue_team layout s) s).
End planning.

(** The games in the order the loops reach them. *)
Definition planned_matches (self_teams : list team) (self_layouts : list string)
  : result (list match_id) :=
  for_each_match (fun red_team blue_team layout acc =>
                    Ok (acc ++ [(red_team, blue_team, layout)]))
                 self_teams self_layouts [].

(** What the cluster manager hands back for one job:
    [(job.id, exit_code, output, error)]. *)
Abbreviation job_result := (match_id * Z * bytes * bytes)%type.

(** ** [pacman-ssh-contest.py] *)

Module PacmanSshContest.

(** The [if]/[elif] chain that follows the [wins by] rule in the loop body
    of [_parse_result]. *)
Definition marker_rules (red_team_name blue_team_name : string)
    (line : bytes) (v : parsed) (self : ContestRunner)
  : result (parsed * ContestRunner) :=
  if found line BLUE_RETURNED then
    n ← field_after line BLUE_RETURNED (lit " ");
    Ok (set_winner_loser (Some blue_team_name) (Some red_team_name)
          (set_score n v), self)
  else if found line RED_RETURNED then
    n ← field_after line RED_RETURNED (lit " ");
    Ok (set_winner_loser (Some red_team_name) (Some blue_team_name)
          (set_score n v), self)
  else if found line (lit "Tie Game") then
    Ok (set_winner_loser None None v, self)
  else if found line (lit "agent crashed") then
    let v := set_bug true v in
    '(v, self) ←
      (if found line (lit "Red agent crashed") then
         self ← errors_incr red_team_name self;
         Ok (set_score 1
               (set_winner_loser (Some blue_team_name) (Some red_team_name) v),
             self)
       else Ok (v, self));
    if found line (lit "Blue agent crashed") then
      self ← errors_incr blue_team_name self;
      Ok (set_score 1
            (set_winner_loser (Some red_team_name) (Some blue_team_name) v),
          self)
    else Ok (v, self)
  else Ok (v, self).

(** The body of [for line in output.splitlines()]. *)
Definition parse_line (red_team_name blue_team_name : string)
    (line : bytes) (st : parsed * ContestRunner)
  : result (parsed * ContestRunner) :=
  let '(v, self) := st in
  v ← wins_by_rule red_team_name blue_team_name line v;
  marker_rules red_team_name blue_team_name line v self.

Definition _parse_result (output : bytes) (red_team_name blue_team_name : string)
    (self : ContestRunner) : result (parsed * ContestRunner) :=
  for_ (splitlines output) (parse_line red_team_name blue_team_name)
       (parsed0, self).

(** [_analyse_output] without the log and replay files it moves around. *)
Definition _analyse_output (red_team blue_team : team) (layout : string)
    (exit_code : Z) (output : bytes) (self : ContestRunner)
  : result ContestRunner :=
  let '(red_team_name, _) := red_team in
  let '(blue_team_name, _) := blue_team in
  '(v, self) ← _parse_result output red_team_name blue_team_name self;
  self ←
    match winner v with
    | None =>
        self ← ladder_append red_team_name (score v) self;
        ladder_append blue_team_name (score v) self
    | Some w =>
        self ← ladder_append w (score v) self;
        ladder_append_opt (loser v) (- score v) self
    end;
  if negb (bug v) then
    Ok (games_append (red_team_name, blue_team_name, layout, score v, winner v)
          self)
  else
    Ok (games_append (red_team_name, blue_team_name, layout, 9999, winner v)
          self).

Section engine.
(** [commands.getstatusoutput] on the command of one game. *)
Variable getstatusoutput : team -> team -> string -> Z * bytes.

Definition _run_match (red_team blue_team : team) (layout : string)
    (self : ContestRunner) : result ContestRunner :=
  let '(exit_code, output) := getstatusoutput red_team blue_team layout in
  _analyse_output red_team blue_team layout exit_code output self.

Definition run_contest (self : ContestRunner) : result ContestRunner :=
  for_each_match _run_match (teams self) (layouts self) self.
End engine.

(** A job, reduced to its [id]; the command line and the files to ship
    are strings no statement below looks at. *)
Record Job : Type := mkJob { id : match_id }.

Definition _generate_job (red_team blue_team : team) (layout : string) : Job :=
  mkJob (red_team, blue_team, layout).

(** The body of the loop of [_analyse_all_outputs]. *)
Definition analyse_result (res : job_result) (self : ContestRunner)
  : result ContestRunner :=
  let '(red_team, blue_team, layout, exit_code, output, error) := res in
  _analyse_output red_team blue_team layout exit_code (output ++ error) self.

Definition _analyse_all_outputs (results : list job_result)
    (self : ContestRunner) : result ContestRunner :=
  for_ results analyse_result self.

(** The job list [run_contest_remotely] builds. *)
Definition jobs_of (self : ContestRunner) : result (list Job) :=
  for_each_match (fun red_team blue_team layout jobs =>
                    Ok (jobs ++ [_generate_job red_team blue_team layout]))
                 (teams self) (layouts self) [].

Section cluster.
(** [ClusterManager(hosts, jobs).start()] *)
Variable start : list Job -> list job_result.

Definition run_contest_remotely (self : ContestRunner) : result ContestRunner :=
  jobs ← jobs_of self;
  let results := start jobs in
  _analyse_all_outputs results self.
End cluster.

(** [update_www] as far as the standings go: [run_contest_remotely], then
    [_calculate_team_stats]. *)
Definition standings (results : list job_result) (self : ContestRunner)
  : result (gmap string stats_value) :=
  self ← _analyse_all_outputs results self;
  self ← _calculate_team_stats self;
  Ok (team_stats self).

End PacmanSshContest.

(** ** [ssh_commands_script.py] *)

Module SshCommandsScript.

(** The [if]/[elif] chain that follows the [wins by] rule in the loop body
    of [_parse_result]. *)
Definition marker_rules (red_team_name blue_team_name : string)
    (line : bytes) (v : parsed) (self : ContestRunner)
  : result (parsed * ContestRunner) :=
  if found line BLUE_RETURNED then
    n ← field_after line BLUE_RETURNED (lit " ");
    Ok (set_winner_loser (Some blue_team_name) (Some red_team_name)
          (set_score n v), self)
  else if found line RED_RETURNED then
    n ← field_after line RED_RETURNED (lit " ");
    Ok (set_winner_loser (Some red_team_name) (Some blue_team_name)
          (set_score n v), self)
  else if found line (lit "Tie Game") then
    Ok (set_winner_loser None None v, self)
  else if found line (lit "agent crashed") then
    let v := set_bug true v in
    self ←
      (if found line (lit "Red agent crashed") then
         errors_incr red_team_name self
       else Ok self);
    self ←
      (if found line (lit "Blue agent crashed") then
         errors_incr blue_team_name self
       else Ok self);
    Ok (v, self)
  else Ok (v, self).

(** The body of [for line in output.splitlines()]. *)
Definition parse_line (red_team_name blue_team_name : string)
    (line : bytes) (st : parsed * ContestRunner)
  : result (parsed * ContestRunner) :=
  let '(v, self) := st in
  v ← wins_by_rule red_team_name blue_team_name line v;
  marker_rules red_team_name blue_team_name line v self.

Definition _parse_result (output : bytes) (red_team_name blue_team_name : string)
    (self : ContestRunner) : result (parsed * ContestRunner) :=
  for_ (splitlines output) (parse_line red_team_name blue_team_name)
       (parsed0, self).

(** What [_run_match] does once the game has run and left [output]. *)
Definition record_match (red_team blue_team : team) (layout : string)
    (output : bytes) (self : ContestRunner) : result ContestRunner :=
  let '(red_team_name, _) := red_team in
  let '(blue_team_name, _) := blue_team in
  '(v, self) ← _parse_result output red_team_name blue_team_name self;
  self ←
    (if negb (bug v) then
       match winner v with
       | None =>
           self ← ladder_append red_team_name (score v) self;
           ladder_append blue_team_name (score v) self
       | Some w =>
           self ← ladder_append w (score v) self;
           ladder_append_opt (loser v) (- score v) self
       end
     else Ok self);
  if negb (bug v) then
    Ok (games_append (red_team_name, blue_team_name, layout, score v, winner v)
          self)
  else
    Ok (games_append (red_team_name, blue_team_name, layout, 9999, winner v)
          self).

Section engine.
(** [commands.getstatusoutput] on the command of one game. *)
Variable getstatusoutput : team -> team -> string -> Z * bytes.

Definition _run_match (red_team blue_team : team) (layout : string)
    (self : ContestRunner) : result ContestRunner :=
  let '(exit_code, output) := getstatusoutput red_team blue_team layout in
  record_match red_team blue_team layout output self.

(** [run_contest].  With at most one team it first writes a report to
    [results_<run_id>/results.html]; [os.makedirs] has made
    [results/results_<run_id>] and nothing makes a directory
    [results_<run_id>], so [open] raises [IOError]. *)
Definition run_contest (self : ContestRunner) : result ContestRunner :=
  if (length (teams self) <=? 1)%nat then Raise IOError
  else for_each_match _run_match (teams self) (layouts self) self.
End engine.

End SshCommandsScript.

(** * Setting up the contest

    The parts of the scripts that run before the first game: the team
    names file, the submission files and the settings.  What the file
    system holds is a parameter: the rows [csv.reader] yields, the names
    [os.listdir] returns, what [os.path.exists] answers, what is found
    under the name of the configuration file.  The zip archives are left
    out: the submissions listed are taken to open and to unpack. *)

(** ** More Python built-ins *)

Module PyStr.

(** [str] from its characters. *)
Definition str (s : bytes) : string := string_of_list_ascii s.

(** [s.endswith(suffix)] *)
Definition endswith (s suffix : bytes) : bool :=
  startswith (rev s) (rev suffix).

(** [s[:-4]]: all but the last four characters, nothing when there are
    four or fewer. *)
Definition drop_last4 (s : bytes) : bytes := take (length s - 4) s.

(** [s.replace(old, new)] for a non-empty [old]: every occurrence, left to
    right, occurrences not overlapping.  Each replacement consumes at
    least one character, so [length s] rounds are enough. *)
Fixpoint replace_fuel (fuel : nat) (s old new : bytes) : bytes :=
  match fuel with
  | O => s
  | S fuel' =>
      match partition s old with
      | None => s
      | Some (before, after) => before ++ new ++ replace_fuel fuel' after old new
      end
  end.

Definition replace (s old new : bytes) : bytes :=
  replace_fuel (length s) s old new.

(** [row.index(x)]: the first position of [x], [ValueError] when [x] is
    not in the list. *)
Fixpoint index (row : list string) (x : string) : result nat :=
  match row with
  | [] => Raise ValueError
  | y :: row' =>
      if String.eqb y x then Ok 0%nat
      else i ← index row' x; Ok (S i)
  end.

End PyStr.

Module OsPath.
Import PyStr.

(** The characters up to the first slash. *)
Fixpoint until_slash (s : bytes) : bytes :=
  match s with
  | [] => []
  | c :: s' => if Ascii.eqb c "/" then [] else c :: until_slash s'
  end.

(** [os.path.basename(p)]: what follows the last slash. *)
Definition basename (p : bytes) : bytes := rev (until_slash (rev p)).

(** One round of the loop of [posixpath.join]. *)
Definition join_step (path b : bytes) : bytes :=
  if startswith b (lit "/") then b
  else if (Nat.eqb (length path) 0 || endswith path (lit "/"))%bool
       then path ++ b
       else path ++ lit "/" ++ b.

(** [os.path.join(a, *p)] *)
Definition join (a : bytes) (p : list bytes) : bytes := foldl join_step a p.

End OsPath.

(** ** [_load_teams] of [pacman-ssh-contest.py] *)

Module TeamNames.
Import PyStr.

(** The loop variables: the two column numbers, [None] until the first
    row is read and set together, and the dictionary being filled. *)
Abbreviation loading := (option (nat * nat) * gmap string string)%type.

(** [row[team_col].replace('/', 'NOT_FUNNY').replace(' ', '_')] *)
Definition clean (field : string) : string :=
  str (replace (replace (lit field) (lit "/") (lit "NOT_FUNNY"))
               (lit " ") (lit "_")).

(** The body of [for row in reader]. *)
Definition load_row (row : list string) (st : loading) : result loading :=
  let '(cols, team_names) := st in
  '(student_id_col, team_col) ←
    match cols with
    | None =>
        student_id_col ← index row "STUDENT_ID";
        team_col ← index row "TEAM_NAME";
        Ok (student_id_col, team_col)
    | Some c => Ok c
    end;
  student_id ← getitem row student_id_col;
  field ← getitem row team_col;
  let team_name := clean field in
  if String.eqb team_name "staff_team" then
    Ok (Some (student_id_col, team_col), team_names)
  else if (String.eqb student_id "" || String.eqb team_name "")%bool then
    Ok (Some (student_id_col, team_col), team_names)
  else
    Ok (Some (student_id_col, team_col), <[student_id := team_name]> team_names).

(** [_load_teams], from the rows [csv.reader] yields. *)
Definition _load_teams (rows : list (list string)) : result (gmap string string) :=
  st ← for_ rows load_row (None, ∅);
  Ok st.2.

End TeamNames.

(** ** [_setup_team] and the team loop of [__init__] in
    [pacman-ssh-contest.py] *)

Module PacmanSshContestSetup.
Import PyStr OsPath.

(** The attributes the set-up works on. *)
Record Setup : Type := mkSetup {
  team_names : gmap string string;
  teams : list team;
  submission_times : gmap string (option Z)
}.

(** How a call ends: it returns, [sys.exit] stops the script, or the
    comparison of [None] with a [datetime] raises [TypeError]. *)
Inductive completion (A : Type) : Type :=
| Returns (a : A)
| SystemExit (code : Z)
| TypeError.
Arguments Returns {A} a.
Arguments SystemExit {A} code.
Arguments TypeError {A}.

(** The longest run of decimal digits at the front, and the rest. *)
Fixpoint span_digits (s : bytes) : bytes * bytes :=
  match s with
  | c :: s' =>
      if isdigit c then let '(d, rest) := span_digits s' in (c :: d, rest)
      else ([], s)
  | [] => ([], [])
  end.

(** No character [.] refuses. *)
Definition no_newline (s : bytes) : bool :=
  forallb (fun c => negb (Ascii.eqb c "010")) s.

(** [re.match(r'^(s\d+)_(.+)?\.zip$', name)]: [None] without a match,
    otherwise groups 1 and 2, group 2 being [None] when nothing stands
    between the underscore and [.zip].  [\d+] has to take all the digits,
    the character after them being an underscore; [$] matches at the end
    and before a final newline; [.] matches all but a newline. *)
Definition SUBMISSION_FILENAME_PATTERN (name : bytes)
  : option (bytes * option bytes) :=
  match name with
  | c :: rest =>
      if Ascii.eqb c "s" then
        let '(d, rest) := span_digits rest in
        match d, rest with
        | _ :: _, u :: t =>
            if Ascii.eqb u "_" then
              let t := if endswith t (lit ".zip" ++ ["010"%char])
                       then removelast t else t in
              if endswith t (lit ".zip") then
                match drop_last4 t with
                | [] => Some (c :: d, None)
                | g => if no_newline g then Some (c :: d, Some g) else None
                end
              else None
            else None
        | _, _ => None
        end
      else None
  | [] => None
  end.

Definition TEAMS_SUBDIR : bytes := lit "teams".
Definition STAFF_TEAM_ZIP_FILE : bytes := lit "staff_team.zip".

Section dates.
(** [iso8601.parse_date(s).astimezone(self.TIMEZONE)] as a point in time,
    [None] when [ParseError] is raised, which it is when [s] is no
    string. *)
Variable parse_date : option bytes -> option Z.

(** The first half of [_setup_team]: the team name and the submission
    time, [None] where the function returns early. *)
Definition team_of_submission (zip_file : bytes)
    (ignore_file_name_format allow_non_registered_students : bool)
    (self : Setup) : option (string * option Z) :=
  match SUBMISSION_FILENAME_PATTERN (basename zip_file) with
  | Some (student_id, date) =>
      let team_name :=
        match team_names self !! str student_id with
        | Some team_name => Some team_name
        | None =>
            if allow_non_registered_students then Some (str student_id)
            else None
        end in
      match team_name with
      | None => None
      | Some team_name =>
          match parse_date date with
          | Some submission_time => Some (team_name, Some submission_time)
          | None =>
              if negb ignore_file_name_format then None
              else Some (team_name, None)
          end
      end
  | None =>
      if negb ignore_file_name_format then None
      else Some (str (drop_last4 (basename zip_file)), None)
  end.

Definition _setup_team (zip_file : bytes)
    (ignore_file_name_format allow_non_registered_students : bool)
    (self : Setup) : completion Setup :=
  match team_of_submission zip_file ignore_file_name_format
          allow_non_registered_students self with
  | None => Returns self
  | Some (team_name, submission_time) =>
      match submission_times self !! team_name with
      | None =>
          let agent_factory :=
            join TEAMS_SUBDIR [lit team_name; lit "myTeam.py"] in
          Returns (mkSetup (team_names self)
                     (teams self ++ [(team_name, str agent_factory)])
                     (<[team_name := submission_time]> (submission_times self)))
      | Some stored =>
          match submission_time with
          | None => Returns self
          | Some t =>
              match stored with
              | None => TypeError
              | Some t0 =>
                  if t0 <? t then
                    Returns (mkSetup (team_names self) (teams self)
                               (<[team_name := Some t]> (submission_times self)))
                  else Returns self
              end
          end
      end
  end.

(** [for submission_zip_file in os.listdir(teams_root): ...] *)
Fixpoint setup_submissions (teams_root : bytes) (listing : list bytes)
    (allow_non_registered_students : bool) (self : Setup) : completion Setup :=
  match listing with
  | [] => Returns self
  | submission_zip_file :: listing' =>
      if endswith submission_zip_file (lit ".zip") then
        match _setup_team (join teams_root [submission_zip_file]) false
                allow_non_registered_students self with
        | Returns self' =>
            setup_submissions teams_root listing'
              allow_non_registered_students self'
        | SystemExit code => SystemExit code
        | TypeError => TypeError
        end
      else setup_submissions teams_root listing' allow_non_registered_students
             self
  end.

(** [os.path.exists] *)
Variable path_exists : bytes -> bool.

(** The team part of [__init__]: the submissions of [teams_root], then
    the staff team if it is to be included, the script exiting when its
    file is not there. *)
Definition setup_teams (the_team_names : gmap string string)
    (teams_root : bytes) (listing : list bytes)
    (include_staff_team allow_non_registered_students : bool)
  : completion Setup :=
  match setup_submissions teams_root listing allow_non_registered_students
          (mkSetup the_team_names [] ∅) with
  | Returns self =>
      if include_staff_team then
        if negb (path_exists STAFF_TEAM_ZIP_FILE) then SystemExit 1
        else _setup_team STAFF_TEAM_ZIP_FILE true false self
      else Returns self
  | SystemExit code => SystemExit code
  | TypeError => TypeError
  end.
End dates.

End PacmanSshContestSetup.

(** ** [_setup_team] and the team loop of [__init__] in
    [ssh_commands_script.py] *)

Module SshCommandsScriptSetup.
Import PyStr OsPath.

Definition TEAMS_SUBDIR : bytes := lit "teams".
Definition STAFF_TEAM_ZIP_FILE : bytes := lit "staff_team.zip".

(** [_setup_team], on [self.teams]. *)
Definition _setup_team (zip_file : bytes) (self_teams : list team) : list team :=
  let team_name := drop_last4 (basename zip_file) in
  let agent_factory := join TEAMS_SUBDIR [team_name; lit "team.py"] in
  self_teams ++ [(str team_name, str agent_factory)].

(** [for team_zip in os.listdir(teams_root): ...] *)
Definition setup_submissions (teams_root : bytes) (listing : list bytes)
    (self_teams : list team) : list team :=
  foldl (fun self_teams team_zip =>
           if endswith team_zip (lit ".zip")
           then _setup_team (join teams_root [team_zip]) self_teams
           else self_teams)
        self_teams listing.

(** The team part of [__init__], as far as [self.teams] goes: the teams
    it has set up when it gets through (it exits before the staff team
    when [staff_team.zip] is not there). *)
Definition setup_teams (teams_root : bytes) (listing : list bytes)
    (include_staff_team : bool) : list team :=
  let self_teams := setup_submissions teams_root listing [] in
  if include_staff_team then _setup_team STAFF_TEAM_ZIP_FILE self_teams
  else self_teams.

End SshCommandsScriptSetup.

(** ** The settings

    [load_settings] of the two scripts.  [argparse] has run: its
    namespace is a record, a string option being [None] when not passed.
    A settings dictionary holds strings, booleans, integers, [None] and
    whatever else JSON can hold. *)

Module Settings.

(** A value of a settings dictionary; [VOther] is any other JSON value
    (a float, an array, an object), by its text. *)
Inductive value : Type :=
| VNone
| VBool (b : bool)
| VInt (n : Z)
| VStr (s : bytes)
| VOther (json : bytes).

Abbreviation settings := (gmap string value).

(** What is found under the name of a configuration file. *)
Inductive config : Type :=
| NoFile                      (* [os.path.exists] says no *)
| Unreadable                  (* [open] raises [IOError] *)
| NotJson                     (* [json.load] raises [ValueError] *)
| NotObject                   (* a JSON value that is no object *)
| Object (loaded : settings).

(** How a run ends: it returns, [sys.exit] stops it, or an exception
    escapes. *)
Inductive ended (A : Type) : Type :=
| Returned (a : A)
| SystemExit (code : Z)
| Raised (e : exn)
| RaisedTypeError
| RaisedAttributeError.
Arguments Returned {A} a.
Arguments SystemExit {A} code.
Arguments Raised {A} e.
Arguments RaisedTypeError {A}.
Arguments RaisedAttributeError {A}.

(** [if x:] on a string option of [argparse]: [None] and the empty string
    are false. *)
Definition given (x : option bytes) : bool :=
  match x with
  | Some (_ :: _) => true
  | _ => false
  end.

(** [if x: settings[key] = x] *)
Definition set_if_given (key : string) (x : option bytes) (s : settings)
  : settings :=
  match x with
  | Some (c :: r) => <[key := VStr (c :: r)]> s
  | _ => s
  end.

(** [if x: settings[key] = int(x)] *)
Definition set_int_if_given (key : string) (x : option bytes) (s : settings)
  : result settings :=
  match x with
  | Some (c :: r) => n ← int (c :: r); Ok (<[key := VInt n]> s)
  | _ => Ok s
  end.

(** [if flag: settings[key] = flag] for a [store_true] option. *)
Definition set_if_true (key : string) (flag : bool) (s : settings) : settings :=
  if flag then <[key := VBool flag]> s else s.

(** An option as a setting: the string, or [None]. *)
Definition of_option (x : option bytes) : value :=
  match x with
  | Some s => VStr s
  | None => VNone
  end.

(** A call that passes the dictionary as keyword arguments to a function
    with the required parameters [required] and the further parameters
    [optional], none of them variadic: every required name must be a key
    and every key a parameter name, or the call raises [TypeError]. *)
Definition binds (required optional : list string) (s : settings) : bool :=
  (forallb (fun k => bool_decide (is_Some (s !! k))) required
   && bool_decide (map_Forall (fun k _ => k ∈ required ++ optional) s))%bool.

End Settings.

(** [load_settings] and the start of [__main__] in
    [pacman-ssh-contest.py] *)

Module PacmanSshContestSettings.
Import Settings.

(** The namespace [parser.parse_args()] returns.  [no_fixed_layouts] is
    [None] when the option is not passed; [argparse] then puts the default
    [3] there. *)
Record Args : Type := mkArgs {
  config_file : option bytes;
  organizer : option bytes;
  output_path : option bytes;
  workers_file_path : option bytes;
  teams_root : option bytes;
  include_staff_team : bool;
  compress_logs : bool;
  max_steps : option bytes;
  no_fixed_layouts : option bytes;
  no_random_layouts : option bytes;
  team_names_file : option bytes;
  allow_non_registered_students : bool;
  build_config_file : bool
}.

Definition DEFAULT_MAX_STEPS : Z := 1200.

Section files.
(** What is found under the name of the configuration file. *)
Variable read_json : bytes -> config.

(** The command line options put over a dictionary, up to the check for
    missing parameters. *)
Definition fill (args : Args) (loaded : settings) : result settings :=
  let settings := set_if_given "organizer" (organizer args) loaded in
  let settings := set_if_true "compress_logs" (compress_logs args) settings in
  let settings :=
    if include_staff_team args
    then <["include_staff_team" := VBool true]> settings
    else match settings !! "include_staff_team" with
         | None => <["include_staff_team" := VBool false]> settings
         | Some _ => settings
         end in
  let settings := set_if_given "teams_root" (teams_root args) settings in
  let settings := set_if_given "output_path" (output_path args) settings in
  settings ←
    match no_fixed_layouts args with
    | None => Ok (<["no_fixed_layouts" := VInt 3]> settings)
    | Some x => set_int_if_given "no_fixed_layouts" (Some x) settings
    end;
  settings ← set_int_if_given "no_random_layouts" (no_random_layouts args)
               settings;
  settings ←
    (if given (max_steps args)
     then set_int_if_given "max_steps" (max_steps args) settings
     else match settings !! "max_steps" with
          | None => Ok (<["max_steps" := VInt DEFAULT_MAX_STEPS]> settings)
          | Some _ => Ok settings
          end);
  let settings := set_if_given "team_names_file" (team_names_file args)
                    settings in
  let settings := set_if_given "workers_file_path" (workers_file_path args)
                    settings in
  Ok (<["allow_non_registered_students" :=
          VBool (allow_non_registered_students args)]> settings).

(** The same start of [load_settings] on what [json.load] gave when it
    is no dictionary: the first item assignment raises [TypeError], and
    without one [settings.keys()] raises [AttributeError]. *)
Definition fill_other (args : Args) : ended settings :=
  if (given (organizer args) || compress_logs args
      || include_staff_team args)%bool
  then RaisedTypeError
  else RaisedAttributeError.

(** The settings before the check for missing parameters. *)
Definition gather (args : Args) : ended settings :=
  let filled (loaded : settings) :=
    match fill args loaded with
    | Ok settings => Returned settings
    | Raise e => Raised e
    end in
  match config_file args with
  | Some path =>
      match read_json path with
      | NoFile => filled ∅
      | Unreadable => Raised IOError
      | NotJson => Raised ValueError
      | NotObject => fill_other args
      | Object loaded => filled loaded
      end
  | None => filled ∅
  end.

(** [load_settings]: the settings, and the file written if any, as
    [(name, content)]. *)
Definition load_settings (args : Args)
  : ended (settings * option (bytes * settings)) :=
  match gather args with
  | SystemExit code => SystemExit code
  | Raised e => Raised e
  | RaisedTypeError => RaisedTypeError
  | RaisedAttributeError => RaisedAttributeError
  | Returned settings =>
      match settings !! "organizer" with
      | None => SystemExit 1
      | Some _ =>
          if build_config_file args then
            match config_file args with
            | None => RaisedTypeError
            | Some path => Returned (settings, Some (path, settings))
            end
          else Returned (settings, None)
      end
  end.

(** The parameters of [ContestRunner.__init__], all without default. *)
Definition init_parameters : list string :=
  ["teams_root"; "output_path"; "include_staff_team"; "organizer";
   "compress_logs"; "max_steps"; "no_fixed_layouts"; "no_random_layouts";
   "team_names_file"; "allow_non_registered_students"]%string.

(** [__main__] up to the call of [ContestRunner] with the settings as
    keyword arguments: [true] when the call binds its arguments.
    [settings['workers_file_path']] is read and deleted first, a
    [KeyError] when it is missing. *)
Definition main_binds (args : Args) : ended bool :=
  match load_settings args with
  | Returned (settings, _) =>
      match settings !! "workers_file_path" with
      | None => Raised KeyError
      | Some _ =>
          Returned (binds init_parameters []
                      (delete "workers_file_path" settings))
      end
  | SystemExit code => SystemExit code
  | Raised e => Raised e
  | RaisedTypeError => RaisedTypeError
  | RaisedAttributeError => RaisedAttributeError
  end.
End files.

End PacmanSshContestSettings.

(** [load_settings] and the start of [__main__] in
    [ssh_commands_script.py] *)

Module SshCommandsScriptSettings.
Import Settings.

(** The namespace [parser.parse_args()] returns.  [output_path] and
    [teams_root] are [None] when not passed; [argparse] then puts the
    defaults ['www'] and ['teams'] there. *)
Record Args : Type := mkArgs {
  organizer : option bytes;
  host : option bytes;
  user : option bytes;
  output_path : option bytes;
  teams_root : option bytes;
  include_staff_team : bool;
  compress_logs : bool
}.

(** [args.teams_root] with the default filled in. *)
Definition teams_root_arg (args : Args) : option bytes :=
  match teams_root args with
  | None => Some (lit "teams")
  | Some x => Some x
  end.

(** The dictionary before the check for missing parameters; [config] is
    the JSON object of [config.json], [None] when the file is not there.
    A [config.json] that holds anything else makes the script raise
    before it returns; that case is not shown here. *)
Definition gather (config : option settings) (args : Args) : settings :=
  let settings :=
    match config with
    | Some loaded => loaded
    | None => ∅
    end in
  let settings := set_if_given "organizer" (organizer args) settings in
  let settings :=
    if given (organizer args)
    then <["host" := of_option (host args)]> settings else settings in
  let settings :=
    if given (organizer args)
    then <["user" := of_option (user args)]> settings else settings in
  let settings := set_if_true "compress_logs" (compress_logs args) settings in
  let settings := set_if_true "include_staff_team" (include_staff_team args)
                    settings in
  set_if_given "teams_root" (teams_root_arg args) settings.

(** [load_settings]: the settings, and what is written to
    [config.json]. *)
Definition load_settings (config : option settings) (args : Args)
  : ended (settings * settings) :=
  let settings := gather config args in
  match settings !! "organizer" with
  | None => SystemExit 1
  | Some _ => Returned (settings, settings)
  end.

(** The parameters of [ContestRunner.__init__]: those without a default
    and those with one. *)
Definition required_parameters : list string :=
  ["teams_root"; "include_staff_team"; "organizer"; "compress_logs"]%string.

Definition optional_parameters : list string := ["host"; "user"]%string.

(** [__main__] up to the call of [ContestRunner] with the settings as
    keyword arguments: [true] when the call binds its arguments. *)
Definition main_binds (config : option settings) (args : Args) : ended bool :=
  match load_settings config args with
  | Returned (settings, _) =>
      Returned (binds required_parameters optional_parameters settings)
  | SystemExit code => SystemExit code
  | Raised e => Raised e
  | RaisedTypeError => RaisedTypeError
  | RaisedAttributeError => RaisedAttributeError
  end.

End SshCommandsScriptSettings.

(** * Definitions used in the statements *)

(** ** Closed forms of the planning loops *)

(** The pairs [combinations(pool, 2)] enumerates. *)
Fixpoint pairs {A : Type} (pool : list A) : list (A * A) :=
  match pool with
  | [] => []
  | x :: pool' => map (pair x) pool' ++ pairs pool'
  end.

(** The games of a contest: every pair on every layout. *)
Definition match_list (ts : list team) (ls : list string) : list match_id :=
  flat_map (fun p : team * team => map (fun l => (p.1, p.2, l)) ls) (pairs ts).

(** Game [m] opposes the teams [a] and [b], whichever is red. *)
Definition opposes (a b : team) (m : match_id) : Prop :=
  (m.1.1 = a /\ m.1.2 = b) \/ (m.1.1 = b /\ m.1.2 = a).

#[global] Instance opposes_dec a b m : Decision (opposes a b m).
Proof. unfold opposes. apply _. Defined.

(** The line is one the loop body of [_parse_result] passes over: none of
    its conditions holds. *)
Definition inert (line : bytes) : Prop :=
  found line (lit "wins by") = false
  /\ found line BLUE_RETURNED = false
  /\ found line RED_RETURNED = false
  /\ found line (lit "Tie Game") = false
  /\ found line (lit "agent crashed") = false.

(** The line matches none of the four rules of the result grammar. *)
Definition matches_no_rule (line : bytes) : Prop :=
  found line (lit "wins by") = false
  /\ found line (lit "has returned at least") = false
  /\ found line (lit "Tie Game") = false
  /\ found line (lit "agent crashed") = false.

(** Every number the loop body reads off the line is a well-formed
    integer: the one after [wins by] if the line has [wins by], and the
    one after the [has returned at least] marker the [elif] chain picks. *)
Definition well_formed (line : bytes) : Prop :=
  (found line (lit "wins by") = true ->
     exists n, field_after line (lit "wins by") (lit "points") = Ok n)
  /\ (found line BLUE_RETURNED = true ->
        exists n, field_after line BLUE_RETURNED (lit " ") = Ok n)
  /\ (found line BLUE_RETURNED = false -> found line RED_RETURNED = true ->
        exists n, field_after line RED_RETURNED (lit " ") = Ok n).

(** The characters [int] accepts. *)
Definition numeric (c : ascii) : Prop :=
  isspace c = true \/ isdigit c = true \/ c = "-"%char \/ c = "+"%char.

(** [winner] and [loser] are both [None], or the two teams. *)
Definition names_agree (red_team_name blue_team_name : string) (v : parsed)
  : Prop :=
  (winner v = None /\ loser v = None)
  \/ (winner v = Some red_team_name /\ loser v = Some blue_team_name)
  \/ (winner v = Some blue_team_name /\ loser v = Some red_team_name).

(** The ladder entry a parsed result gives the team called [name]. *)
Definition entry_for (name : string) (v : parsed) : Z :=
  match winner v with
  | None => score v
  | Some w => if decide (w = name) then score v else - score v
  end.

(** The score column of the game record. *)
Definition shown_score (v : parsed) : Z := if bug v then 9999 else score v.

(** [self.errors[k] += 1] for every [k] of [ks], in turn. *)
Definition incr_all (ks : list string) (e : gmap string Z) : gmap string Z :=
  foldl (fun e k => alter (fun n => n + 1) k e) e ks.

(** [self.ladder[k].append(x)] for every [(k, x)] of [kxs], in turn. *)
Definition append_all (kxs : list (string * Z)) (l : gmap string (list Z))
  : gmap string (list Z) :=
  foldl (fun l kx => alter (fun scores => scores ++ [kx.2]) kx.1 l) l kxs.

(** Every name of [ks] is a key of the dictionary. *)
Definition keys_in {V : Type} (m : gmap string V) (ks : list string) : Prop :=
  Forall (fun k => is_Some (m !! k)) ks.

(** Neither score rule applies to the line. *)
Definition no_score_rule (line : bytes) : Prop :=
  found line (lit "wins by") = false
  /\ found line (lit "has returned at least") = false.

(** The [elif] chain gets as far as the test for [agent crashed]. *)
Definition reaches_crash_test (line : bytes) : Prop :=
  found line BLUE_RETURNED = false
  /\ found line RED_RETURNED = false
  /\ found line (lit "Tie Game") = false.

Arguments lit : simpl never.
Arguments found : simpl never.
Arguments field_after : simpl never.
Arguments wins_by_rule : simpl never.
Arguments PacmanSshContest.parse_line : simpl never.
Arguments PacmanSshContest.marker_rules : simpl never.
Arguments SshCommandsScript.parse_line : simpl never.
Arguments SshCommandsScript.marker_rules : simpl never.
Arguments PacmanSshContest.analyse_result : simpl never.
Arguments incr_all : simpl never.
Arguments append_all : simpl never.

(** The ladder entries a parsed result stands for: [(team, entry)], in the
    order they are appended. *)
Definition ladder_entries (red_team_name blue_team_name : string) (v : parsed)
  : list (string * Z) :=
  match winner v with
  | None => [(red_team_name, score v); (blue_team_name, score v)]
  | Some w =>
      match loser v with
      | Some l => [(w, score v); (l, - score v)]
      | None => [(w, score v)]
      end
  end.

(** The ladder entries of a game in [ssh_commands_script.py]: none when
    the crash flag is set. *)
Definition guarded_entries (red_team_name blue_team_name : string) (v : parsed)
  : list (string * Z) :=
  if bug v then [] else ladder_entries red_team_name blue_team_name v.

(** What a game leaves in the state: counters incremented, ladder entries
    appended, one record added to [self.games]. *)
Definition apply_outcome (ks : list string) (kxs : list (string * Z)) (g : game)
    (self : ContestRunner) : ContestRunner :=
  games_append g
    (set_ladder (append_all kxs (ladder self))
       (set_errors (incr_all ks (errors self)) self)).

(** What one game leaves behind: the counters to increment, the ladder
    entries to append, the record for [self.games]. *)
Abbreviation outcome := (list string * list (string * Z) * game)%type.

Definition replay (o : outcome) (self : ContestRunner) : ContestRunner :=
  apply_outcome o.1.1 o.1.2 o.2 self.

(** The state has the keys the outcome touches. *)
Definition keys_ok (o : outcome) (self : ContestRunner) : Prop :=
  keys_in (errors self) o.1.1 /\ keys_in (ladder self) (o.1.2).*1.

(** [o] is what the job result [res] leaves behind, on any state that has
    the keys. *)
Definition outcome_of (res : job_result) (o : outcome) : Prop :=
  forall self, keys_ok o self ->
    PacmanSshContest.analyse_result res self = Ok (replay o self).

(** The row [_calculate_team_stats] makes of a ladder and a counter. *)
Definition row (scores : list Z) (e : Z) : stats_value :=
  let '(wins, draws, loses, sum_score) := tally scores 0 0 0 0 in
  Row (wins * 3 + draws) wins draws loses e sum_score.

(** A job result whose log reads well and whose teams the state knows. *)
Definition result_ok (self : ContestRunner) (res : job_result) : Prop :=
  let '(red_team, blue_team, _, _, output, error) := res in
  keys_in (errors self) [red_team.1; blue_team.1]
  /\ keys_in (ladder self) [red_team.1; blue_team.1]
  /\ Forall well_formed (splitlines (output ++ error)).

(** ** Sample data *)

Definition demo_teams : list team :=
  [("A", "teams/A/myTeam.py"); ("B", "teams/B/myTeam.py");
   ("C", "teams/C/myTeam.py")]%string.

Definition demo_layouts : list string :=
  ["contest01Capture"; "RANDOM17"]%string.

Definition demo_runner : ContestRunner := init demo_teams demo_layouts.

Definition team_A : team := ("A", "teams/A/myTeam.py")%string.
Definition team_B : team := ("B", "teams/B/myTeam.py")%string.
Definition team_C : team := ("C", "teams/C/myTeam.py")%string.

(** Line feed. *)
Definition LF : bytes := ["010"%char].

(** The local variables after [Red wins by 3 points] with A as red and B
    as blue. *)
Definition red_won_by_3 : parsed := mkParsed 3 (Some "A"%string) (Some "B"%string) false.

(** A log in which the blue agent crashes after a score line. *)
Definition crash_log : bytes :=
  lit "Red wins by 5 points" ++ LF ++ lit "Blue agent crashed" ++ LF
  ++ lit "Game over".

(** The local variables after [Red wins by 5 points] with A as red and B
    as blue. *)
Definition red_won_by_5 : parsed := mkParsed 5 (Some "A"%string) (Some "B"%string) false.

(** Three games on one layout: A beats B by 5, B ties C, A beats C by 3. *)
Definition demo_results : list job_result :=
  [((team_A, team_B, "contest01Capture"%string), 0, lit "Red wins by 5 points", []);
   ((team_B, team_C, "contest01Capture"%string), 0, lit "Tie Game", []);
   ((team_A, team_C, "contest01Capture"%string), 0, lit "Red wins by 3 points", [])].

(** ** Definitions for further properties *)

(** How often the team called [k] plays in the job results, as red and
    as blue. *)
Definition games_played (k : string) (results : list job_result) : nat :=
  length (filter (fun res : job_result => res.1.1.1.1.1.1 = k) results)
  + length (filter (fun res : job_result => res.1.1.1.1.2.1 = k) results).

(** A single team, for the runs that plan nothing. *)
Definition lonely_runner : ContestRunner := init [team_A] demo_layouts.

(** What [_parse_result] may do to the state while it returns [v]: only
    the counters of the two teams change, none goes down, and nothing
    changes at all unless the result is flagged as crashed. *)
Definition only_counts_crashes (r b : string) (self : ContestRunner)
    (v : parsed) (self' : ContestRunner) : Prop :=
  teams self' = teams self /\ layouts self' = layouts self
  /\ ladder self' = ladder self /\ games self' = games self
  /\ team_stats self' = team_stats self
  /\ (forall k, k ≠ r -> k ≠ b -> errors self' !! k = errors self !! k)
  /\ (forall k n, errors self !! k = Some n ->
        exists n', errors self' !! k = Some n' /\ n <= n')
  /\ (forall k, errors self !! k = None -> errors self' !! k = None)
  /\ (bug v = false -> self' = self).

(** Two teams, no layout. *)
Definition lonely_runner_AB : ContestRunner := init [team_A; team_B] [].

(** The marker of the team of one colour. *)
Definition returned_marker (blue : bool) : bytes :=
  if blue then BLUE_RETURNED else RED_RETURNED.

(** The columns of a row, counted off the ladder of a team. *)
Definition wins_in (scores : list Z) : Z :=
  Z.of_nat (length (List.filter (fun s => 0 <? s) scores)).

Definition draws_in (scores : list Z) : Z :=
  Z.of_nat (length (List.filter (fun s => s =? 0) scores)).

Definition loses_in (scores : list Z) : Z :=
  Z.of_nat (length (List.filter (fun s => s <? 0) scores)).

Definition balance (scores : list Z) : Z := foldr Z.add 0 scores.

(** A state in the middle of a contest. *)
Definition played_runner : ContestRunner :=
  set_errors (<["A"%string := 2]> (errors demo_runner))
    (set_ladder (<["A"%string := [5; 0; -2]]> (ladder demo_runner))
       demo_runner).

(** The record [g] of [self.games] is the one of the job result [res]:
    same team names, same layout. *)
Definition records (res : job_result) (g : game) : Prop :=
  g.1.1.1.1 = res.1.1.1.1.1.1 /\ g.1.1.1.2 = res.1.1.1.1.2.1
  /\ g.1.1.2 = res.1.1.1.2.

(** A cluster that runs every job with [getstatusoutput] and hands the
    results back in the order of the jobs, with nothing on the error
    stream. *)
Definition orderly_cluster (getstatusoutput : team -> team -> string -> Z * bytes)
    (jobs : list PacmanSshContest.Job) : list job_result :=
  map (fun j =>
         let '(red_team, blue_team, layout) := PacmanSshContest.id j in
         let '(exit_code, output) := getstatusoutput red_team blue_team layout in
         (PacmanSshContest.id j, exit_code, output, []))
      jobs.

(** An engine whose games all end in a tie. *)
Definition tie_engine (red_team blue_team : team) (layout : string)
  : Z * bytes := (0, lit "Tie Game").

(** A team name fit for a directory: not empty, not the reserved name,
    without slash or space. *)
Definition well_named (name : string) : Prop :=
  name ≠ ""%string /\ name ≠ "staff_team"%string
  /\ Forall (fun c => c ≠ "/"%char /\ c ≠ " "%char) (lit name).

(** The row has the two columns. *)
Definition has_columns (student_id_col team_col : nat) (row : list string)
  : Prop :=
  (student_id_col < length row)%nat /\ (team_col < length row)%nat.

(** A team names file of three rows. *)
Definition demo_rows : list (list string) :=
  [["TEAM_NAME"; "STUDENT_ID"]; ["The A/Team"; "s111"]; ["staff team"; "s222"]]%string.

Arguments TeamNames.load_row : simpl never.
Arguments TeamNames.clean : simpl never.

(** A student id as the file name pattern reads it: [s] and one or more
    decimal digits. *)
Definition student_id_like (name : string) : Prop :=
  exists d, d ≠ [] /\ Forall (fun c => isdigit c = true) d
            /\ name = PyStr.str ("s"%char :: d).

(** The agent factory of a team of [pacman-ssh-contest.py]. *)
Definition factory_of (name : string) : string :=
  PyStr.str (lit "teams/" ++ lit name ++ lit "/myTeam.py").

Arguments PacmanSshContestSetup.SUBMISSION_FILENAME_PATTERN : simpl never.
Arguments PacmanSshContestSetup.team_of_submission : simpl never.
Arguments PacmanSshContestSetup._setup_team : simpl never.
Arguments OsPath.join : simpl never.
Arguments OsPath.basename : simpl never.
Arguments PyStr.endswith : simpl never.
Arguments PyStr.drop_last4 : simpl never.

(** A clock that reads a date made of digits as a number. *)
Definition demo_parse_date (s : option bytes) : option Z :=
  match s with
  | Some d => match int d with Ok n => Some n | Raise _ => None end
  | None => None
  end.

Definition demo_listing : list bytes :=
  [lit "s111_5.zip"; lit "notes.txt"; lit "s111_9.zip"; lit "s333_7.zip";
   lit "s111_2.zip"].

(** The team names are pairwise distinct and the teams are the keys of
    [self.submission_times]. *)
Definition consistent (self : PacmanSshContestSetup.Setup) : Prop :=
  NoDup (PacmanSshContestSetup.teams self).*1
  /\ forall n,
       n ∈ (PacmanSshContestSetup.teams self).*1
       <-> is_Some (PacmanSshContestSetup.submission_times self !! n).

(** Every stored submission time is a time, none is [None]. *)
Definition all_dated (self : PacmanSshContestSetup.Setup) : Prop :=
  forall n stored,
    PacmanSshContestSetup.submission_times self !! n = Some stored ->
    is_Some stored.

(** The team name is a registered one, or a student id when students
    without a team are let in. *)
Definition student_team (names : gmap string string) (allow : bool)
    (name : string) : Prop :=
  (exists student_id, names !! student_id = Some name)
  \/ (allow = true /\ student_id_like name).

(** The file [f] of the submissions directory is a dated submission of
    the team [n], handed in at [t]. *)
Definition submitted (parse_date : option bytes -> option Z)
    (names : gmap string string) (teams_root : bytes) (allow : bool)
    (f : bytes) (n : string) (t : Z) : Prop :=
  PyStr.endswith f (lit ".zip") = true
  /\ PacmanSshContestSetup.team_of_submission parse_date
       (OsPath.join teams_root [f]) false allow
       (PacmanSshContestSetup.mkSetup names [] ∅)
     = Some (n, Some t).

(** What [self.submission_times] holds once the files [files] are read:
    for each team the time of its latest submission among them. *)
Definition latest_kept (parse_date : option bytes -> option Z)
    (names : gmap string string) (teams_root : bytes) (allow : bool)
    (files : list bytes) (self : PacmanSshContestSetup.Setup) : Prop :=
  forall n,
    match PacmanSshContestSetup.submission_times self !! n with
    | Some stored =>
        exists t,
          stored = Some t
          /\ (exists f, f ∈ files /\ submitted parse_date names teams_root allow f n t)
          /\ forall f t', f ∈ files ->
               submitted parse_date names teams_root allow f n t' -> t' <= t
    | None =>
        forall f t', f ∈ files ->
          ~ submitted parse_date names teams_root allow f n t'
    end.

(** A name as [os.listdir] returns it: no slash in it. *)
Definition plain_name (f : bytes) : Prop := Forall (fun c => c ≠ "/"%char) f.

Arguments SshCommandsScriptSetup._setup_team : simpl never.

Arguments Settings.set_if_given : simpl never.
Arguments Settings.set_int_if_given : simpl never.
Arguments Settings.set_if_true : simpl never.

(** The command line [--organizer RMIT] of [pacman-ssh-contest.py]. *)
Definition only_organizer : PacmanSshContestSettings.Args :=
  PacmanSshContestSettings.mkArgs None (Some (lit "RMIT")) None None None
    false false None None None None false false.

(** A command line that names everything. *)
Definition full_command_line : PacmanSshContestSettings.Args :=
  PacmanSshContestSettings.mkArgs None (Some (lit "RMIT")) (Some (lit "www"))
    (Some (lit "workers.json")) (Some (lit "subs")) false true
    (Some (lit "900")) (Some (lit "2")) (Some (lit "4"))
    (Some (lit "names.csv")) false false.

(** No file anywhere. *)
Definition no_file (path : bytes) : Settings.config := Settings.NoFile.

(** What [load_settings] of [pacman-ssh-contest.py] finds as its
    configuration: nothing without [--config-file]. *)
Definition config_of (read_json : bytes -> Settings.config)
    (args : PacmanSshContestSettings.Args) : Settings.config :=
  match PacmanSshContestSettings.config_file args with
  | Some path => read_json path
  | None => Settings.NoFile
  end.

(** A configuration file that asks for seven fixed layouts. *)
Definition seven_layouts (path : bytes) : Settings.config :=
  Settings.Object (<["no_fixed_layouts"%string := Settings.VInt 7]> ∅).

(** [--config-file config.json --organizer RMIT] *)
Definition with_config_file : PacmanSshContestSettings.Args :=
  PacmanSshContestSettings.mkArgs (Some (lit "config.json"))
    (Some (lit "RMIT")) None None None false false None None None None
    false false.

(** Every file asked for is there. *)
Definition all_there (path : bytes) : bool := true.

(** * Properties *)

(** ** Loops *)

Lemma bind_Ok_l {A B : Type} (a : A) (k : A -> result B) : Ok a ≫= k = k a.
Proof. done. Qed.

Lemma bind_Ok {A B : Type} (m : result A) (k : A -> result B) y :
  m ≫= k = Ok y -> exists x, m = Ok x /\ k x = Ok y.
Proof. destruct m as [x|e]; simpl; [eauto | done]. Qed.

Lemma for_app {A S : Type} (xs ys : list A) (body : A -> S -> result S) s :
  for_ (xs ++ ys) body s = (s' ← for_ xs body s; for_ ys body s').
Proof.
  revert s. induction xs as [|x xs IH]; intros s; simpl; [done|].
  destruct (body x s) as [s'|e]; simpl; [apply IH | done].
Qed.

Lemma for_map {A B S : Type} (f : A -> B) xs (body : B -> S -> result S) s :
  for_ (map f xs) body s = for_ xs (fun x => body (f x)) s.
Proof.
  revert s. induction xs as [|x xs IH]; intros s; simpl; [done|].
  destruct (body (f x) s); simpl; auto.
Qed.

Lemma for_ext {A S : Type} xs (body body' : A -> S -> result S) s :
  (forall x s, body x s = body' x s) -> for_ xs body s = for_ xs body' s.
Proof.
  intros E. revert s. induction xs as [|x xs IH]; intros s; simpl; [done|].
  rewrite E. destruct (body' x s); simpl; auto.
Qed.

Lemma for_collect {A B : Type} (f : A -> B) xs acc :
  for_ xs (fun x acc => Ok (acc ++ [f x])) acc = Ok (acc ++ map f xs).
Proof.
  revert acc. induction xs as [|x xs IH]; intros acc; simpl.
  - by rewrite app_nil_r.
  - rewrite IH. by rewrite <- app_assoc.
Qed.

(** ** Match planning *)

Lemma combinations_1 {A : Type} (pool : list A) :
  combinations pool 1 = map (fun x => [x]) pool.
Proof.
  induction pool as [|x pool IH]; simpl; [done|].
  rewrite IH. by destruct pool.
Qed.

Lemma combinations_2 {A : Type} (pool : list A) :
  combinations pool 2 = map (fun p => [p.1; p.2]) (pairs pool).
Proof.
  induction pool as [|x pool IH]; [done|].
  change (combinations (x :: pool) 2)
    with (map (cons x) (combinations pool 1) ++ combinations pool 2).
  rewrite combinations_1, IH. simpl pairs.
  rewrite map_app, !map_map. done.
Qed.

Lemma for_each_match_flat {S : Type} (body : team -> team -> string -> S -> result S)
    ts ls s :
  for_each_match body ts ls s
  = for_ (match_list ts ls) (fun m s => body m.1.1 m.1.2 m.2 s) s.
Proof.
  unfold for_each_match, match_list. rewrite combinations_2, for_map.
  revert s. induction (pairs ts) as [|[a b] ps IH]; intros s; [done|].
  simpl. rewrite for_app, for_map. simpl.
  destruct (for_ ls _ s); simpl; [apply IH | done].
Qed.

Lemma planned_matches_eq ts ls : planned_matches ts ls = Ok (match_list ts ls).
Proof.
  unfold planned_matches. rewrite for_each_match_flat.
  rewrite (for_collect (fun m : match_id => (m.1.1, m.1.2, m.2))).
  simpl. f_equal. rewrite <- (map_id (match_list ts ls)) at 2.
  apply map_ext. by intros [[??]?].
Qed.

Lemma double_length_pairs {A : Type} (pool : list A) :
  (2 * length (pairs pool) = length pool * (length pool - 1))%nat.
Proof.
  induction pool as [|x pool IH]; simpl; [done|].
  rewrite length_app, length_map. nia.
Qed.

Lemma length_pairs {A : Type} (pool : list A) :
  length (pairs pool) = (length pool * (length pool - 1) / 2)%nat.
Proof.
  rewrite <- double_length_pairs, Nat.mul_comm. symmetry.
  apply Nat.div_mul. done.
Qed.

Lemma length_match_list ts ls :
  length (match_list ts ls) = (length (pairs ts) * length ls)%nat.
Proof.
  unfold match_list. induction (pairs ts) as [|p ps IH]; simpl; [done|].
  rewrite length_app, length_map, IH. done.
Qed.

Lemma elem_of_pairs {A : Type} (pool : list A) a b :
  (a, b) ∈ pairs pool -> a ∈ pool /\ b ∈ pool.
Proof.
  induction pool as [|x pool IH]; simpl; [by intros ?%elem_of_nil|].
  rewrite elem_of_app, list_elem_of_fmap. intros [(y & E & Hy)|H].
  - injection E as -> ->. split; [left | by right].
  - destruct (IH H). split; by right.
Qed.

Lemma pairs_distinct {A : Type} (pool : list A) a b :
  NoDup pool -> (a, b) ∈ pairs pool -> a ≠ b.
Proof.
  induction 1 as [|x pool Hx Hnd IH]; simpl; [by intros ?%elem_of_nil|].
  rewrite elem_of_app, list_elem_of_fmap. intros [(y & E & Hy)|H].
  - injection E as -> ->. by intros ->.
  - auto.
Qed.

Section row_filter.
Context {A : Type} (P : A * A -> Prop) `{!forall p, Decision (P p)}.
Context (x c : A) (HP : forall z, P (x, z) <-> z = c).

Lemma filter_row_absent (pool : list A) :
  c ∉ pool -> filter P (map (pair x) pool) = [].
Proof.
  induction pool as [|y pool IH]; simpl; [done|].
  intros [Hy Hc]%not_elem_of_cons.
  rewrite filter_cons_False; [auto|]. rewrite HP. congruence.
Qed.

Lemma filter_row_present (pool : list A) :
  NoDup pool -> c ∈ pool -> filter P (map (pair x) pool) = [(x, c)].
Proof.
  induction pool as [|y pool IH]; simpl; [by intros _ ?%elem_of_nil|].
  intros [Hy Hnd]%NoDup_cons [<-|Hc]%elem_of_cons.
  - rewrite filter_cons_True by by apply HP.
    by rewrite filter_row_absent.
  - rewrite filter_cons_False; [auto|]. rewrite HP. by intros ->.
Qed.
End row_filter.

Lemma filter_none {A : Type} (P : A -> Prop) `{!forall p, Decision (P p)}
    (l : list A) :
  (forall p, p ∈ l -> ~ P p) -> filter P l = [].
Proof.
  induction l as [|p ps IH]; [done|]. intros Hall.
  rewrite filter_cons_False by (apply Hall; left).
  apply IH. intros q Hq. apply Hall. by right.
Qed.

Lemma filter_pairs_unique {A : Type} `{!EqDecision A} (pool : list A) a b :
  NoDup pool -> a ∈ pool -> b ∈ pool -> a ≠ b ->
  exists p, filter (fun p => p = (a, b) \/ p = (b, a)) (pairs pool) = [p]
            /\ (p = (a, b) \/ p = (b, a)).
Proof.
  induction 1 as [|x pool Hx Hnd IH]; [by intros ?%elem_of_nil|].
  intros Ha Hb Hab. simpl. rewrite filter_app.
  destruct (decide (x = a)) as [->|Hxa]; [|destruct (decide (x = b)) as [->|Hxb]].
  - assert (b ∈ pool) by (apply elem_of_cons in Hb as [?|?]; congruence).
    rewrite (filter_row_present _ a b); [|intros z|done|done].
    + rewrite filter_none; [eauto|].
      intros [u v] [Hu Hv]%elem_of_pairs [?|?]; congruence.
    + split; [intros [?|?]; congruence | intros ->; by left].
  - assert (a ∈ pool) by (apply elem_of_cons in Ha as [?|?]; congruence).
    rewrite (filter_row_present _ b a); [|intros z|done|done].
    + rewrite filter_none; [eauto|].
      intros [u v] [Hu Hv]%elem_of_pairs [?|?]; congruence.
    + split; [intros [?|?]; congruence | intros ->; by right].
  - assert (a ∈ pool) by (apply elem_of_cons in Ha as [?|?]; congruence).
    assert (b ∈ pool) by (apply elem_of_cons in Hb as [?|?]; congruence).
    rewrite filter_none; [by apply IH|].
    intros p (z & -> & _)%list_elem_of_fmap [?|?]; congruence.
Qed.

Lemma filter_opposes_row a b (p : team * team) (ls : list string) :
  filter (opposes a b) (map (fun l => (p.1, p.2, l)) ls)
  = if decide (p = (a, b) \/ p = (b, a))
    then map (fun l => (p.1, p.2, l)) ls else [].
Proof.
  destruct p as [u v]. simpl.
  induction ls as [|l ls IHl]; simpl; [by destruct (decide _)|].
  destruct (decide _) as [Hp|Hp].
  - rewrite filter_cons_True; [by rewrite IHl|].
    unfold opposes; simpl. destruct Hp; [left|right]; split; congruence.
  - rewrite filter_cons_False; [by rewrite IHl|].
    unfold opposes; simpl. intros [[??]|[??]]; apply Hp; [left|right]; congruence.
Qed.

Lemma filter_opposes_match_list a b ts ls :
  filter (opposes a b) (match_list ts ls)
  = flat_map (fun p : team * team => map (fun l => (p.1, p.2, l)) ls)
             (filter (fun p => p = (a, b) \/ p = (b, a)) (pairs ts)).
Proof.
  unfold match_list. induction (pairs ts) as [|p ps IH]; [done|].
  simpl flat_map at 1. rewrite filter_app, IH, filter_opposes_row.
  rewrite filter_cons. by destruct (decide _).
Qed.

Lemma jobs_of_ids self :
  PacmanSshContest.jobs_of self
  = Ok (map PacmanSshContest.mkJob (match_list (teams self) (layouts self))).
Proof.
  unfold PacmanSshContest.jobs_of. rewrite for_each_match_flat.
  rewrite (for_collect (fun m : match_id =>
                          PacmanSshContest._generate_job m.1.1 m.1.2 m.2)).
  simpl. f_equal. apply map_ext. by intros [[??]?].
Qed.

Lemma run_contest_planned getstatusoutput self :
  PacmanSshContest.run_contest getstatusoutput self
  = for_ (match_list (teams self) (layouts self))
         (fun m => PacmanSshContest._run_match getstatusoutput m.1.1 m.1.2 m.2)
         self.
Proof. apply for_each_match_flat. Qed.

Lemma ssh_run_contest_planned getstatusoutput self :
  SshCommandsScript.run_contest getstatusoutput self
  = if (length (teams self) <=? 1)%nat then Raise IOError
    else for_ (match_list (teams self) (layouts self))
           (fun m => SshCommandsScript._run_match getstatusoutput
                       m.1.1 m.1.2 m.2)
           self.
Proof.
  unfold SshCommandsScript.run_contest.
  destruct (length (teams self) <=? 1)%nat; [done|].
  apply for_each_match_flat.
Qed.

(** C1.  For every list of distinct teams and every list of layouts (so in
    particular for N >= 2 teams and L >= 1 layouts) the planning loops reach
    exactly N * (N - 1) / 2 * L games: they are the ids of the jobs
    [run_contest_remotely] builds and the games [run_contest] runs, in
    either script ([ssh_commands_script.py] gets to its loops with two
    teams or more; with fewer it raises on the report it writes first).
    Any two distinct teams meet in exactly L of them, and the layouts of
    those games, in order, are the layout list itself, one game per
    layout; no game opposes a team to itself. *)
Theorem C1_match_planning (self : ContestRunner) :
  NoDup (teams self) ->
  exists ms,
    planned_matches (teams self) (layouts self) = Ok ms
    /\ PacmanSshContest.jobs_of self = Ok (map PacmanSshContest.mkJob ms)
    /\ (forall getstatusoutput,
          PacmanSshContest.run_contest getstatusoutput self
          = for_ ms (fun m => PacmanSshContest._run_match
                                getstatusoutput m.1.1 m.1.2 m.2) self)
    /\ (forall getstatusoutput,
          SshCommandsScript.run_contest getstatusoutput self
          = if (length (teams self) <=? 1)%nat then Raise IOError
            else for_ ms (fun m => SshCommandsScript._run_match
                                     getstatusoutput m.1.1 m.1.2 m.2) self)
    /\ length ms
       = (length (teams self) * (length (teams self) - 1) / 2
          * length (layouts self))%nat
    /\ (forall a b, a ∈ teams self -> b ∈ teams self -> a ≠ b ->
          length (filter (opposes a b) ms) = length (layouts self)
          /\ map snd (filter (opposes a b) ms) = layouts self)
    /\ (forall m, m ∈ ms -> m.1.1 ≠ m.1.2).
Proof.
  intros Hnd. set (ts := teams self). set (ls := layouts self).
  exists (match_list ts ls). split; [apply planned_matches_eq|].
  split; [apply jobs_of_ids|].
  split; [intros; apply run_contest_planned|].
  split; [intros; apply ssh_run_contest_planned|].
  split; [by rewrite length_match_list, length_pairs|]. split.
  - intros a b Ha Hb Hab.
    destruct (filter_pairs_unique ts a b Hnd Ha Hb Hab) as (p & Hp & _).
    rewrite filter_opposes_match_list, Hp. simpl. rewrite app_nil_r.
    rewrite length_map, map_map. simpl. by rewrite map_id.
  - intros [[u v] l]. unfold match_list. rewrite list_elem_of_In, in_flat_map.
    intros ([u' v'] & Hin & Hm). apply in_map_iff in Hm as (l' & E & _).
    simpl in E. injection E as -> -> ->. simpl.
    apply (pairs_distinct ts); [done|]. by apply list_elem_of_In.
Qed.

Lemma C1_match_planning_witness :
  NoDup (teams demo_runner)
  /\ exists ms,
       planned_matches demo_teams demo_layouts = Ok ms
       /\ length ms = (3 * (3 - 1) / 2 * 2)%nat
       /\ (forall a b, a ∈ demo_teams -> b ∈ demo_teams -> a ≠ b ->
             length (filter (opposes a b) ms) = 2%nat
             /\ map snd (filter (opposes a b) ms) = demo_layouts)
       /\ (forall m, m ∈ ms -> m.1.1 ≠ m.1.2).
Proof.
  assert (Hnd : NoDup (teams demo_runner))
    by (apply (bool_decide_unpack _); vm_compute; exact I).
  split; [exact Hnd|].
  destruct (C1_match_planning demo_runner Hnd)
    as (ms & E & _ & _ & _ & Hlen & Hpairs & Hself).
  exists ms. split; [exact E|]. split; [exact Hlen|].
  split; [exact Hpairs | exact Hself].
Defined.

(** ** Substrings *)

Lemma startswith_iff s p : startswith s p = true <-> exists rest, s = p ++ rest.
Proof.
  revert s. induction p as [|c p IH]; intros s; simpl.
  - destruct s; split; eauto.
  - destruct s as [|d s]; simpl; [split; [done | by intros [? ?]]|].
    destruct (Ascii.eqb c d) eqn:Hcd.
    + apply Ascii.eqb_eq in Hcd as ->. rewrite IH. split; intros [rest E]; exists rest; congruence.
    + apply Ascii.eqb_neq in Hcd. split; [done | intros [rest E]; congruence].
Qed.

Lemma find_from_occurs i s sub :
  0 <= i ->
  find_from i s sub ≠ -1 <-> exists before after, s = before ++ sub ++ after.
Proof.
  revert i. induction s as [|c s IH]; intros i Hi; cbn [find_from].
  - destruct (startswith [] sub) eqn:E.
    + apply startswith_iff in E as [rest E]. split; [|lia].
      intros _. by exists [], rest.
    + split; [done|]. intros (before & after & E'). exfalso.
      destruct before; [|done]. simpl in E'.
      assert (startswith [] sub = true) by (apply startswith_iff; eauto).
      congruence.
  - destruct (startswith (c :: s) sub) eqn:E.
    + apply startswith_iff in E as [rest E]. split; [|lia].
      intros _. by exists [], rest.
    + rewrite IH by lia. split; intros (before & after & E').
      * exists (c :: before), after. by rewrite E'.
      * destruct before as [|d before].
        -- assert (startswith (c :: s) sub = true)
             by (apply startswith_iff; eauto).
           congruence.
        -- injection E' as -> ->. eauto.
Qed.

(** [s.find(sub) != -1] says that [sub] occurs in [s]. *)
Lemma found_iff s sub :
  found s sub = true <-> exists before after, s = before ++ sub ++ after.
Proof.
  unfold found, find. rewrite <- (find_from_occurs 0) by lia.
  rewrite negb_true_iff, Z.eqb_neq. done.
Qed.

(** A text in which a piece of the marker does not occur does not contain
    the marker. *)
Lemma found_piece s marker piece l r :
  marker = l ++ piece ++ r -> found s piece = false -> found s marker = false.
Proof.
  intros -> Hp. apply not_true_is_false. intros Hm. apply not_true_iff_false in Hp.
  apply Hp, found_iff. apply found_iff in Hm as (before & after & ->).
  exists (before ++ l), (r ++ after). by rewrite <- !app_assoc.
Qed.

Lemma found_marker s marker piece l r :
  marker = l ++ piece ++ r -> found s marker = true -> found s piece = true.
Proof.
  intros E Hm. destruct (found s piece) eqn:Hp; [done|].
  by rewrite (found_piece s marker piece l r E Hp) in Hm.
Qed.

(** ** The score fields *)

Lemma partition_unfold s sep :
  partition s sep
  = if startswith s sep then Some ([], drop (length sep) s)
    else match s with
         | [] => None
         | c :: s' =>
             match partition s' sep with
             | Some (before, after) => Some (c :: before, after)
             | None => None
             end
         end.
Proof. by destruct s. Qed.

Lemma partition_found s sep :
  found s sep = true -> exists before after, partition s sep = Some (before, after).
Proof.
  intros (before & after & ->)%found_iff.
  induction before as [|c before IH]; rewrite partition_unfold.
  - assert (startswith ([] ++ sep ++ after) sep = true) as ->
      by (apply startswith_iff; eauto).
    eauto.
  - destruct (startswith _ sep); [eauto|]. simpl.
    destruct IH as (b' & a' & ->). eauto.
Qed.

Lemma split_fuel_nonempty fuel s sep : exists x xs, split_fuel fuel s sep = x :: xs.
Proof.
  destruct fuel; simpl; [eauto|]. destruct (partition s sep) as [[??]|]; eauto.
Qed.

Lemma int_raises s e : int s = Raise e -> e = ValueError.
Proof.
  unfold int. destruct (strip s) as [|c r]; [by intros [= <-]|].
  destruct (Ascii.eqb c "-"), (Ascii.eqb c "+");
    repeat match goal with
           | |- context [match ?x with _ => _ end] => destruct x
           end; congruence.
Qed.

(** With the marker on the line, reading the number after it fails only
    in [int]: both subscripts are in range. *)
Lemma field_after_found line marker stop :
  marker ≠ [] -> found line marker = true ->
  exists field, field_after line marker stop = (n ← int field; Ok (Z.abs n)).
Proof.
  intros Hm Hf. unfold field_after, split.
  destruct (partition_found _ _ Hf) as (before & after & Hp).
  destruct line as [|c line].
  { apply found_iff in Hf as (b' & a' & E). destruct b', marker; done. }
  simpl length. cbn [split_fuel]. rewrite Hp.
  destruct (split_fuel_nonempty (length line) after marker) as (rest & xs & ->).
  simpl.
  destruct (split_fuel_nonempty (length rest) rest stop) as (field & ys & ->).
  exists field. done.
Qed.

Lemma field_after_raises line marker stop e :
  marker ≠ [] -> found line marker = true ->
  field_after line marker stop = Raise e -> e = ValueError.
Proof.
  intros Hm Hf. destruct (field_after_found line marker stop Hm Hf) as (field & ->).
  destruct (int field) eqn:E; simpl; [done|].
  intros [= <-]. by apply int_raises in E.
Qed.

(** *** The shape of a line whose number is read *)

Lemma partition_here s sep : partition (sep ++ s) sep = Some ([], s).
Proof.
  rewrite partition_unfold.
  assert (startswith (sep ++ s) sep = true) as ->
    by (apply startswith_iff; eauto).
  by rewrite drop_app_length.
Qed.

Lemma found_cons c s sub : found s sub = true -> found (c :: s) sub = true.
Proof.
  rewrite !found_iff. intros (before & after & ->). by exists (c :: before), after.
Qed.

(** Up to its first occurrence: nothing of [sep] starts inside [before]. *)
Lemma partition_first before sep rest :
  sep ≠ [] ->
  found (before ++ removelast sep) sep = false ->
  partition (before ++ sep ++ rest) sep = Some (before, rest).
Proof.
  intros Hsep. induction before as [|x before IH]; intros Hf.
  { exact (partition_here rest sep). }
  rewrite partition_unfold.
  destruct (startswith ((x :: before) ++ sep ++ rest) sep) eqn:Hs.
  - exfalso. apply startswith_iff in Hs as [r Hr].
    apply not_true_iff_false in Hf. apply Hf, found_iff. exists [].
    set (l := (x :: before) ++ removelast sep) in *.
    assert (Hlen : (length sep <= length l)%nat).
    { pose proof (f_equal length (app_removelast_last "000"%char Hsep)) as Hl.
      rewrite length_app in Hl. simpl in Hl.
      unfold l. rewrite length_app. simpl. lia. }
    assert (Hr' : l ++ [List.last sep "000"%char] ++ rest = sep ++ r).
    { unfold l. rewrite <- app_assoc, (app_assoc (removelast sep)).
      by rewrite <- app_removelast_last. }
    apply (f_equal (take (length sep))) in Hr'.
    rewrite take_app_le, take_app_length in Hr' by done.
    exists (drop (length sep) l).
    simpl. by rewrite <- Hr' at 1; rewrite take_drop.
  - simpl. rewrite IH; [done|].
    destruct (found (before ++ removelast sep) sep) eqn:E; [|done].
    simpl in Hf. by rewrite (found_cons x _ _ E) in Hf.
Qed.

(** No occurrence of [sep] starts on characters other than its first. *)
Lemma partition_skip skipped s c sep :
  Forall (fun x => x ≠ c) skipped ->
  partition (skipped ++ s) (c :: sep)
  = match partition s (c :: sep) with
    | Some (before, after) => Some (skipped ++ before, after)
    | None => None
    end.
Proof.
  induction 1 as [|x skipped Hx _ IH]; simpl app.
  { by destruct (partition s (c :: sep)) as [[??]|]. }
  rewrite partition_unfold. simpl startswith.
  destruct (Ascii.eqb c x) eqn:E; [apply Ascii.eqb_eq in E; congruence|].
  rewrite IH. by destruct (partition s (c :: sep)) as [[??]|].
Qed.

Lemma split_fuel_head fuel s sep :
  sep ≠ [] -> (length s <= fuel)%nat ->
  split_fuel fuel s sep !! 0%nat
  = Some (match partition s sep with
          | Some (before, _) => before
          | None => s
          end).
Proof.
  intros Hsep Hlen. destruct fuel; simpl.
  - destruct s; [|simpl in Hlen; lia]. by destruct sep.
  - by destruct (partition s sep) as [[??]|].
Qed.

Lemma lstrip_spec s : exists ws, s = ws ++ lstrip s /\ Forall (fun c => isspace c = true) ws.
Proof.
  induction s as [|c s (ws & E & Hws)]; simpl; [by exists []|].
  destruct (isspace c) eqn:Hc; [|by exists []].
  exists (c :: ws). split; [simpl; congruence | by constructor].
Qed.

Lemma digits_Some acc s v :
  digits acc s = Some v -> Forall (fun c => isdigit c = true) s.
Proof.
  revert acc. induction s as [|c s IH]; intros acc; simpl; [done|].
  destruct (isdigit c) eqn:Hc; [|done]. intros ?%IH. by constructor.
Qed.

Lemma int_numeric s n : int s = Ok n -> Forall numeric s.
Proof.
  unfold int, strip. intros H.
  destruct (lstrip_spec s) as (ws1 & E1 & H1).
  destruct (lstrip_spec (rev (lstrip s))) as (ws2 & E2 & H2).
  set (t := lstrip (rev (lstrip s))) in *.
  assert (Ht : Forall numeric (rev t)).
  { destruct (rev t) as [|c r] eqn:Et; [done|].
    destruct (Ascii.eqb c "-") eqn:Em.
    { apply Ascii.eqb_eq in Em as ->.
      destruct (lstrip_spec r) as (ws & Er & Hws).
      destruct (lstrip r) as [|a r'] eqn:El; [done|].
      destruct (digits 0 (a :: r')) eqn:Ed; [|done].
      constructor; [right; right; by left|]. rewrite Er.
      apply Forall_app. split.
      - eapply Forall_impl; [exact Hws|]. intros ??. by left.
      - eapply Forall_impl; [by eapply digits_Some|]. intros ??.
        right; by left. }
    destruct (Ascii.eqb c "+") eqn:Ep.
    { apply Ascii.eqb_eq in Ep as ->.
      destruct (lstrip_spec r) as (ws & Er & Hws).
      destruct (lstrip r) as [|a r'] eqn:El; [done|].
      destruct (digits 0 (a :: r')) eqn:Ed; [|done].
      constructor; [right; right; by right|]. rewrite Er.
      apply Forall_app. split.
      - eapply Forall_impl; [exact Hws|]. intros ??. by left.
      - eapply Forall_impl; [by eapply digits_Some|]. intros ??.
        right; by left. }
    destruct (digits 0 (c :: r)) eqn:Ed; [|done].
    eapply Forall_impl; [by eapply digits_Some|]. intros ??. right; by left. }
  rewrite E1. apply Forall_app. split.
  { eapply Forall_impl; [exact H1|]. intros ??. by left. }
  rewrite <- (rev_involutive (lstrip s)), E2, rev_app_distr.
  apply Forall_app. split; [done|].
  apply Forall_rev. eapply Forall_impl; [exact H2|]. intros ??. by left.
Qed.

Lemma numeric_not_letter c x :
  numeric c -> (64 <= nat_of_ascii x)%nat -> c ≠ x.
Proof.
  intros Hc Hx ->. destruct Hc as [H|[H|[->| ->]]].
  - unfold isspace in H. apply orb_true_iff in H as [H|H].
    + apply Nat.eqb_eq in H. lia.
    + apply andb_true_iff in H as [_ H]. apply Nat.leb_le in H. lia.
  - unfold isdigit in H. apply andb_true_iff in H as [_ H].
    apply Nat.leb_le in H. lia.
  - vm_compute in Hx. lia.
  - vm_compute in Hx. lia.
Qed.

(** A line [before ++ marker ++ num ++ stop ++ after] whose marker first
    occurs where shown, whose marker and stop begin with letters and whose
    [num] reads as the integer [n] without containing the first character
    of [stop]: the score read is [abs n]. *)
Lemma field_after_shape m marker s stop before num after n :
  (64 <= nat_of_ascii m)%nat ->
  found (before ++ removelast (m :: marker)) (m :: marker) = false ->
  Forall (fun c => c ≠ m) (s :: stop) ->
  Forall (fun c => c ≠ s) num ->
  int num = Ok n ->
  field_after (before ++ (m :: marker) ++ num ++ (s :: stop) ++ after)
              (m :: marker) (s :: stop)
  = Ok (Z.abs n).
Proof.
  intros Hm Hfirst Hstop Hnum Hint.
  assert (Hnm : Forall (fun c => c ≠ m) num).
  { eapply Forall_impl; [by eapply int_numeric|].
    intros c Hc. by apply numeric_not_letter. }
  set (rest := num ++ (s :: stop) ++ after).
  set (line := before ++ (m :: marker) ++ rest).
  assert (Hp : partition line (m :: marker) = Some (before, rest))
    by (by apply partition_first).
  assert (Hrest : exists x,
             match partition rest (m :: marker) with
             | Some (piece, _) => piece
             | None => rest
             end = num ++ (s :: stop) ++ x).
  { unfold rest. rewrite app_assoc, partition_skip by by apply Forall_app.
    destruct (partition after (m :: marker)) as [[piece ?]|].
    - exists piece. by rewrite <- app_assoc.
    - exists after. by rewrite <- app_assoc. }
  destruct Hrest as [x Hx].
  unfold field_after, split.
  destruct line as [|c line'] eqn:El.
  { destruct before; discriminate El. }
  cbn [length split_fuel]. rewrite Hp.
  assert (Hlen : (length rest <= length line')%nat).
  { apply (f_equal length) in El. unfold line in El.
    rewrite !length_app in El. simpl in El. lia. }
  pose proof (split_fuel_head (length line') rest (m :: marker)
                ltac:(done) Hlen) as Hh.
  rewrite Hx in Hh.
  assert (G1 : getitem (before :: split_fuel (length line') rest (m :: marker)) 1
               = Ok (num ++ (s :: stop) ++ x)).
  { unfold getitem.
    change ((before :: split_fuel (length line') rest (m :: marker)) !! 1%nat)
      with (split_fuel (length line') rest (m :: marker) !! 0%nat).
    by rewrite Hh. }
  rewrite G1, bind_Ok_l.
  assert (G2 : getitem (split (num ++ (s :: stop) ++ x) (s :: stop)) 0 = Ok num).
  { unfold getitem, split. rewrite split_fuel_head by done.
    rewrite partition_skip by done. rewrite (partition_here x (s :: stop)).
    by rewrite app_nil_r. }
  unfold split in G2. rewrite G2, bind_Ok_l, Hint. done.
Qed.

(** [... wins by <n> points ...]: the score is [abs n]. *)
Lemma wins_by_field before num after n :
  found (before ++ lit "wins b") (lit "wins by") = false ->
  int num = Ok n ->
  field_after (before ++ lit "wins by" ++ num ++ lit "points" ++ after)
              (lit "wins by") (lit "points")
  = Ok (Z.abs n).
Proof.
  intros Hfirst Hint.
  apply (field_after_shape "w" (lit "ins by") "p" (lit "oints"));
    [vm_compute; lia | exact Hfirst | | | exact Hint].
  - repeat (constructor; [discriminate|]). constructor.
  - eapply Forall_impl; [by eapply int_numeric|].
    intros c Hc. apply numeric_not_letter; [done | vm_compute; lia].
Qed.

(** [... The Blue team has returned at least <n> ...]: the score is
    [abs n]; the same for the red team. *)
Lemma returned_field colour before num after n :
  colour = lit "Blue" \/ colour = lit "Red" ->
  let marker := lit "The " ++ colour ++ lit " team has returned at least " in
  found (before ++ removelast marker) marker = false ->
  Forall (fun c => c ≠ " "%char) num ->
  int num = Ok n ->
  field_after (before ++ marker ++ num ++ lit " " ++ after) marker (lit " ")
  = Ok (Z.abs n).
Proof.
  intros Hc marker Hfirst Hnum Hint.
  assert (exists tail, marker = "T"%char :: tail) as [tail Ht]
    by (destruct Hc as [-> | ->]; eexists; reflexivity).
  revert Hfirst. rewrite Ht. intros Hfirst.
  apply (field_after_shape "T" tail " " []);
    [vm_compute; lia | exact Hfirst | | exact Hnum | exact Hint].
  repeat (constructor; [discriminate|]). constructor.
Qed.

(** ** State updates *)

Lemma set_errors_id self : set_errors (errors self) self = self.
Proof. by destruct self. Qed.

Lemma set_errors_set_errors e1 e2 self :
  set_errors e2 (set_errors e1 self) = set_errors e2 self.
Proof. done. Qed.

Lemma insert_as_alter {V : Type} (m : gmap string V) k x (f : V -> V) :
  m !! k = Some x -> <[k := f x]> m = alter f k m.
Proof.
  intros Hk. apply map_eq. intros j. destruct (decide (k = j)) as [<-|Hne].
  - by rewrite lookup_insert_eq, lookup_alter_eq, Hk.
  - by rewrite lookup_insert_ne, lookup_alter_ne.
Qed.

Lemma errors_incr_Ok k self :
  is_Some (errors self !! k) ->
  errors_incr k self = Ok (set_errors (incr_all [k] (errors self)) self).
Proof.
  intros [n Hn]. unfold errors_incr, incr_all. rewrite Hn. simpl.
  by rewrite (insert_as_alter _ _ _ (fun n => n + 1) Hn).
Qed.

Lemma errors_incr_inv k self self' :
  errors_incr k self = Ok self' -> is_Some (errors self !! k).
Proof. unfold errors_incr. destruct (errors self !! k); [eauto | done]. Qed.

Lemma ladder_append_Ok k x self :
  is_Some (ladder self !! k) ->
  ladder_append k x self
  = Ok (set_ladder (append_all [(k, x)] (ladder self)) self).
Proof.
  intros [n Hn]. unfold ladder_append, append_all. rewrite Hn. simpl.
  by rewrite (insert_as_alter _ _ _ (fun scores => scores ++ [x]) Hn).
Qed.

Lemma ladder_append_inv k x self self' :
  ladder_append k x self = Ok self' -> is_Some (ladder self !! k).
Proof. unfold ladder_append. destruct (ladder self !! k); [eauto | done]. Qed.

Lemma incr_all_app ks1 ks2 e :
  incr_all (ks1 ++ ks2) e = incr_all ks2 (incr_all ks1 e).
Proof. apply foldl_app. Qed.

Lemma append_all_app kxs1 kxs2 l :
  append_all (kxs1 ++ kxs2) l = append_all kxs2 (append_all kxs1 l).
Proof. apply foldl_app. Qed.

(** The counter of [k] after the increments: one more per occurrence. *)
Lemma lookup_incr_all ks e k :
  incr_all ks e !! k
  = (fun n => n + Z.of_nat (length (filter (eq k) ks))) <$> e !! k.
Proof.
  unfold incr_all. revert e. induction ks as [|j ks IH]; intros e; simpl.
  - destruct (e !! k); simpl; [f_equal; lia | done].
  - rewrite IH.
    destruct (decide (k = j)) as [<-|Hne].
    + rewrite lookup_alter_eq, filter_cons_True by done.
      destruct (e !! k); simpl; [f_equal; lia | done].
    + rewrite lookup_alter_ne, filter_cons_False by done. done.
Qed.

(** The ladder of [k] after the appends: its entries, in order, at the
    end. *)
Lemma lookup_append_all kxs l k :
  append_all kxs l !! k
  = (fun scores => scores ++ map snd (filter (fun kx => k = kx.1) kxs)) <$> l !! k.
Proof.
  unfold append_all. revert l. induction kxs as [|[j x] kxs IH]; intros l; simpl.
  - destruct (l !! k); simpl; [by rewrite app_nil_r | done].
  - rewrite IH. destruct (decide (k = j)) as [<-|Hne].
    + rewrite lookup_alter_eq, filter_cons_True by done.
      destruct (l !! k); simpl; [by rewrite <- app_assoc | done].
    + rewrite lookup_alter_ne, filter_cons_False by done. done.
Qed.

Lemma is_Some_incr_all ks e k : is_Some (incr_all ks e !! k) <-> is_Some (e !! k).
Proof. rewrite lookup_incr_all. apply fmap_is_Some. Qed.

Lemma is_Some_append_all kxs l k :
  is_Some (append_all kxs l !! k) <-> is_Some (l !! k).
Proof. rewrite lookup_append_all. apply fmap_is_Some. Qed.

(** ** The [wins by] rule *)

Lemma wins_by_skip r b line v :
  found line (lit "wins by") = false -> wins_by_rule r b line v = Ok v.
Proof. unfold wins_by_rule. by intros ->. Qed.

Lemma wins_by_plain r b line v n :
  found line (lit "wins by") = true ->
  found line (lit "Red") = false -> found line (lit "Blue") = false ->
  field_after line (lit "wins by") (lit "points") = Ok n ->
  wins_by_rule r b line v = Ok (set_score n v).
Proof. unfold wins_by_rule. by intros -> -> -> ->. Qed.

Lemma wins_by_inv r b line v v' :
  wins_by_rule r b line v = Ok v' ->
  bug v' = bug v /\ (names_agree r b v -> names_agree r b v').
Proof.
  unfold wins_by_rule, names_agree.
  destruct (found line (lit "wins by")); [|by intros [= <-]].
  destruct (field_after _ _ _); simpl; [|done].
  destruct (found line (lit "Red")); [|destruct (found line (lit "Blue"))];
    intros [= <-]; simpl; auto.
Qed.

Lemma wins_by_total r b line v :
  (found line (lit "wins by") = true ->
   exists n, field_after line (lit "wins by") (lit "points") = Ok n) ->
  exists v', wins_by_rule r b line v = Ok v'.
Proof.
  unfold wins_by_rule. destruct (found line (lit "wins by")); [|eauto].
  intros [n ->]; [done|]. simpl.
  destruct (found line (lit "Red")); [|destruct (found line (lit "Blue"))]; eauto.
Qed.

Lemma wins_by_raises r b line v e :
  wins_by_rule r b line v = Raise e ->
  found line (lit "wins by") = true
  /\ field_after line (lit "wins by") (lit "points") = Raise e
  /\ e = ValueError.
Proof.
  unfold wins_by_rule. destruct (found line (lit "wins by")) eqn:Hf; [|done].
  destruct (field_after _ _ _) eqn:E; simpl.
  - destruct (found line (lit "Red")); [|destruct (found line (lit "Blue"))]; done.
  - intros [= <-]. repeat split. by apply field_after_raises in E.
Qed.

(** ** Markers that contain one another *)

Ltac piece l r :=
  first [ eapply (found_piece _ _ _ l r); [ | eassumption ]; reflexivity
        | eapply (found_marker _ _ _ l r); [ | eassumption ]; reflexivity ].

Lemma no_returned_blue line :
  found line (lit "has returned at least") = false ->
  found line BLUE_RETURNED = false.
Proof. intros H. piece (lit "The Blue team ") (lit " "). Qed.

Lemma no_returned_red line :
  found line (lit "has returned at least") = false ->
  found line RED_RETURNED = false.
Proof. intros H. piece (lit "The Red team ") (lit " "). Qed.

Lemma no_blue_returned line :
  found line (lit "Blue") = false -> found line BLUE_RETURNED = false.
Proof. intros H. piece (lit "The ") (lit " team has returned at least "). Qed.

Lemma no_red_returned line :
  found line (lit "Red") = false -> found line RED_RETURNED = false.
Proof. intros H. piece (lit "The ") (lit " team has returned at least "). Qed.

Lemma no_blue_crashed line :
  found line (lit "Blue") = false -> found line (lit "Blue agent crashed") = false.
Proof. intros H. piece (lit "") (lit " agent crashed"). Qed.

Lemma no_red_crashed line :
  found line (lit "Red") = false -> found line (lit "Red agent crashed") = false.
Proof. intros H. piece (lit "") (lit " agent crashed"). Qed.

Lemma blue_crashed_crashed line :
  found line (lit "Blue agent crashed") = true ->
  found line (lit "agent crashed") = true.
Proof. intros H. piece (lit "Blue ") (lit ""). Qed.

Lemma red_crashed_crashed line :
  found line (lit "Red agent crashed") = true ->
  found line (lit "agent crashed") = true.
Proof. intros H. piece (lit "Red ") (lit ""). Qed.

Lemma matches_no_rule_inert line : matches_no_rule line -> inert line.
Proof.
  intros (? & ? & ? & ?). repeat split; auto using no_returned_blue, no_returned_red.
Qed.

Lemma no_score_rule_well_formed line : no_score_rule line -> well_formed line.
Proof.
  intros [Hw Hret].
  pose proof (no_returned_blue _ Hret). pose proof (no_returned_red _ Hret).
  repeat split; intros; congruence.
Qed.

(** ** What one line does to the parser, in [pacman-ssh-contest.py]

    A successful round of the loop is a change of the local variables
    and a list of counters to increment which do not depend on what the
    counters hold. *)

Lemma keys_in_incr_all ks' ks e :
  keys_in (incr_all ks' e) ks <-> keys_in e ks.
Proof. unfold keys_in. apply Forall_proper; [|done]. intros k. apply is_Some_incr_all. Qed.

Ltac effect_nil :=
  exists []; split; [|split; [|split]];
  [ apply Forall_nil_2
  | unfold names_agree; simpl; tauto
  | simpl; tauto
  | intros ? _; unfold incr_all; simpl; by rewrite set_errors_id ].

Lemma errors_incr_effect k self self' :
  errors_incr k self = Ok self' ->
  is_Some (errors self !! k)
  /\ self' = set_errors (incr_all [k] (errors self)) self.
Proof.
  intros H. pose proof (errors_incr_inv _ _ _ H) as Hk.
  rewrite (errors_incr_Ok _ _ Hk) in H. by injection H as <-.
Qed.

Module PacmanSshContestFacts.
Import PacmanSshContest.

Lemma marker_rules_effect r b line v self v' self' :
  marker_rules r b line v self = Ok (v', self') ->
  exists ks,
    keys_in (errors self) ks
    /\ (names_agree r b v -> names_agree r b v')
    /\ (bug v = true -> bug v' = true)
    /\ forall self2, keys_in (errors self2) ks ->
         marker_rules r b line v self2
         = Ok (v', set_errors (incr_all ks (errors self2)) self2).
Proof.
  unfold marker_rules.
  destruct (found line BLUE_RETURNED).
  { destruct (field_after _ _ _); simpl; [|done]. intros [= <- <-]. effect_nil. }
  destruct (found line RED_RETURNED).
  { destruct (field_after _ _ _); simpl; [|done]. intros [= <- <-]. effect_nil. }
  destruct (found line (lit "Tie Game")).
  { intros [= <- <-]. effect_nil. }
  destruct (found line (lit "agent crashed")); [|intros [= <- <-]; effect_nil].
  destruct (found line (lit "Red agent crashed")),
           (found line (lit "Blue agent crashed")); simpl.
  - destruct (errors_incr r self) as [self1|] eqn:E1; simpl; [|done].
    destruct (errors_incr b self1) as [self3|] eqn:E2; simpl; [|done].
    intros [= <- <-].
    apply errors_incr_effect in E1 as [Hr ->].
    apply errors_incr_effect in E2 as [Hb ->].
    change (is_Some (incr_all [r] (errors self) !! b)) in Hb.
    apply is_Some_incr_all in Hb.
    exists [r; b]. split; [|split; [|split]].
    + by repeat constructor.
    + unfold names_agree; simpl; tauto.
    + done.
    + intros self2 [Hr2 [Hb2 _]%Forall_cons]%Forall_cons.
      rewrite (errors_incr_Ok r) by done. simpl.
      rewrite (errors_incr_Ok b) by by apply is_Some_incr_all. done.
  - destruct (errors_incr r self) as [self1|] eqn:E1; simpl; [|done].
    intros [= <- <-]. apply errors_incr_effect in E1 as [Hr ->].
    exists [r]. split; [|split; [|split]].
    + by repeat constructor.
    + unfold names_agree; simpl; tauto.
    + done.
    + intros self2 [Hr2 _]%Forall_cons.
      rewrite (errors_incr_Ok r) by done. done.
  - destruct (errors_incr b self) as [self1|] eqn:E1; simpl; [|done].
    intros [= <- <-]. apply errors_incr_effect in E1 as [Hb ->].
    exists [b]. split; [|split; [|split]].
    + by repeat constructor.
    + unfold names_agree; simpl; tauto.
    + done.
    + intros self2 [Hb2 _]%Forall_cons.
      rewrite (errors_incr_Ok b) by done. done.
  - intros [= <- <-]. effect_nil.
Qed.

Lemma parse_line_effect r b line v self v' self' :
  parse_line r b line (v, self) = Ok (v', self') ->
  exists ks,
    keys_in (errors self) ks
    /\ (names_agree r b v -> names_agree r b v')
    /\ (bug v = true -> bug v' = true)
    /\ forall self2, keys_in (errors self2) ks ->
         parse_line r b line (v, self2)
         = Ok (v', set_errors (incr_all ks (errors self2)) self2).
Proof.
  unfold parse_line.
  destruct (wins_by_rule r b line v) as [v1|] eqn:E1; simpl; [|done].
  apply wins_by_inv in E1 as [Hbug Hagree].
  intros (ks & Hks & Ha & Hb & Hrun)%marker_rules_effect.
  exists ks. split; [|split; [|split]]; auto. rewrite <- Hbug. done.
Qed.

Lemma parse_lines_effect r b lines v self v' self' :
  for_ lines (parse_line r b) (v, self) = Ok (v', self') ->
  exists ks,
    keys_in (errors self) ks
    /\ (names_agree r b v -> names_agree r b v')
    /\ (bug v = true -> bug v' = true)
    /\ forall self2, keys_in (errors self2) ks ->
         for_ lines (parse_line r b) (v, self2)
         = Ok (v', set_errors (incr_all ks (errors self2)) self2).
Proof.
  revert v self. induction lines as [|line lines IH]; intros v self; simpl.
  { intros [= <- <-]. effect_nil. }
  destruct (parse_line r b line (v, self)) as [[v1 self1]|] eqn:E1; simpl; [|done].
  intros (ks2 & Hks2 & Ha2 & Hb2 & Hrun2)%IH.
  destruct (parse_line_effect _ _ _ _ _ _ _ E1) as (ks1 & Hks1 & Ha1 & Hb1 & Hrun1).
  rewrite (Hrun1 self Hks1) in E1. injection E1 as <-. simpl in Hks2.
  apply keys_in_incr_all in Hks2.
  exists (ks1 ++ ks2). split; [|split; [|split]]; auto.
  - by apply Forall_app.
  - intros self2 [H1 H2]%Forall_app. rewrite (Hrun1 self2 H1). simpl.
    rewrite Hrun2 by by apply keys_in_incr_all.
    by rewrite incr_all_app.
Qed.

Lemma parse_line_inert r b line v self :
  inert line -> parse_line r b line (v, self) = Ok (v, self).
Proof.
  intros (Hw & Hb & Hr & Ht & Hc). unfold parse_line.
  rewrite (wins_by_skip _ _ _ _ Hw). simpl.
  unfold marker_rules. by rewrite Hb, Hr, Ht, Hc.
Qed.

Lemma parse_lines_inert r b lines st :
  Forall inert lines -> for_ lines (parse_line r b) st = Ok st.
Proof.
  induction 1 as [|line lines Hl _ IH]; [done|]. destruct st as [v self].
  simpl. by rewrite parse_line_inert.
Qed.

Lemma parse_line_tie r b line v self :
  found line (lit "wins by") = false ->
  found line BLUE_RETURNED = false -> found line RED_RETURNED = false ->
  found line (lit "Tie Game") = true ->
  parse_line r b line (v, self) = Ok (set_winner_loser None None v, self).
Proof.
  intros Hw Hb Hr Ht. unfold parse_line. rewrite (wins_by_skip _ _ _ _ Hw).
  simpl. unfold marker_rules. by rewrite Hb, Hr, Ht.
Qed.

Lemma parse_line_plain_score r b line v self n :
  found line (lit "wins by") = true ->
  found line (lit "Red") = false -> found line (lit "Blue") = false ->
  found line (lit "Tie Game") = false ->
  field_after line (lit "wins by") (lit "points") = Ok n ->
  parse_line r b line (v, self)
  = Ok (if found line (lit "agent crashed") then set_bug true (set_score n v)
        else set_score n v, self).
Proof.
  intros Hw Hr Hb Ht Hn. unfold parse_line.
  rewrite (wins_by_plain _ _ _ _ _ Hw Hr Hb Hn). simpl. unfold marker_rules.
  rewrite (no_blue_returned _ Hb), (no_red_returned _ Hr), Ht.
  rewrite (no_blue_crashed _ Hb), (no_red_crashed _ Hr).
  by destruct (found line (lit "agent crashed")).
Qed.

(** A line on which the crash rule fires for the blue agent. *)
Lemma parse_line_blue_crash r b line v self n :
  (found line (lit "wins by") = true ->
   exists n, field_after line (lit "wins by") (lit "points") = Ok n) ->
  reaches_crash_test line ->
  found line (lit "Blue agent crashed") = true ->
  r ≠ b -> is_Some (errors self !! r) -> errors self !! b = Some n ->
  exists self',
    parse_line r b line (v, self) = Ok (mkParsed 1 (Some r) (Some b) true, self')
    /\ errors self' !! b = Some (n + 1)
    /\ keys_in (errors self') [r; b].
Proof.
  intros Hwf (Hb & Hr & Ht) Hc Hne Hkr Hkb. unfold parse_line.
  destruct (wins_by_total r b line v Hwf) as [v1 ->]. simpl.
  unfold marker_rules.
  rewrite Hb, Hr, Ht, (blue_crashed_crashed _ Hc), Hc.
  destruct (found line (lit "Red agent crashed")); simpl.
  - rewrite (errors_incr_Ok r) by done. simpl.
    rewrite (errors_incr_Ok b) by (apply is_Some_incr_all; eauto). simpl.
    eexists. split; [done|]. simpl.
    rewrite <- incr_all_app. simpl. split.
    + rewrite lookup_incr_all, Hkb. simpl. f_equal.
      rewrite filter_cons_False, filter_cons_True by congruence. simpl. lia.
    + repeat constructor; apply is_Some_incr_all; eauto.
  - rewrite (errors_incr_Ok b) by eauto. simpl.
    eexists. split; [done|]. simpl. split.
    + rewrite lookup_incr_all, Hkb. simpl. f_equal.
      rewrite filter_cons_True by congruence. simpl. lia.
    + repeat constructor; apply is_Some_incr_all; eauto.
Qed.

(** A line on which the crash rule fires for the red agent only. *)
Lemma parse_line_red_crash r b line v self n :
  (found line (lit "wins by") = true ->
   exists n, field_after line (lit "wins by") (lit "points") = Ok n) ->
  reaches_crash_test line ->
  found line (lit "Red agent crashed") = true ->
  found line (lit "Blue agent crashed") = false ->
  errors self !! r = Some n -> is_Some (errors self !! b) ->
  exists self',
    parse_line r b line (v, self) = Ok (mkParsed 1 (Some b) (Some r) true, self')
    /\ errors self' !! r = Some (n + 1)
    /\ keys_in (errors self') [r; b].
Proof.
  intros Hwf (Hb & Hr & Ht) Hc Hnc Hkr Hkb. unfold parse_line.
  destruct (wins_by_total r b line v Hwf) as [v1 ->]. simpl.
  unfold marker_rules.
  rewrite Hb, Hr, Ht, (red_crashed_crashed _ Hc), Hc, Hnc. simpl.
  rewrite (errors_incr_Ok r) by eauto. simpl.
  eexists. split; [done|]. simpl. split.
  - rewrite lookup_incr_all, Hkr. simpl. f_equal.
    rewrite filter_cons_True by congruence. simpl. lia.
  - repeat constructor; apply is_Some_incr_all; eauto.
Qed.

(** With both names among the counters, a well-formed line never raises. *)
Lemma parse_line_total r b line v self :
  well_formed line -> keys_in (errors self) [r; b] ->
  exists v' self',
    parse_line r b line (v, self) = Ok (v', self')
    /\ keys_in (errors self') [r; b].
Proof.
  intros (Hw & Hbl & Hrd) [Hkr [Hkb _]%Forall_cons]%Forall_cons.
  unfold parse_line. destruct (wins_by_total r b line v Hw) as [v1 ->]. simpl.
  unfold marker_rules.
  assert (Hk : keys_in (errors self) [r; b]) by by repeat constructor.
  destruct (found line BLUE_RETURNED).
  { destruct Hbl as [n ->]; [done|]. simpl. eauto. }
  destruct (found line RED_RETURNED).
  { destruct Hrd as [n ->]; [done..|]. simpl. eauto. }
  destruct (found line (lit "Tie Game")); [eauto|].
  destruct (found line (lit "agent crashed")); [|eauto].
  assert (Hk' : forall ks, keys_in (incr_all ks (errors self)) [r; b])
    by (intros; by apply keys_in_incr_all).
  destruct (found line (lit "Red agent crashed")),
           (found line (lit "Blue agent crashed")); simpl.
  - rewrite (errors_incr_Ok r) by done. simpl.
    rewrite (errors_incr_Ok b) by by apply is_Some_incr_all. simpl.
    do 2 eexists. split; [done|]. simpl. rewrite <- incr_all_app. apply Hk'.
  - rewrite (errors_incr_Ok r) by done. simpl.
    do 2 eexists. split; [done|]. apply Hk'.
  - rewrite (errors_incr_Ok b) by done. simpl.
    do 2 eexists. split; [done|]. apply Hk'.
  - eauto.
Qed.

Lemma parse_lines_total r b lines v self :
  Forall well_formed lines -> keys_in (errors self) [r; b] ->
  exists v' self',
    for_ lines (parse_line r b) (v, self) = Ok (v', self')
    /\ keys_in (errors self') [r; b].
Proof.
  intros Hwf. revert v self.
  induction Hwf as [|line lines Hl _ IH]; intros v self Hk; simpl; [eauto|].
  destruct (parse_line_total r b line v self Hl Hk) as (v1 & self1 & -> & Hk1).
  simpl. by apply IH.
Qed.

(** A line without score rule keeps a crash verdict with score 1. *)
Lemma parse_line_keeps_crash r b line v self :
  no_score_rule line -> keys_in (errors self) [r; b] ->
  bug v = true -> score v = 1 ->
  exists v' self',
    parse_line r b line (v, self) = Ok (v', self')
    /\ keys_in (errors self') [r; b] /\ bug v' = true /\ score v' = 1.
Proof.
  intros [Hw Hret] Hk Hbug Hscore.
  pose proof (no_returned_blue _ Hret) as Hb.
  pose proof (no_returned_red _ Hret) as Hr.
  destruct (parse_line_total r b line v self) as (v' & self' & E & Hk');
    [by repeat split; intros; congruence | done |].
  exists v', self'. split; [done|]. split; [done|]. revert E.
  unfold parse_line. rewrite (wins_by_skip _ _ _ _ Hw). simpl.
  unfold marker_rules. rewrite Hb, Hr.
  destruct (found line (lit "Tie Game")); [by intros [= <- <-]|].
  destruct (found line (lit "agent crashed")); [|by intros [= <- <-]].
  destruct (found line (lit "Red agent crashed")),
           (found line (lit "Blue agent crashed")); simpl;
    repeat match goal with
           | |- context [errors_incr ?k ?s] => destruct (errors_incr k s); simpl
           end; try done; by intros [= <- <-].
Qed.

Lemma parse_lines_keep_crash r b lines v self :
  Forall no_score_rule lines -> keys_in (errors self) [r; b] ->
  bug v = true -> score v = 1 ->
  exists v' self',
    for_ lines (parse_line r b) (v, self) = Ok (v', self')
    /\ bug v' = true /\ score v' = 1.
Proof.
  intros Hns. revert v self.
  induction Hns as [|line lines Hl _ IH]; intros v self Hk Hbug Hscore; simpl;
    [eauto|].
  destruct (parse_line_keeps_crash r b line v self Hl Hk Hbug Hscore)
    as (v1 & self1 & -> & Hk1 & Hbug1 & Hscore1).
  simpl. by apply IH.
Qed.

End PacmanSshContestFacts.

(** ** What one line does to the parser, in [ssh_commands_script.py] *)

Module SshCommandsScriptFacts.
Import SshCommandsScript.

Lemma ssh_marker_rules_effect r b line v self v' self' :
  marker_rules r b line v self = Ok (v', self') ->
  exists ks,
    keys_in (errors self) ks
    /\ (names_agree r b v -> names_agree r b v')
    /\ (bug v = true -> bug v' = true)
    /\ forall self2, keys_in (errors self2) ks ->
         marker_rules r b line v self2
         = Ok (v', set_errors (incr_all ks (errors self2)) self2).
Proof.
  unfold marker_rules.
  destruct (found line BLUE_RETURNED).
  { destruct (field_after _ _ _); simpl; [|done]. intros [= <- <-]. effect_nil. }
  destruct (found line RED_RETURNED).
  { destruct (field_after _ _ _); simpl; [|done]. intros [= <- <-]. effect_nil. }
  destruct (found line (lit "Tie Game")).
  { intros [= <- <-]. effect_nil. }
  destruct (found line (lit "agent crashed")); [|intros [= <- <-]; effect_nil].
  destruct (found line (lit "Red agent crashed")),
           (found line (lit "Blue agent crashed")); simpl.
  - destruct (errors_incr r self) as [self1|] eqn:E1; simpl; [|done].
    destruct (errors_incr b self1) as [self3|] eqn:E2; simpl; [|done].
    intros [= <- <-].
    apply errors_incr_effect in E1 as [Hr ->].
    apply errors_incr_effect in E2 as [Hb ->].
    change (is_Some (incr_all [r] (errors self) !! b)) in Hb.
    apply is_Some_incr_all in Hb.
    exists [r; b]. split; [|split; [|split]].
    + by repeat constructor.
    + unfold names_agree; simpl; tauto.
    + done.
    + intros self2 [Hr2 [Hb2 _]%Forall_cons]%Forall_cons.
      rewrite (errors_incr_Ok r) by done. simpl.
      rewrite (errors_incr_Ok b) by by apply is_Some_incr_all. done.
  - destruct (errors_incr r self) as [self1|] eqn:E1; simpl; [|done].
    intros [= <- <-]. apply errors_incr_effect in E1 as [Hr ->].
    exists [r]. split; [|split; [|split]].
    + by repeat constructor.
    + unfold names_agree; simpl; tauto.
    + done.
    + intros self2 [Hr2 _]%Forall_cons.
      rewrite (errors_incr_Ok r) by done. done.
  - destruct (errors_incr b self) as [self1|] eqn:E1; simpl; [|done].
    intros [= <- <-]. apply errors_incr_effect in E1 as [Hb ->].
    exists [b]. split; [|split; [|split]].
    + by repeat constructor.
    + unfold names_agree; simpl; tauto.
    + done.
    + intros self2 [Hb2 _]%Forall_cons.
      rewrite (errors_incr_Ok b) by done. done.
  - intros [= <- <-]. effect_nil.
Qed.

Lemma ssh_parse_line_effect r b line v self v' self' :
  parse_line r b line (v, self) = Ok (v', self') ->
  exists ks,
    keys_in (errors self) ks
    /\ (names_agree r b v -> names_agree r b v')
    /\ (bug v = true -> bug v' = true)
    /\ forall self2, keys_in (errors self2) ks ->
         parse_line r b line (v, self2)
         = Ok (v', set_errors (incr_all ks (errors self2)) self2).
Proof.
  unfold parse_line.
  destruct (wins_by_rule r b line v) as [v1|] eqn:E1; simpl; [|done].
  apply wins_by_inv in E1 as [Hbug Hagree].
  intros (ks & Hks & Ha & Hb & Hrun)%ssh_marker_rules_effect.
  exists ks. split; [|split; [|split]]; auto. rewrite <- Hbug. done.
Qed.

Lemma ssh_parse_lines_effect r b lines v self v' self' :
  for_ lines (parse_line r b) (v, self) = Ok (v', self') ->
  exists ks,
    keys_in (errors self) ks
    /\ (names_agree r b v -> names_agree r b v')
    /\ (bug v = true -> bug v' = true)
    /\ forall self2, keys_in (errors self2) ks ->
         for_ lines (parse_line r b) (v, self2)
         = Ok (v', set_errors (incr_all ks (errors self2)) self2).
Proof.
  revert v self. induction lines as [|line lines IH]; intros v self; simpl.
  { intros [= <- <-]. effect_nil. }
  destruct (parse_line r b line (v, self)) as [[v1 self1]|] eqn:E1; simpl; [|done].
  intros (ks2 & Hks2 & Ha2 & Hb2 & Hrun2)%IH.
  destruct (ssh_parse_line_effect _ _ _ _ _ _ _ E1) as (ks1 & Hks1 & Ha1 & Hb1 & Hrun1).
  rewrite (Hrun1 self Hks1) in E1. injection E1 as <-. simpl in Hks2.
  apply keys_in_incr_all in Hks2.
  exists (ks1 ++ ks2). split; [|split; [|split]]; auto.
  - by apply Forall_app.
  - intros self2 [H1 H2]%Forall_app. rewrite (Hrun1 self2 H1). simpl.
    rewrite Hrun2 by by apply keys_in_incr_all.
    by rewrite incr_all_app.
Qed.

Lemma ssh_parse_line_inert r b line v self :
  inert line -> parse_line r b line (v, self) = Ok (v, self).
Proof.
  intros (Hw & Hb & Hr & Ht & Hc). unfold parse_line.
  rewrite (wins_by_skip _ _ _ _ Hw). simpl.
  unfold marker_rules. by rewrite Hb, Hr, Ht, Hc.
Qed.

Lemma ssh_parse_lines_inert r b lines st :
  Forall inert lines -> for_ lines (parse_line r b) st = Ok st.
Proof.
  induction 1 as [|line lines Hl _ IH]; [done|]. destruct st as [v self].
  simpl. by rewrite ssh_parse_line_inert.
Qed.

Lemma ssh_parse_line_tie r b line v self :
  found line (lit "wins by") = false ->
  found line BLUE_RETURNED = false -> found line RED_RETURNED = false ->
  found line (lit "Tie Game") = true ->
  parse_line r b line (v, self) = Ok (set_winner_loser None None v, self).
Proof.
  intros Hw Hb Hr Ht. unfold parse_line. rewrite (wins_by_skip _ _ _ _ Hw).
  simpl. unfold marker_rules. by rewrite Hb, Hr, Ht.
Qed.

Lemma ssh_parse_line_plain_score r b line v self n :
  found line (lit "wins by") = true ->
  found line (lit "Red") = false -> found line (lit "Blue") = false ->
  found line (lit "Tie Game") = false ->
  field_after line (lit "wins by") (lit "points") = Ok n ->
  parse_line r b line (v, self)
  = Ok (if found line (lit "agent crashed") then set_bug true (set_score n v)
        else set_score n v, self).
Proof.
  intros Hw Hr Hb Ht Hn. unfold parse_line.
  rewrite (wins_by_plain _ _ _ _ _ Hw Hr Hb Hn). simpl. unfold marker_rules.
  rewrite (no_blue_returned _ Hb), (no_red_returned _ Hr), Ht.
  rewrite (no_blue_crashed _ Hb), (no_red_crashed _ Hr).
  by destruct (found line (lit "agent crashed")).
Qed.

(** The crash rule of this script: the flag and the counters, nothing
    else. *)
Lemma ssh_parse_line_crash r b line v self :
  found line (lit "wins by") = false ->
  reaches_crash_test line ->
  found line (lit "agent crashed") = true ->
  keys_in (errors self) [r; b] ->
  exists self',
    parse_line r b line (v, self) = Ok (set_bug true v, self')
    /\ errors self'
       = incr_all ((if found line (lit "Red agent crashed") then [r] else [])
                   ++ (if found line (lit "Blue agent crashed") then [b] else []))
                  (errors self).
Proof.
  intros Hw (Hb & Hr & Ht) Hc [Hkr [Hkb _]%Forall_cons]%Forall_cons.
  unfold parse_line. rewrite (wins_by_skip _ _ _ _ Hw). simpl.
  unfold marker_rules. rewrite Hb, Hr, Ht, Hc.
  destruct (found line (lit "Red agent crashed")),
           (found line (lit "Blue agent crashed")); simpl.
  - rewrite (errors_incr_Ok r) by done. simpl.
    rewrite (errors_incr_Ok b) by by apply is_Some_incr_all. simpl.
    eexists. split; [done|]. simpl. by rewrite <- incr_all_app.
  - rewrite (errors_incr_Ok r) by done. simpl. eauto.
  - rewrite (errors_incr_Ok b) by done. simpl. eauto.
  - eauto.
Qed.

(** With both names among the counters, a well-formed line never raises. *)
Lemma ssh_parse_line_total r b line v self :
  well_formed line -> keys_in (errors self) [r; b] ->
  exists v' self',
    parse_line r b line (v, self) = Ok (v', self')
    /\ keys_in (errors self') [r; b].
Proof.
  intros (Hw & Hbl & Hrd) [Hkr [Hkb _]%Forall_cons]%Forall_cons.
  unfold parse_line. destruct (wins_by_total r b line v Hw) as [v1 ->]. simpl.
  unfold marker_rules.
  assert (Hk : keys_in (errors self) [r; b]) by by repeat constructor.
  destruct (found line BLUE_RETURNED).
  { destruct Hbl as [n ->]; [done|]. simpl. eauto. }
  destruct (found line RED_RETURNED).
  { destruct Hrd as [n ->]; [done..|]. simpl. eauto. }
  destruct (found line (lit "Tie Game")); [eauto|].
  destruct (found line (lit "agent crashed")); [|eauto].
  assert (Hk' : forall ks, keys_in (incr_all ks (errors self)) [r; b])
    by (intros; by apply keys_in_incr_all).
  destruct (found line (lit "Red agent crashed")),
           (found line (lit "Blue agent crashed")); simpl.
  - rewrite (errors_incr_Ok r) by done. simpl.
    rewrite (errors_incr_Ok b) by by apply is_Some_incr_all. simpl.
    do 2 eexists. split; [done|]. simpl. rewrite <- incr_all_app. apply Hk'.
  - rewrite (errors_incr_Ok r) by done. simpl.
    do 2 eexists. split; [done|]. apply Hk'.
  - rewrite (errors_incr_Ok b) by done. simpl.
    do 2 eexists. split; [done|]. apply Hk'.
  - eauto.
Qed.

Lemma ssh_parse_lines_total r b lines v self :
  Forall well_formed lines -> keys_in (errors self) [r; b] ->
  exists v' self',
    for_ lines (parse_line r b) (v, self) = Ok (v', self')
    /\ keys_in (errors self') [r; b].
Proof.
  intros Hwf. revert v self.
  induction Hwf as [|line lines Hl _ IH]; intros v self Hk; simpl; [eauto|].
  destruct (ssh_parse_line_total r b line v self Hl Hk) as (v1 & self1 & -> & Hk1).
  simpl. by apply IH.
Qed.

(** A line without score rule leaves the score alone and keeps a crash
    flag. *)
Lemma ssh_parse_line_keeps_score r b line v self :
  no_score_rule line -> keys_in (errors self) [r; b] ->
  exists v' self',
    parse_line r b line (v, self) = Ok (v', self')
    /\ keys_in (errors self') [r; b]
    /\ score v' = score v /\ (bug v = true -> bug v' = true).
Proof.
  intros [Hw Hret] Hk.
  pose proof (no_returned_blue _ Hret) as Hb.
  pose proof (no_returned_red _ Hret) as Hr.
  destruct (ssh_parse_line_total r b line v self) as (v' & self' & E & Hk');
    [by repeat split; intros; congruence | done |].
  exists v', self'. split; [done|]. split; [done|]. revert E.
  unfold parse_line. rewrite (wins_by_skip _ _ _ _ Hw). simpl.
  unfold marker_rules. rewrite Hb, Hr.
  destruct (found line (lit "Tie Game")); [by intros [= <- <-]|].
  destruct (found line (lit "agent crashed")); [|by intros [= <- <-]].
  destruct (found line (lit "Red agent crashed")),
           (found line (lit "Blue agent crashed")); simpl;
    repeat match goal with
           | |- context [errors_incr ?k ?s] => destruct (errors_incr k s); simpl
           end; try done; by intros [= <- <-].
Qed.

Lemma ssh_parse_lines_keep_score r b lines v self :
  Forall no_score_rule lines -> keys_in (errors self) [r; b] ->
  exists v' self',
    for_ lines (parse_line r b) (v, self) = Ok (v', self')
    /\ score v' = score v /\ (bug v = true -> bug v' = true).
Proof.
  intros Hns. revert v self.
  induction Hns as [|line lines Hl _ IH]; intros v self Hk; simpl; [eauto|].
  destruct (ssh_parse_line_keeps_score r b line v self Hl Hk)
    as (v1 & self1 & -> & Hk1 & Hscore1 & Hbug1).
  simpl. destruct (IH v1 self1 Hk1) as (v' & self' & -> & Hs & Hb).
  exists v', self'. split; [done|]. split; [congruence | auto].
Qed.

End SshCommandsScriptFacts.

(** ** The result parser: the claims about single rules *)

Import PacmanSshContest.

(** C9.  A text none of whose lines matches a rule of the grammar
    ([wins by], [has returned at least], [Tie Game], [agent crashed])
    parses, in both scripts, to score 0, no winner, no loser and no crash:
    a tie, not an error; the counters are left alone. *)
Theorem C9_unparseable_text_is_a_tie (output : bytes) (r b : string)
    (self : ContestRunner) :
  Forall matches_no_rule (splitlines output) ->
  PacmanSshContest._parse_result output r b self = Ok (parsed0, self)
  /\ SshCommandsScript._parse_result output r b self = Ok (parsed0, self).
Proof.
  intros H.
  assert (Hin : Forall inert (splitlines output))
    by (eapply Forall_impl; [exact H | exact matches_no_rule_inert]).
  split.
  - by apply PacmanSshContestFacts.parse_lines_inert.
  - by apply SshCommandsScriptFacts.ssh_parse_lines_inert.
Qed.

Lemma C9_unparseable_text_is_a_tie_witness :
  Forall matches_no_rule
         (splitlines (lit "Layout loaded" ++ LF ++ lit "Time is up."))
  /\ PacmanSshContest._parse_result
       (lit "Layout loaded" ++ LF ++ lit "Time is up.") "A" "B" demo_runner
     = Ok (parsed0, demo_runner)
  /\ SshCommandsScript._parse_result
       (lit "Layout loaded" ++ LF ++ lit "Time is up.") "A" "B" demo_runner
     = Ok (parsed0, demo_runner).
Proof.
  assert (H : Forall matches_no_rule
                (splitlines (lit "Layout loaded" ++ LF ++ lit "Time is up.")))
    by (vm_compute; repeat constructor).
  split; [exact H|].
  exact (C9_unparseable_text_is_a_tie _ "A"%string "B"%string demo_runner H).
Defined.

(** C8, as the code has it.  A line that contains [Tie Game] and neither
    [wins by] nor one of the two [has returned at least] markers sets
    winner and loser to [None] and leaves the score, the crash flag and
    the counters as they were, in both scripts and from every state of
    the parser. *)
Theorem C8_tie_game_line (r b : string) (line : bytes) (v : parsed)
    (self : ContestRunner) :
  found line (lit "Tie Game") = true ->
  found line (lit "wins by") = false ->
  found line BLUE_RETURNED = false -> found line RED_RETURNED = false ->
  exists v',
    PacmanSshContest.parse_line r b line (v, self) = Ok (v', self)
    /\ SshCommandsScript.parse_line r b line (v, self) = Ok (v', self)
    /\ winner v' = None /\ loser v' = None
    /\ score v' = score v /\ bug v' = bug v.
Proof.
  intros Ht Hw Hb Hr. exists (set_winner_loser None None v).
  rewrite PacmanSshContestFacts.parse_line_tie by done.
  rewrite SshCommandsScriptFacts.ssh_parse_line_tie by done.
  done.
Qed.

Lemma C8_tie_game_line_witness :
  exists v',
    PacmanSshContest.parse_line "A" "B" (lit "Tie Game") (red_won_by_3, demo_runner)
    = Ok (v', demo_runner)
    /\ SshCommandsScript.parse_line "A" "B" (lit "Tie Game")
         (red_won_by_3, demo_runner) = Ok (v', demo_runner)
    /\ winner v' = None /\ loser v' = None
    /\ score v' = 3 /\ bug v' = false.
Proof.
  apply (C8_tie_game_line "A" "B" (lit "Tie Game") red_won_by_3 demo_runner);
    vm_compute; reflexivity.
Defined.

(** C8 as stated fails: a [Tie Game] line that also reads [wins by 5
    points] changes the score from 0 to 5, and one that also carries a
    [has returned at least] marker never reaches the [Tie Game] test and
    names a winner. *)
Lemma C8_tie_game_line_counterexample :
  (found (lit "Tie Game wins by 5 points") (lit "Tie Game") = true
   /\ ~ exists v' self',
         PacmanSshContest.parse_line "A" "B" (lit "Tie Game wins by 5 points")
           (parsed0, demo_runner) = Ok (v', self')
         /\ winner v' = None /\ loser v' = None /\ score v' = score parsed0)
  /\ (found (lit "Tie Game: The Red team has returned at least 3 dots")
            (lit "Tie Game") = true
      /\ ~ exists v' self',
            PacmanSshContest.parse_line "A" "B"
              (lit "Tie Game: The Red team has returned at least 3 dots")
              (parsed0, demo_runner) = Ok (v', self')
            /\ winner v' = None /\ loser v' = None /\ score v' = score parsed0).
Proof.
  split; (split; [vm_compute; reflexivity|]).
  - assert (E : PacmanSshContest.parse_line "A" "B" (lit "Tie Game wins by 5 points")
                  (parsed0, demo_runner)
                = Ok (mkParsed 5 None None false, demo_runner))
      by (vm_compute; reflexivity).
    rewrite E. intros (v' & self' & [= <- <-] & _ & _ & Hs). discriminate Hs.
  - assert (E : PacmanSshContest.parse_line "A" "B"
                  (lit "Tie Game: The Red team has returned at least 3 dots")
                  (parsed0, demo_runner)
                = Ok (mkParsed 3 (Some "A"%string) (Some "B"%string) false, demo_runner))
      by (vm_compute; reflexivity).
    rewrite E. intros (v' & self' & [= <- <-] & Hw & _). discriminate Hw.
Qed.

(** C10, as the code has it.  A line that contains [wins by], neither
    [Red] nor [Blue] nor [Tie Game], and whose text after [wins by], up
    to [points], is a well-formed integer, sets the score to the absolute
    value of that integer and leaves winner and loser as the earlier lines
    set them, possibly [None], in both scripts; the counters are left
    alone. *)
Theorem C10_wins_by_without_colour (r b : string) (line : bytes) (v : parsed)
    (self : ContestRunner) (n : Z) :
  found line (lit "wins by") = true ->
  found line (lit "Red") = false -> found line (lit "Blue") = false ->
  found line (lit "Tie Game") = false ->
  field_after line (lit "wins by") (lit "points") = Ok n ->
  exists v',
    PacmanSshContest.parse_line r b line (v, self) = Ok (v', self)
    /\ SshCommandsScript.parse_line r b line (v, self) = Ok (v', self)
    /\ score v' = n /\ winner v' = winner v /\ loser v' = loser v.
Proof.
  intros Hw Hr Hb Ht Hn.
  rewrite (PacmanSshContestFacts.parse_line_plain_score r b line v self n)
    by done.
  rewrite (SshCommandsScriptFacts.ssh_parse_line_plain_score r b line v self n)
    by done.
  eexists. split; [done|]. split; [done|].
  by destruct (found line (lit "agent crashed")).
Qed.

Lemma C10_wins_by_without_colour_witness :
  exists v',
    PacmanSshContest.parse_line "A" "B" (lit "Green wins by 5 points")
      (parsed0, demo_runner) = Ok (v', demo_runner)
    /\ SshCommandsScript.parse_line "A" "B" (lit "Green wins by 5 points")
         (parsed0, demo_runner) = Ok (v', demo_runner)
    /\ score v' = 5 /\ winner v' = None /\ loser v' = None.
Proof.
  apply (C10_wins_by_without_colour "A" "B" (lit "Green wins by 5 points")
           parsed0 demo_runner 5); vm_compute; reflexivity.
Defined.

(** C10 as stated fails: with [wins by many points] the parser raises
    [ValueError] and updates nothing, and a [Tie Game] on the line clears
    the winner an earlier line had set. *)
Lemma C10_wins_by_without_colour_counterexample :
  (found (lit "Green wins by many points") (lit "wins by") = true
   /\ found (lit "Green wins by many points") (lit "points") = true
   /\ found (lit "Green wins by many points") (lit "Red") = false
   /\ found (lit "Green wins by many points") (lit "Blue") = false
   /\ PacmanSshContest.parse_line "A" "B" (lit "Green wins by many points")
        (parsed0, demo_runner) = Raise ValueError)
  /\ (found (lit "Tie Game, Green wins by 5 points") (lit "wins by") = true
      /\ found (lit "Tie Game, Green wins by 5 points") (lit "points") = true
      /\ found (lit "Tie Game, Green wins by 5 points") (lit "Red") = false
      /\ found (lit "Tie Game, Green wins by 5 points") (lit "Blue") = false
      /\ ~ exists v' self',
            PacmanSshContest.parse_line "A" "B"
              (lit "Tie Game, Green wins by 5 points")
              (red_won_by_3, demo_runner) = Ok (v', self')
            /\ winner v' = winner red_won_by_3).
Proof.
  split; repeat (split; [vm_compute; reflexivity|]); [vm_compute; reflexivity|].
  assert (E : PacmanSshContest.parse_line "A" "B"
                (lit "Tie Game, Green wins by 5 points")
                (red_won_by_3, demo_runner)
              = Ok (mkParsed 5 None None false, demo_runner))
    by (vm_compute; reflexivity).
  rewrite E. intros (v' & self' & [= <- <-] & Hw). discriminate Hw.
Qed.

(** ** Folding a parsed result into the ladder *)

Lemma keys_in_append_all {kxs : list (string * Z)} l ks :
  keys_in (append_all kxs l) ks <-> keys_in l ks.
Proof.
  unfold keys_in. apply Forall_proper; [|done]. intros k.
  apply is_Some_append_all.
Qed.

Lemma ladder_entries_names r b v k :
  names_agree r b v -> k ∈ (ladder_entries r b v).*1 -> k = r \/ k = b.
Proof.
  unfold ladder_entries.
  intros [[Hw Hl]|[[Hw Hl]|[Hw Hl]]]; rewrite Hw, ?Hl; simpl; intros H;
    decompose_list_elem_of; auto.
Qed.

Lemma keys_in_entries r b v (l : gmap string (list Z)) :
  names_agree r b v -> keys_in l [r; b] -> keys_in l (ladder_entries r b v).*1.
Proof.
  intros Ha [Hr [Hb _]%Forall_cons]%Forall_cons. apply Forall_forall.
  intros k [->| ->]%(ladder_entries_names r b v); done.
Qed.

(** The two appends of [_analyse_output] and [_run_match]. *)
Lemma ladder_updates_Ok r b v self :
  names_agree r b v -> keys_in (ladder self) (ladder_entries r b v).*1 ->
  match winner v with
  | None =>
      self ← ladder_append r (score v) self;
      ladder_append b (score v) self
  | Some w =>
      self ← ladder_append w (score v) self;
      ladder_append_opt (loser v) (- score v) self
  end
  = Ok (set_ladder (append_all (ladder_entries r b v) (ladder self)) self).
Proof.
  unfold ladder_entries.
  intros [[Hw Hl]|[[Hw Hl]|[Hw Hl]]]; rewrite Hw, ?Hl; simpl;
    intros [H1 [H2 _]%Forall_cons]%Forall_cons;
    rewrite ladder_append_Ok by done; simpl;
    rewrite ladder_append_Ok by (by apply is_Some_append_all); simpl;
    by rewrite <- append_all_app.
Qed.

Lemma ladder_updates_inv r b v self self' :
  match winner v with
  | None =>
      self ← ladder_append r (score v) self;
      ladder_append b (score v) self
  | Some w =>
      self ← ladder_append w (score v) self;
      ladder_append_opt (loser v) (- score v) self
  end = Ok self' ->
  keys_in (ladder self) (ladder_entries r b v).*1.
Proof.
  unfold ladder_entries.
  destruct (winner v) as [w|]; [destruct (loser v) as [l|]|]; simpl.
  - destruct (ladder_append w _ self) as [self1|] eqn:E1; simpl; [|done].
    intros E2%ladder_append_inv. pose proof (ladder_append_inv _ _ _ _ E1) as Hw.
    rewrite ladder_append_Ok in E1 by done. injection E1 as <-.
    apply is_Some_append_all in E2. by repeat constructor.
  - destruct (ladder_append w _ self); done.
  - destruct (ladder_append r _ self) as [self1|] eqn:E1; simpl; [|done].
    intros E2%ladder_append_inv. pose proof (ladder_append_inv _ _ _ _ E1) as Hw.
    rewrite ladder_append_Ok in E1 by done. injection E1 as <-.
    apply is_Some_append_all in E2. by repeat constructor.
Qed.

(** ** One game, from its log to the state *)

Lemma names_agree_parsed0 r b : names_agree r b parsed0.
Proof. by left. Qed.

Module AnalyseOutput.
Import PacmanSshContest PacmanSshContestFacts.

(** A game that parses leaves an outcome which can be replayed on any
    state that has the keys. *)
Lemma analyse_output_of_parsed r rf b bf layout ec output self v self1 :
  _parse_result output r b self = Ok (v, self1) ->
  exists ks,
    keys_in (errors self) ks
    /\ names_agree r b v
    /\ self1 = set_errors (incr_all ks (errors self)) self
    /\ forall self2,
         keys_in (errors self2) ks ->
         keys_in (ladder self2) (ladder_entries r b v).*1 ->
         _analyse_output (r, rf) (b, bf) layout ec output self2
         = Ok (apply_outcome ks (ladder_entries r b v)
                 (r, b, layout, shown_score v, winner v) self2).
Proof.
  unfold _parse_result. intros E.
  destruct (parse_lines_effect _ _ _ _ _ _ _ E) as (ks & Hks & Ha & _ & Hrun).
  specialize (Ha (names_agree_parsed0 r b)).
  exists ks. split; [done|]. split; [done|]. split.
  { rewrite (Hrun self Hks) in E. by injection E as <-. }
  intros self2 Hk2 Hl2. unfold _analyse_output, _parse_result.
  rewrite (Hrun self2 Hk2). simpl.
  rewrite (ladder_updates_Ok r b v) by done. simpl.
  unfold apply_outcome, shown_score. by destruct (bug v).
Qed.

Lemma analyse_output_inv r rf b bf layout ec output self self' :
  _analyse_output (r, rf) (b, bf) layout ec output self = Ok self' ->
  exists v self1,
    _parse_result output r b self = Ok (v, self1)
    /\ keys_in (ladder self) (ladder_entries r b v).*1.
Proof.
  unfold _analyse_output.
  destruct (_parse_result output r b self) as [[v self1]|] eqn:E; simpl; [|done].
  destruct (analyse_output_of_parsed r rf b bf layout ec _ _ _ _ E) as (ks & _ & _ & -> & _).
  intros (self2 & E2 & _)%bind_Ok. simpl in E2.
  apply ladder_updates_inv in E2. eauto.
Qed.

End AnalyseOutput.

Module RecordMatch.
Import SshCommandsScript SshCommandsScriptFacts.

Lemma record_match_of_parsed r rf b bf layout output self v self1 :
  _parse_result output r b self = Ok (v, self1) ->
  exists ks,
    keys_in (errors self) ks
    /\ names_agree r b v
    /\ self1 = set_errors (incr_all ks (errors self)) self
    /\ forall self2,
         keys_in (errors self2) ks ->
         keys_in (ladder self2) (guarded_entries r b v).*1 ->
         record_match (r, rf) (b, bf) layout output self2
         = Ok (apply_outcome ks (guarded_entries r b v)
                 (r, b, layout, shown_score v, winner v) self2).
Proof.
  unfold _parse_result. intros E.
  destruct (ssh_parse_lines_effect _ _ _ _ _ _ _ E) as (ks & Hks & Ha & _ & Hrun).
  specialize (Ha (names_agree_parsed0 r b)).
  exists ks. split; [done|]. split; [done|]. split.
  { rewrite (Hrun self Hks) in E. by injection E as <-. }
  intros self2 Hk2 Hl2. unfold record_match, _parse_result.
  rewrite (Hrun self2 Hk2). simpl.
  unfold apply_outcome, shown_score, guarded_entries in *. destruct (bug v); simpl.
  - unfold append_all. simpl. by destruct self2.
  - rewrite (ladder_updates_Ok r b v) by done. done.
Qed.

End RecordMatch.

(** ** The result parser: crash lines and raising *)

Lemma parse_result_at r b output self pre line post v1 self1 :
  splitlines output = pre ++ line :: post ->
  for_ pre (PacmanSshContest.parse_line r b) (parsed0, self) = Ok (v1, self1) ->
  PacmanSshContest._parse_result output r b self
  = (st ← PacmanSshContest.parse_line r b line (v1, self1);
     for_ post (PacmanSshContest.parse_line r b) st).
Proof.
  intros Hs Hpre. unfold PacmanSshContest._parse_result.
  by rewrite Hs, for_app, Hpre.
Qed.

Lemma ssh_parse_result_at r b output self pre line post v1 self1 :
  splitlines output = pre ++ line :: post ->
  for_ pre (SshCommandsScript.parse_line r b) (parsed0, self) = Ok (v1, self1) ->
  SshCommandsScript._parse_result output r b self
  = (st ← SshCommandsScript.parse_line r b line (v1, self1);
     for_ post (SshCommandsScript.parse_line r b) st).
Proof.
  intros Hs Hpre. unfold SshCommandsScript._parse_result.
  by rewrite Hs, for_app, Hpre.
Qed.

Lemma parse_lines_keys r b lines v self v' self' ks0 :
  for_ lines (PacmanSshContest.parse_line r b) (v, self) = Ok (v', self') ->
  keys_in (errors self) ks0 -> keys_in (errors self') ks0.
Proof.
  intros E Hk.
  destruct (PacmanSshContestFacts.parse_lines_effect _ _ _ _ _ _ _ E)
    as (ks & Hks & _ & _ & Hrun).
  rewrite (Hrun self Hks) in E. injection E as <-. simpl.
  by apply keys_in_incr_all.
Qed.

Lemma ssh_parse_lines_keys r b lines v self v' self' ks0 :
  for_ lines (SshCommandsScript.parse_line r b) (v, self) = Ok (v', self') ->
  keys_in (errors self) ks0 -> keys_in (errors self') ks0.
Proof.
  intros E Hk.
  destruct (SshCommandsScriptFacts.ssh_parse_lines_effect _ _ _ _ _ _ _ E)
    as (ks & Hks & _ & _ & Hrun).
  rewrite (Hrun self Hks) in E. injection E as <-. simpl.
  by apply keys_in_incr_all.
Qed.

Lemma ssh_crash_line_after_wins_by r b line v self :
  (found line (lit "wins by") = true ->
   exists n, field_after line (lit "wins by") (lit "points") = Ok n) ->
  reaches_crash_test line ->
  found line (lit "agent crashed") = true ->
  keys_in (errors self) [r; b] ->
  exists v0 self',
    wins_by_rule r b line v = Ok v0
    /\ (found line (lit "wins by") = false -> v0 = v)
    /\ SshCommandsScript.parse_line r b line (v, self)
       = Ok (set_bug true v0, self')
    /\ errors self'
       = incr_all ((if found line (lit "Red agent crashed") then [r] else [])
                   ++ (if found line (lit "Blue agent crashed") then [b] else []))
                  (errors self).
Proof.
  intros Hwf (Hb & Hr & Ht) Hc [Hkr [Hkb _]%Forall_cons]%Forall_cons.
  destruct (wins_by_total r b line v Hwf) as [v0 Ew]. exists v0.
  assert (found line (lit "wins by") = false -> v0 = v) as Hsame.
  { intros Hw. rewrite (wins_by_skip _ _ _ _ Hw) in Ew. congruence. }
  unfold SshCommandsScript.parse_line. rewrite Ew. simpl.
  unfold SshCommandsScript.marker_rules. rewrite Hb, Hr, Ht, Hc.
  destruct (found line (lit "Red agent crashed")),
           (found line (lit "Blue agent crashed")); simpl.
  - rewrite (errors_incr_Ok r) by done. simpl.
    rewrite (errors_incr_Ok b) by by apply is_Some_incr_all. simpl.
    eexists. split; [done|]. split; [done|]. split; [done|].
    simpl. by rewrite <- incr_all_app.
  - rewrite (errors_incr_Ok r) by done. simpl. eauto 10.
  - rewrite (errors_incr_Ok b) by done. simpl. eauto 10.
  - eauto 10.
Qed.

(** C2, as the code has it.  In [pacman-ssh-contest.py], take a log whose
    lines before some line parse without raising, that line containing
    [Blue agent crashed] and reaching the crash test (it has neither
    [has returned at least] marker nor [Tie Game]; its [wins by] number,
    if it has one, is well formed), no later line matching any condition
    of the loop, and the two team names distinct keys of [self.errors].
    Then the parser returns score 1, winner the red team, loser the blue
    team, crashed, and the blue team's counter is one more than before
    that line.  The same holds for [Red agent crashed] with the teams
    exchanged, if the line does not also contain [Blue agent crashed].
    In [ssh_commands_script.py] the crash branch assigns neither score
    nor winner nor loser: on such a line the parser sets the crash flag,
    increments the counters of the agents the line names, and leaves
    score, winner and loser as the [wins by] rule of that same line set
    them, so as they were before the line when it has no [wins by]. *)
Theorem C2_agent_crash_line (output : bytes) (r b : string)
    (self : ContestRunner) (pre : list bytes) (line : bytes)
    (post : list bytes) (v1 : parsed) (self1 : ContestRunner) :
  splitlines output = pre ++ line :: post ->
  for_ pre (PacmanSshContest.parse_line r b) (parsed0, self) = Ok (v1, self1) ->
  r ≠ b -> keys_in (errors self) [r; b] ->
  (found line (lit "wins by") = true ->
   exists n, field_after line (lit "wins by") (lit "points") = Ok n) ->
  reaches_crash_test line ->
  Forall inert post ->
  (found line (lit "Blue agent crashed") = true ->
   exists self' n,
     PacmanSshContest._parse_result output r b self
     = Ok (mkParsed 1 (Some r) (Some b) true, self')
     /\ errors self1 !! b = Some n /\ errors self' !! b = Some (n + 1))
  /\ (found line (lit "Red agent crashed") = true ->
      found line (lit "Blue agent crashed") = false ->
      exists self' n,
        PacmanSshContest._parse_result output r b self
        = Ok (mkParsed 1 (Some b) (Some r) true, self')
        /\ errors self1 !! r = Some n /\ errors self' !! r = Some (n + 1))
  /\ (found line (lit "agent crashed") = true ->
      forall v s, keys_in (errors s) [r; b] ->
        exists v0 s',
          wins_by_rule r b line v = Ok v0
          /\ (found line (lit "wins by") = false -> v0 = v)
          /\ SshCommandsScript.parse_line r b line (v, s)
             = Ok (set_bug true v0, s')
          /\ errors s'
             = incr_all
                 ((if found line (lit "Red agent crashed") then [r] else [])
                  ++ (if found line (lit "Blue agent crashed") then [b] else []))
                 (errors s)).
Proof.
  intros Hs Hpre Hne Hk Hwf Hreach Hpost.
  pose proof (parse_lines_keys _ _ _ _ _ _ _ _ Hpre Hk)
    as [[nr Hr1] [[nb Hb1] _]%Forall_cons]%Forall_cons.
  split; [|split].
  - intros Hc.
    destruct (PacmanSshContestFacts.parse_line_blue_crash r b line v1 self1 nb)
      as (self' & E & Hcount & _); eauto.
    exists self', nb. rewrite (parse_result_at _ _ _ _ _ _ _ _ _ Hs Hpre), E.
    simpl. by rewrite PacmanSshContestFacts.parse_lines_inert.
  - intros Hc Hnc.
    destruct (PacmanSshContestFacts.parse_line_red_crash r b line v1 self1 nr)
      as (self' & E & Hcount & _); eauto.
    exists self', nr. rewrite (parse_result_at _ _ _ _ _ _ _ _ _ Hs Hpre), E.
    simpl. by rewrite PacmanSshContestFacts.parse_lines_inert.
  - intros Hc v s Hks. by apply ssh_crash_line_after_wins_by.
Qed.

(** C3, as the code has it.  Take a log in which a line containing
    [Red agent crashed] or [Blue agent crashed], and not [Tie Game], comes
    after every [wins by] and [has returned at least] line (neither it nor
    a later line contains one of them), with both team names keys of
    [self.errors].  If the lines before it parse without raising, then in
    [pacman-ssh-contest.py] the result is crashed with score exactly 1,
    whatever score those lines had set; in [ssh_commands_script.py] the
    result is crashed and keeps the score those lines had set. *)
Theorem C3_crash_after_score_lines (output : bytes) (r b : string)
    (self : ContestRunner) (pre : list bytes) (line : bytes)
    (post : list bytes) :
  splitlines output = pre ++ line :: post ->
  keys_in (errors self) [r; b] ->
  found line (lit "Red agent crashed") = true
  \/ found line (lit "Blue agent crashed") = true ->
  found line (lit "Tie Game") = false ->
  Forall no_score_rule (line :: post) ->
  (forall v1 self1,
     for_ pre (PacmanSshContest.parse_line r b) (parsed0, self) = Ok (v1, self1) ->
     exists v self',
       PacmanSshContest._parse_result output r b self = Ok (v, self')
       /\ bug v = true /\ score v = 1)
  /\ (forall v1 self1,
        for_ pre (SshCommandsScript.parse_line r b) (parsed0, self)
        = Ok (v1, self1) ->
        exists v self',
          SshCommandsScript._parse_result output r b self = Ok (v, self')
          /\ bug v = true /\ score v = score v1).
Proof.
  intros Hs Hk Hc Ht [[Hw Hret] Hpost]%Forall_cons.
  assert (Hreach : reaches_crash_test line)
    by (split; [|split]; auto using no_returned_blue, no_returned_red).
  assert (Hwf : found line (lit "wins by") = true ->
                exists n, field_after line (lit "wins by") (lit "points") = Ok n)
    by congruence.
  split; intros v1 self1 Hpre.
  - pose proof (parse_lines_keys _ _ _ _ _ _ _ _ Hpre Hk) as Hk1.
    pose proof Hk1 as [[nr Hr1] [[nb Hb1] _]%Forall_cons]%Forall_cons.
    rewrite (parse_result_at _ _ _ _ _ _ _ _ _ Hs Hpre).
    assert (exists v2 self2,
              PacmanSshContest.parse_line r b line (v1, self1) = Ok (v2, self2)
              /\ keys_in (errors self2) [r; b] /\ bug v2 = true /\ score v2 = 1)
      as (v2 & self2 & -> & Hk2 & Hbug & Hscore).
    { destruct (found line (lit "Blue agent crashed")) eqn:Hblue.
      - destruct (decide (r = b)) as [->|Hne].
        + (* one name for both sides: the blue block still runs last *)
          destruct (PacmanSshContestFacts.parse_line_total b b line v1 self1)
            as (v2 & self2 & E & Hk2);
            [by apply no_score_rule_well_formed | done |].
          exists v2, self2. split; [done|]. split; [done|]. revert E.
          unfold PacmanSshContest.parse_line.
          rewrite (wins_by_skip _ _ _ _ Hw). simpl.
          unfold PacmanSshContest.marker_rules.
          destruct Hreach as (-> & -> & ->).
          rewrite (blue_crashed_crashed _ Hblue), Hblue.
          destruct (found line (lit "Red agent crashed")); simpl;
            repeat match goal with
                   | |- context [errors_incr ?k ?s] =>
                       destruct (errors_incr k s); simpl
                   end; try done; by intros [= <- <-].
        + destruct (PacmanSshContestFacts.parse_line_blue_crash
                      r b line v1 self1 nb) as (self2 & E & _ & Hk2); eauto.
          exists (mkParsed 1 (Some r) (Some b) true), self2. eauto.
      - destruct Hc as [Hred|?]; [|congruence].
        destruct (PacmanSshContestFacts.parse_line_red_crash
                    r b line v1 self1 nr) as (self2 & E & _ & Hk2); eauto.
        exists (mkParsed 1 (Some b) (Some r) true), self2. eauto. }
    simpl. by apply PacmanSshContestFacts.parse_lines_keep_crash.
  - pose proof (ssh_parse_lines_keys _ _ _ _ _ _ _ _ Hpre Hk) as Hk1.
    rewrite (ssh_parse_result_at _ _ _ _ _ _ _ _ _ Hs Hpre).
    assert (Hcr : found line (lit "agent crashed") = true)
      by (destruct Hc; auto using red_crashed_crashed, blue_crashed_crashed).
    destruct (SshCommandsScriptFacts.ssh_parse_line_crash r b line v1 self1)
      as (self2 & -> & He); auto.
    simpl.
    assert (Hk2 : keys_in (errors self2) [r; b])
      by (rewrite He; by apply keys_in_incr_all).
    destruct (SshCommandsScriptFacts.ssh_parse_lines_keep_score
                r b post (set_bug true v1) self2 Hpost Hk2)
      as (v & self' & -> & Hscore & Hbug).
    exists v, self'. split; [done|]. split; [by apply Hbug | done].
Qed.

Ltac eval_keys :=
  repeat (apply Forall_cons; split; [eexists; vm_compute; reflexivity|]);
  apply Forall_nil_2.

Ltac eval_lines :=
  repeat (apply Forall_cons; split; [vm_compute; repeat split|]);
  apply Forall_nil_2.

Ltac eval_well_formed :=
  split; [|split];
  first [ intros H; vm_compute in H; discriminate H
        | intros; eexists; vm_compute; reflexivity
        | intros _ H; vm_compute in H; discriminate H ].

Lemma C2_agent_crash_line_witness :
  exists self' n,
    PacmanSshContest._parse_result crash_log "A" "B" demo_runner
    = Ok (mkParsed 1 (Some "A"%string) (Some "B"%string) true, self')
    /\ errors demo_runner !! "B"%string = Some n
    /\ errors self' !! "B"%string = Some (n + 1).
Proof.
  refine (proj1 (C2_agent_crash_line crash_log "A" "B" demo_runner
                   [lit "Red wins by 5 points"] (lit "Blue agent crashed")
                   [lit "Game over"] red_won_by_5 demo_runner
                   _ _ _ _ _ _ _) _).
  - vm_compute; reflexivity.
  - vm_compute; reflexivity.
  - discriminate.
  - eval_keys.
  - vm_compute. discriminate.
  - vm_compute. repeat split.
  - eval_lines.
  - vm_compute; reflexivity.
Defined.

(** C2 as stated fails: the parser of [ssh_commands_script.py] leaves score,
    winner and loser alone on a crash line; in [pacman-ssh-contest.py] a
    [Tie Game] on the crash line keeps the crash rule from running, and a
    line naming both agents makes the red team the winner although the red
    agent crashed. *)
Lemma C2_agent_crash_line_counterexample :
  (found (lit "Blue agent crashed") (lit "Blue agent crashed") = true
   /\ SshCommandsScript._parse_result (lit "Blue agent crashed") "A" "B"
        demo_runner
      = Ok (mkParsed 0 None None true,
            set_errors (<["B"%string := 1]> (errors demo_runner)) demo_runner)
   /\ ~ exists self',
         SshCommandsScript._parse_result (lit "Blue agent crashed") "A" "B"
           demo_runner
         = Ok (mkParsed 1 (Some "A"%string) (Some "B"%string) true, self'))
  /\ (found (lit "Tie Game. Blue agent crashed") (lit "Blue agent crashed") = true
      /\ PacmanSshContest._parse_result (lit "Tie Game. Blue agent crashed")
           "A" "B" demo_runner
         = Ok (parsed0, demo_runner)
      /\ ~ exists self',
            PacmanSshContest._parse_result (lit "Tie Game. Blue agent crashed")
              "A" "B" demo_runner
            = Ok (mkParsed 1 (Some "A"%string) (Some "B"%string) true, self'))
  /\ (found (lit "Red agent crashed, Blue agent crashed")
            (lit "Red agent crashed") = true
      /\ ~ exists self',
            PacmanSshContest._parse_result
              (lit "Red agent crashed, Blue agent crashed") "A" "B" demo_runner
            = Ok (mkParsed 1 (Some "B"%string) (Some "A"%string) true, self')).
Proof.
  assert (E1 : SshCommandsScript._parse_result (lit "Blue agent crashed") "A" "B"
                 demo_runner
               = Ok (mkParsed 0 None None true,
                     set_errors (<["B"%string := 1]> (errors demo_runner))
                       demo_runner))
    by (vm_compute; reflexivity).
  assert (E2 : PacmanSshContest._parse_result (lit "Tie Game. Blue agent crashed")
                 "A" "B" demo_runner = Ok (parsed0, demo_runner))
    by (vm_compute; reflexivity).
  assert (E3 : exists self',
             PacmanSshContest._parse_result
               (lit "Red agent crashed, Blue agent crashed") "A" "B" demo_runner
             = Ok (mkParsed 1 (Some "A"%string) (Some "B"%string) true, self'))
    by (eexists; vm_compute; reflexivity).
  split; [|split]; (split; [vm_compute; reflexivity|]).
  - split; [exact E1|]. rewrite E1. intros [self' [=]].
  - split; [exact E2|]. rewrite E2. intros [self' [=]].
  - destruct E3 as [self3 ->]. intros [self' [=]].
Qed.

Lemma C3_crash_after_score_lines_witness :
  exists v self',
    PacmanSshContest._parse_result crash_log "A" "B" demo_runner = Ok (v, self')
    /\ bug v = true /\ score v = 1.
Proof.
  refine (proj1 (C3_crash_after_score_lines crash_log "A" "B" demo_runner
                   [lit "Red wins by 5 points"] (lit "Blue agent crashed")
                   [lit "Game over"] _ _ _ _ _) red_won_by_5 demo_runner _).
  - vm_compute; reflexivity.
  - eval_keys.
  - right. vm_compute; reflexivity.
  - vm_compute; reflexivity.
  - eval_lines.
  - vm_compute; reflexivity.
Defined.

(** C3 as stated fails: in [ssh_commands_script.py] the crash line leaves
    the score of the earlier [wins by] line, here 5; in
    [pacman-ssh-contest.py] a crash line that also reads [Tie Game] sets no
    crash flag. *)
Lemma C3_crash_after_score_lines_counterexample :
  (splitlines (lit "Red wins by 5 points" ++ LF ++ lit "Blue agent crashed")
   = [lit "Red wins by 5 points"; lit "Blue agent crashed"]
   /\ no_score_rule (lit "Blue agent crashed")
   /\ ~ exists v self',
         SshCommandsScript._parse_result
           (lit "Red wins by 5 points" ++ LF ++ lit "Blue agent crashed")
           "A" "B" demo_runner = Ok (v, self')
         /\ bug v = true /\ score v = 1)
  /\ (found (lit "Tie Game, Red agent crashed") (lit "Red agent crashed") = true
      /\ no_score_rule (lit "Tie Game, Red agent crashed")
      /\ ~ exists v self',
            PacmanSshContest._parse_result (lit "Tie Game, Red agent crashed")
              "A" "B" demo_runner = Ok (v, self')
            /\ bug v = true /\ score v = 1).
Proof.
  assert (E1 : exists self1,
             SshCommandsScript._parse_result
               (lit "Red wins by 5 points" ++ LF ++ lit "Blue agent crashed")
               "A" "B" demo_runner
             = Ok (mkParsed 5 (Some "A"%string) (Some "B"%string) true, self1))
    by (eexists; vm_compute; reflexivity).
  assert (E2 : PacmanSshContest._parse_result (lit "Tie Game, Red agent crashed")
                 "A" "B" demo_runner = Ok (parsed0, demo_runner))
    by (vm_compute; reflexivity).
  split; (split; [vm_compute; reflexivity|]);
    (split; [split; vm_compute; reflexivity|]).
  - destruct E1 as [self1 ->]. intros (v & self' & [= <- <-] & _ & Hs).
    discriminate Hs.
  - rewrite E2. intros (v & self' & [= <- <-] & Hb & _). discriminate Hb.
Qed.

Lemma wins_by_malformed r b line v e :
  found line (lit "wins by") = true ->
  field_after line (lit "wins by") (lit "points") = Raise e ->
  wins_by_rule r b line v = Raise e.
Proof. unfold wins_by_rule. by intros -> ->. Qed.

(** C4, as the code has it.  With both team names keys of [self.errors]
    and of [self.ladder], parsing a log and folding the result into the
    ladder return normally, in both scripts, whenever every number the
    parser reads is a well-formed integer; nothing in the scripts catches
    the [ValueError] of [int], so a [wins by] line whose text up to
    [points] is not a well-formed integer makes both raise [ValueError]. *)
Theorem C4_raises_only_on_malformed_numbers (output : bytes)
    (r rf b bf layout : string) (ec : Z) (self : ContestRunner) :
  keys_in (errors self) [r; b] -> keys_in (ladder self) [r; b] ->
  (Forall well_formed (splitlines output) ->
   (exists self',
      PacmanSshContest._analyse_output (r, rf) (b, bf) layout ec output self
      = Ok self')
   /\ (exists self',
         SshCommandsScript.record_match (r, rf) (b, bf) layout output self
         = Ok self'))
  /\ (forall pre line post e,
        splitlines output = pre ++ line :: post ->
        Forall well_formed pre ->
        found line (lit "wins by") = true ->
        field_after line (lit "wins by") (lit "points") = Raise e ->
        e = ValueError
        /\ PacmanSshContest._analyse_output (r, rf) (b, bf) layout ec output self
           = Raise ValueError
        /\ SshCommandsScript.record_match (r, rf) (b, bf) layout output self
           = Raise ValueError).
Proof.
  intros Hke Hkl. split.
  - intros Hwf. split.
    + destruct (PacmanSshContestFacts.parse_lines_total r b _ parsed0 self Hwf Hke)
        as (v & self1 & E & _).
      destruct (AnalyseOutput.analyse_output_of_parsed r rf b bf layout ec output self v self1 E)
        as (ks & Hks & Ha & _ & Hrun).
      eexists. apply Hrun; [done|]. by apply keys_in_entries.
    + destruct (SshCommandsScriptFacts.ssh_parse_lines_total r b _ parsed0 self Hwf Hke)
        as (v & self1 & E & _).
      destruct (RecordMatch.record_match_of_parsed r rf b bf layout output self v self1 E)
        as (ks & Hks & Ha & _ & Hrun).
      eexists. apply Hrun; [done|]. unfold guarded_entries.
      destruct (bug v); [apply Forall_nil_2 | by apply keys_in_entries].
  - intros pre line post e Hs Hwf Hw He.
    assert (e = ValueError) as -> by (by apply field_after_raises in He).
    split; [done|]. split.
    + destruct (PacmanSshContestFacts.parse_lines_total r b _ parsed0 self Hwf Hke)
        as (v & self1 & E & _).
      unfold PacmanSshContest._analyse_output.
      rewrite (parse_result_at _ _ _ _ _ _ _ _ _ Hs E).
      unfold PacmanSshContest.parse_line.
      by rewrite (wins_by_malformed _ _ _ _ _ Hw He).
    + destruct (SshCommandsScriptFacts.ssh_parse_lines_total r b _ parsed0 self Hwf Hke)
        as (v & self1 & E & _).
      unfold SshCommandsScript.record_match.
      rewrite (ssh_parse_result_at _ _ _ _ _ _ _ _ _ Hs E).
      unfold SshCommandsScript.parse_line.
      by rewrite (wins_by_malformed _ _ _ _ _ Hw He).
Qed.

Lemma C4_raises_only_on_malformed_numbers_witness :
  (exists self',
     PacmanSshContest._analyse_output team_A team_B "RANDOM17" 0 crash_log
       demo_runner = Ok self')
  /\ (exists self',
        SshCommandsScript.record_match team_A team_B "RANDOM17" crash_log
          demo_runner = Ok self').
Proof.
  refine (proj1 (C4_raises_only_on_malformed_numbers crash_log
                   "A" "teams/A/myTeam.py" "B" "teams/B/myTeam.py" "RANDOM17"
                   0 demo_runner _ _) _).
  - eval_keys.
  - eval_keys.
  - replace (splitlines crash_log)
      with [lit "Red wins by 5 points"; lit "Blue agent crashed"; lit "Game over"]
      by (vm_compute; reflexivity).
    repeat (apply Forall_cons; split; [eval_well_formed|]).
    apply Forall_nil_2.
Defined.

(** C4 as stated fails: on a [wins by] line without a number both scripts
    raise [ValueError]. *)
Lemma C4_raises_only_on_malformed_numbers_counterexample :
  found (lit "Red wins by many points") (lit "wins by") = true
  /\ PacmanSshContest._parse_result (lit "Red wins by many points") "A" "B"
       demo_runner = Raise ValueError
  /\ PacmanSshContest._analyse_output team_A team_B "RANDOM17" 0
       (lit "Red wins by many points") demo_runner = Raise ValueError
  /\ SshCommandsScript._parse_result (lit "Red wins by many points") "A" "B"
       demo_runner = Raise ValueError
  /\ SshCommandsScript.record_match team_A team_B "RANDOM17"
       (lit "Red wins by many points") demo_runner = Raise ValueError.
Proof. repeat split; vm_compute; reflexivity. Qed.

(** ** The ladder and the game records *)

Lemma entries_for r b v k :
  names_agree r b v -> r ≠ b ->
  map snd (filter (fun kx : string * Z => k = kx.1) (ladder_entries r b v))
  = if decide (k = r) then [entry_for r v]
    else if decide (k = b) then [entry_for b v] else [].
Proof.
  unfold ladder_entries, entry_for.
  intros [[Hw Hl]|[[Hw Hl]|[Hw Hl]]] Hne; rewrite Hw, ?Hl;
    rewrite !filter_cons, filter_nil; simpl;
    repeat case_decide; simpl; congruence.
Qed.

Lemma lookup_ladder_entries r b v (l : gmap string (list Z)) k :
  names_agree r b v -> r ≠ b ->
  append_all (ladder_entries r b v) l !! k
  = if decide (k = r) then (fun scores => scores ++ [entry_for r v]) <$> l !! k
    else if decide (k = b) then (fun scores => scores ++ [entry_for b v]) <$> l !! k
    else l !! k.
Proof.
  intros Ha Hne. rewrite lookup_append_all, (entries_for r b v k Ha Hne).
  repeat case_decide; try done.
  destruct (l !! k); simpl; [by rewrite app_nil_r | done].
Qed.

(** C5, as the code has it.  In [pacman-ssh-contest.py] every parsed
    result appends exactly one entry to the ladder of each of the two
    teams and touches no other ladder: with a winner, [+score] for the
    winner and [-score] for the loser, who are the two teams; without one,
    the raw score for both.  In [ssh_commands_script.py] this holds for a
    result whose crash flag is not set; when it is set, the guard
    [if not bug] skips the appends and the ladder is unchanged.  (The team
    names are distinct keys of [self.ladder]; [entry_for] spells out the
    sign.) *)
Theorem C5_ladder_entries (output : bytes) (r rf b bf layout : string)
    (ec : Z) (self : ContestRunner) :
  r ≠ b -> keys_in (ladder self) [r; b] ->
  (forall v self1,
     PacmanSshContest._parse_result output r b self = Ok (v, self1) ->
     exists self',
       PacmanSshContest._analyse_output (r, rf) (b, bf) layout ec output self
       = Ok self'
       /\ names_agree r b v
       /\ ladder self' !! r
          = (fun scores => scores ++ [entry_for r v]) <$> ladder self !! r
       /\ ladder self' !! b
          = (fun scores => scores ++ [entry_for b v]) <$> ladder self !! b
       /\ forall k, k ≠ r -> k ≠ b -> ladder self' !! k = ladder self !! k)
  /\ (forall v self1,
        SshCommandsScript._parse_result output r b self = Ok (v, self1) ->
        exists self',
          SshCommandsScript.record_match (r, rf) (b, bf) layout output self
          = Ok self'
          /\ names_agree r b v
          /\ if bug v then ladder self' = ladder self
             else ladder self' !! r
                  = (fun scores => scores ++ [entry_for r v]) <$> ladder self !! r
                  /\ ladder self' !! b
                     = (fun scores => scores ++ [entry_for b v]) <$> ladder self !! b
                  /\ forall k, k ≠ r -> k ≠ b ->
                       ladder self' !! k = ladder self !! k).
Proof.
  intros Hne Hkl. split; intros v self1 E.
  - destruct (AnalyseOutput.analyse_output_of_parsed r rf b bf layout ec output self v self1 E)
      as (ks & Hks & Ha & _ & Hrun).
    eexists. split; [apply Hrun; [done | by apply keys_in_entries]|].
    split; [done|]. simpl.
    split; [|split; [|intros k Hkr Hkb]];
      rewrite (lookup_ladder_entries r b v _ _ Ha Hne);
      repeat case_decide; congruence.
  - destruct (RecordMatch.record_match_of_parsed r rf b bf layout output self v self1 E)
      as (ks & Hks & Ha & _ & Hrun).
    eexists. split.
    { apply Hrun; [done|]. unfold guarded_entries.
      destruct (bug v); [apply Forall_nil_2 | by apply keys_in_entries]. }
    split; [done|]. unfold guarded_entries. simpl. destruct (bug v); [done|].
    split; [|split; [|intros k Hkr Hkb]];
      rewrite (lookup_ladder_entries r b v _ _ Ha Hne);
      repeat case_decide; congruence.
Qed.

Lemma C5_ladder_entries_witness :
  exists self',
    PacmanSshContest._analyse_output team_A team_B "RANDOM17" 0 crash_log
      demo_runner = Ok self'
    /\ ladder self' !! "A"%string = Some [1]
    /\ ladder self' !! "B"%string = Some [-1]
    /\ ladder self' !! "C"%string = Some [].
Proof.
  assert (exists self1,
            PacmanSshContest._parse_result crash_log "A" "B" demo_runner
            = Ok (mkParsed 1 (Some "A"%string) (Some "B"%string) true, self1))
    as [self1 E0] by (eexists; vm_compute; reflexivity).
  destruct (proj1 (C5_ladder_entries crash_log
                     "A" "teams/A/myTeam.py" "B" "teams/B/myTeam.py" "RANDOM17"
                     0 demo_runner ltac:(discriminate) ltac:(eval_keys))
                  _ _ E0)
    as (self' & E & _ & HA & HB & HC).
  exists self'. split; [exact E|]. split; [|split].
  - rewrite HA. vm_compute. reflexivity.
  - rewrite HB. vm_compute. reflexivity.
  - rewrite (HC "C"%string) by discriminate. vm_compute. reflexivity.
Defined.

(** C5 as stated fails: in [ssh_commands_script.py] a crashed game appends
    nothing to either ladder. *)
Lemma C5_ladder_entries_counterexample :
  exists v self1 self',
    SshCommandsScript._parse_result (lit "Blue agent crashed") "A" "B" demo_runner
    = Ok (v, self1)
    /\ SshCommandsScript.record_match team_A team_B "RANDOM17"
         (lit "Blue agent crashed") demo_runner = Ok self'
    /\ ladder demo_runner !! "A"%string = Some []
    /\ ladder demo_runner !! "B"%string = Some []
    /\ ladder self' !! "A"%string = Some []
    /\ ladder self' !! "B"%string = Some [].
Proof.
  do 3 eexists. repeat split; vm_compute; reflexivity.
Qed.

(** C7, as the code has it.  In both scripts the record appended to
    [self.games] carries 9999 in place of the score when the crash flag of
    the parsed result is set, and the parsed score otherwise.  In
    [pacman-ssh-contest.py] the parsed score, whatever it is, has gone
    into the two ladders also when the flag is set; in
    [ssh_commands_script.py] nothing has gone into the ladder when the
    flag is set.  (The team names are distinct keys of [self.ladder].) *)
Theorem C7_crash_sentinel (output : bytes) (r rf b bf layout : string)
    (ec : Z) (self : ContestRunner) :
  r ≠ b -> keys_in (ladder self) [r; b] ->
  (forall v self1,
     PacmanSshContest._parse_result output r b self = Ok (v, self1) ->
     exists self',
       PacmanSshContest._analyse_output (r, rf) (b, bf) layout ec output self
       = Ok self'
       /\ games self'
          = games self
            ++ [(r, b, layout, if bug v then 9999 else score v, winner v)]
       /\ ladder self' !! r
          = (fun scores => scores ++ [entry_for r v]) <$> ladder self !! r
       /\ ladder self' !! b
          = (fun scores => scores ++ [entry_for b v]) <$> ladder self !! b)
  /\ (forall v self1,
        SshCommandsScript._parse_result output r b self = Ok (v, self1) ->
        exists self',
          SshCommandsScript.record_match (r, rf) (b, bf) layout output self
          = Ok self'
          /\ games self'
             = games self
               ++ [(r, b, layout, if bug v then 9999 else score v, winner v)]
          /\ (bug v = true -> ladder self' = ladder self)).
Proof.
  intros Hne Hkl. split; intros v self1 E.
  - destruct (AnalyseOutput.analyse_output_of_parsed r rf b bf layout ec output self v self1 E)
      as (ks & Hks & Ha & _ & Hrun).
    eexists. split; [apply Hrun; [done | by apply keys_in_entries]|].
    split; [done|]. simpl.
    split; rewrite (lookup_ladder_entries r b v _ _ Ha Hne);
      repeat case_decide; congruence.
  - destruct (RecordMatch.record_match_of_parsed r rf b bf layout output self v self1 E)
      as (ks & Hks & Ha & _ & Hrun).
    eexists. split.
    { apply Hrun; [done|]. unfold guarded_entries.
      destruct (bug v); [apply Forall_nil_2 | by apply keys_in_entries]. }
    split; [done|]. unfold guarded_entries. simpl. by intros ->.
Qed.

Lemma C7_crash_sentinel_witness :
  exists self',
    PacmanSshContest._analyse_output team_A team_B "RANDOM17" 0 crash_log
      demo_runner = Ok self'
    /\ games self' = [("A", "B", "RANDOM17", 9999, Some "A")]%string
    /\ ladder self' !! "A"%string = Some [1]
    /\ ladder self' !! "B"%string = Some [-1].
Proof.
  assert (exists self1,
            PacmanSshContest._parse_result crash_log "A" "B" demo_runner
            = Ok (mkParsed 1 (Some "A"%string) (Some "B"%string) true, self1))
    as [self1 E0] by (eexists; vm_compute; reflexivity).
  destruct (proj1 (C7_crash_sentinel crash_log
                     "A" "teams/A/myTeam.py" "B" "teams/B/myTeam.py" "RANDOM17"
                     0 demo_runner ltac:(discriminate) ltac:(eval_keys))
                  _ _ E0)
    as (self' & E & Hg & HA & HB).
  exists self'. split; [exact E|]. split; [exact Hg|]. split.
  - rewrite HA. vm_compute. reflexivity.
  - rewrite HB. vm_compute. reflexivity.
Defined.

(** C7 as stated fails: in [ssh_commands_script.py] a crashed game shows
    9999 and leaves both ladders empty, so no score was folded in; in
    [pacman-ssh-contest.py] a crash line that names no colour sets the
    flag and leaves the score at 0, which is what goes into the ladders. *)
Lemma C7_crash_sentinel_counterexample :
  (exists self',
     SshCommandsScript.record_match team_A team_B "RANDOM17"
       (lit "Red agent crashed") demo_runner = Ok self'
     /\ games self' = [("A", "B", "RANDOM17", 9999, None)]%string
     /\ ladder self' !! "A"%string = Some []
     /\ ladder self' !! "B"%string = Some [])
  /\ (exists self',
        PacmanSshContest._analyse_output team_A team_B "RANDOM17" 0
          (lit "An agent crashed") demo_runner = Ok self'
        /\ games self' = [("A", "B", "RANDOM17", 9999, None)]%string
        /\ ladder self' !! "A"%string = Some [0]
        /\ ladder self' !! "B"%string = Some [0]).
Proof.
  split; eexists; repeat split; vm_compute; reflexivity.
Qed.

(** ** Standings do not depend on the order of the results *)

Lemma Forall2_permute {A B : Type} (R : A -> B -> Prop) (l l' : list A)
    (k : list B) :
  l ≡ₚ l' -> Forall2 R l k -> exists k', k ≡ₚ k' /\ Forall2 R l' k'.
Proof.
  intros Hp. revert k. induction Hp as [|x l l' Hp IH|x y l|l l' l'' _ IH1 _ IH2];
    intros k Hk.
  - inversion Hk; subst. by exists [].
  - inversion Hk as [|? z ? k0 Hxz Hl]; subst.
    destruct (IH _ Hl) as (k' & Hk' & HF). exists (z :: k').
    split; [by constructor | by constructor].
  - inversion Hk as [|? z ? k0 Hz Hl]; subst.
    inversion Hl as [|? w ? k1 Hw Hl']; subst.
    exists (w :: z :: k1). split; [apply perm_swap | by repeat constructor].
  - destruct (IH1 _ Hk) as (k' & Hk' & HF').
    destruct (IH2 _ HF') as (k'' & Hk'' & HF'').
    exists k''. split; [by etrans | done].
Qed.

Lemma tally_acc_perm scores scores' wins draws loses sum_score :
  scores ≡ₚ scores' ->
  tally scores wins draws loses sum_score
  = tally scores' wins draws loses sum_score.
Proof.
  intros Hp. revert wins draws loses sum_score.
  induction Hp as [|x l l' Hp IH|x y l|l l' l'' _ IH1 _ IH2];
    intros wins draws loses sum_score; simpl.
  - done.
  - destruct (0 <? x); [|destruct (x =? 0)]; apply IH.
  - destruct (0 <? x), (x =? 0), (0 <? y), (y =? 0);
      f_equal; lia.
  - by rewrite IH1, IH2.
Qed.

Lemma row_perm scores scores' e : scores ≡ₚ scores' -> row scores e = row scores' e.
Proof. intros Hp. unfold row. by rewrite (tally_acc_perm _ _ _ _ _ _ Hp). Qed.

Lemma incr_all_perm ks ks' e : ks ≡ₚ ks' -> incr_all ks e = incr_all ks' e.
Proof.
  intros Hp. apply map_eq. intros k. rewrite !lookup_incr_all.
  assert (length (filter (eq k) ks) = length (filter (eq k) ks')) as ->
    by (by rewrite Hp).
  done.
Qed.

(** *** [_calculate_team_stats] *)

Lemma rounds_errors items self self' :
  for_ items team_stats_round self = Ok self' ->
  errors self' = errors self /\ ladder self' = ladder self.
Proof.
  revert self. induction items as [|[k scores] items IH]; intros self; simpl.
  - by intros [= <-].
  - intros (self1 & E1 & E2)%bind_Ok. apply IH in E2 as [-> ->].
    unfold team_stats_round in E1. destruct (tally _ _ _ _ _) as [[[??]?]?].
    destruct (errors self !! k); [|done]. by injection E1 as <-.
Qed.

Lemma rounds_inv items self self' :
  for_ items team_stats_round self = Ok self' ->
  forall k scores, (k, scores) ∈ items -> is_Some (errors self !! k).
Proof.
  revert self. induction items as [|[j sc] items IH]; intros self; simpl.
  - intros _ k scores ?%elem_of_nil. done.
  - intros (self1 & E1 & E2)%bind_Ok k scores [[= -> ->]|Hin]%elem_of_cons.
    + unfold team_stats_round in E1. destruct (tally _ _ _ _ _) as [[[??]?]?].
      destruct (errors self !! j); [eauto | done].
    + assert (errors self1 = errors self) as <-
        by (apply (rounds_errors [(j, sc)]); simpl; by rewrite E1).
      by apply (IH _ E2 k scores).
Qed.

Lemma rounds_spec items self :
  NoDup items.*1 ->
  (forall k scores, (k, scores) ∈ items -> is_Some (errors self !! k)) ->
  exists t,
    for_ items team_stats_round self = Ok (set_team_stats t self)
    /\ (forall k scores e, (k, scores) ∈ items -> errors self !! k = Some e ->
          t !! k = Some (row scores e))
    /\ (forall k, k ∉ items.*1 -> t !! k = team_stats self !! k).
Proof.
  revert self. induction items as [|[j sc] items IH]; intros self Hnd Hk.
  - exists (team_stats self). split; [by destruct self|].
    split; [by intros ??? ?%elem_of_nil | done].
  - rewrite fmap_cons in Hnd. apply NoDup_cons in Hnd as [Hj Hnd].
    simpl in Hj.
    change (for_ ((j, sc) :: items) team_stats_round self)
      with (team_stats_round (j, sc) self ≫= for_ items team_stats_round).
    destruct (Hk j sc) as [ej Hej]; [left|].
    set (self1 := set_team_stats (<[j := row sc ej]> (team_stats self)) self).
    assert (E1 : team_stats_round (j, sc) self = Ok self1).
    { unfold self1, team_stats_round, row.
      destruct (tally _ _ _ _ _) as [[[??]?]?]. by rewrite Hej. }
    rewrite E1. simpl.
    destruct (IH self1 Hnd) as (t & -> & Hin & Hout).
    { intros k scores Hks. apply (Hk k scores). by right. }
    exists t. split; [done|]. split.
    + intros k scores e [[= -> ->]|Hks]%elem_of_cons He.
      * rewrite Hout by done. simpl. rewrite lookup_insert_eq. congruence.
      * by apply Hin.
    + intros k [Hkj Hki]%not_elem_of_cons. rewrite Hout by done.
      simpl. by rewrite lookup_insert_ne.
Qed.

Lemma calculate_team_stats_inv self self' :
  _calculate_team_stats self = Ok self' ->
  forall k, is_Some (ladder self !! k) -> is_Some (errors self !! k).
Proof.
  intros E k [scores Hk]. apply (rounds_inv _ _ _ E k scores).
  by apply elem_of_map_to_list.
Qed.

Lemma calculate_team_stats_spec self :
  (forall k, is_Some (ladder self !! k) -> is_Some (errors self !! k)) ->
  exists t,
    _calculate_team_stats self = Ok (set_team_stats t self)
    /\ forall k,
         t !! k = match ladder self !! k with
                  | Some scores => row scores <$> errors self !! k
                  | None => team_stats self !! k
                  end.
Proof.
  intros Hk. unfold _calculate_team_stats.
  destruct (rounds_spec (map_to_list (ladder self)) self) as (t & -> & Hin & Hout).
  - apply NoDup_fst_map_to_list.
  - intros k scores ?%elem_of_map_to_list. apply Hk. eauto.
  - exists t. split; [done|]. intros k.
    destruct (ladder self !! k) as [scores|] eqn:El.
    + destruct (Hk k) as [e He]; [by rewrite El|]. rewrite He. simpl.
      apply Hin; [by apply elem_of_map_to_list | done].
    + apply Hout. intros ([k' sc] & -> & Hin')%list_elem_of_fmap.
      apply elem_of_map_to_list in Hin'. simpl in El. congruence.
Qed.

(** *** Results as outcomes *)

Lemma analyse_result_outcome res self self' :
  PacmanSshContest.analyse_result res self = Ok self' ->
  exists o, keys_ok o self /\ outcome_of res o.
Proof.
  destruct res as [[[[[[r rf] [b bf]] layout] ec] output] error].
  unfold PacmanSshContest.analyse_result. intros E.
  destruct (AnalyseOutput.analyse_output_inv _ _ _ _ _ _ _ _ _ E) as (v & self1 & Ep & Hl).
  destruct (AnalyseOutput.analyse_output_of_parsed r rf b bf layout ec _ _ _ _ Ep)
    as (ks & Hks & _ & _ & Hrun).
  exists (ks, ladder_entries r b v, (r, b, layout, shown_score v, winner v)).
  split; [by split|]. intros self2 [Hk2 Hl2].
  unfold PacmanSshContest.analyse_result. by apply Hrun.
Qed.

Lemma keys_ok_replay o o' self : keys_ok o (replay o' self) <-> keys_ok o self.
Proof.
  unfold keys_ok, replay, apply_outcome. simpl.
  by rewrite keys_in_incr_all, keys_in_append_all.
Qed.

Lemma run_outcomes rs self self' :
  for_ rs PacmanSshContest.analyse_result self = Ok self' ->
  exists os, Forall2 outcome_of rs os /\ Forall (fun o => keys_ok o self) os.
Proof.
  revert self. induction rs as [|res rs IH]; intros self; simpl.
  - intros _. by exists [].
  - intros (self1 & E1 & E2)%bind_Ok.
    destruct (analyse_result_outcome _ _ _ E1) as (o & Ho & Hres).
    rewrite (Hres self Ho) in E1. injection E1 as <-.
    destruct (IH _ E2) as (os & HF & Hk).
    exists (o :: os). split; [by constructor|]. constructor; [done|].
    eapply Forall_impl; [exact Hk|]. intros o'. apply keys_ok_replay.
Qed.

Lemma run_replay rs os self :
  Forall2 outcome_of rs os -> Forall (fun o => keys_ok o self) os ->
  for_ rs PacmanSshContest.analyse_result self
  = Ok (foldl (fun self o => replay o self) self os).
Proof.
  intros HF. revert self.
  induction HF as [|res o rs os Hres _ IH]; intros self Hk; simpl; [done|].
  apply Forall_cons in Hk as [Ho Hk]. rewrite (Hres self Ho). simpl.
  apply IH. eapply Forall_impl; [exact Hk|]. intros o'. apply keys_ok_replay.
Qed.

Lemma replay_all_errors os self :
  errors (foldl (fun self o => replay o self) self os)
  = incr_all (concat (map (fun o : outcome => o.1.1) os)) (errors self).
Proof.
  revert self. induction os as [|o os IH]; intros self; simpl; [done|].
  by rewrite IH, incr_all_app.
Qed.

Lemma replay_all_ladder os self :
  ladder (foldl (fun self o => replay o self) self os)
  = append_all (concat (map (fun o : outcome => o.1.2) os)) (ladder self).
Proof.
  revert self. induction os as [|o os IH]; intros self; simpl; [done|].
  by rewrite IH, append_all_app.
Qed.

Lemma replay_all_team_stats os self :
  team_stats (foldl (fun self o => replay o self) self os) = team_stats self.
Proof.
  revert self. induction os as [|o os IH]; intros self; simpl; [done|].
  by rewrite IH.
Qed.

Lemma concat_map_perm {A B : Type} (f : A -> list B) (l l' : list A) :
  l ≡ₚ l' -> concat (map f l) ≡ₚ concat (map f l').
Proof.
  induction 1 as [|x l l' _ IH|x y l|l l' l'' _ IH1 _ IH2]; simpl.
  - done.
  - by rewrite IH.
  - rewrite !app_assoc. by rewrite (Permutation_app_comm (f y) (f x)).
  - by etrans.
Qed.

(** C6.  Feeding the same job results to [_analyse_all_outputs] in any
    order and then running [_calculate_team_stats] gives the same
    [team_stats] (points, wins, draws, losses, crash count and score
    balance of every team): if the run on one arrangement returns a table,
    the run on any permutation of it returns that very table. *)
Theorem C6_standings_ignore_arrival_order (results results' : list job_result)
    (self : ContestRunner) (table : gmap string stats_value) :
  results ≡ₚ results' ->
  PacmanSshContest.standings results self = Ok table ->
  PacmanSshContest.standings results' self = Ok table.
Proof.
  intros Hp. unfold PacmanSshContest.standings,
    PacmanSshContest._analyse_all_outputs.
  intros (s1 & E1 & (s1' & Ec1 & [= <-])%bind_Ok)%bind_Ok.
  destruct (run_outcomes _ _ _ E1) as (os & HF & Hk).
  destruct (Forall2_permute _ _ _ _ Hp HF) as (os' & Hos & HF').
  assert (Hk' : Forall (fun o => keys_ok o self) os') by (by rewrite <- Hos).
  rewrite (run_replay _ _ _ HF Hk) in E1. injection E1 as <-.
  rewrite (run_replay _ _ _ HF' Hk'). simpl.
  set (s1 := foldl (fun self o => replay o self) self os) in *.
  set (s2 := foldl (fun self o => replay o self) self os').
  assert (He : errors s2 = errors s1).
  { unfold s1, s2. rewrite !replay_all_errors.
    apply incr_all_perm. symmetry. by apply concat_map_perm. }
  assert (Hl : forall k,
             exists x x', x ≡ₚ x'
               /\ ladder s1 !! k = (fun scores => scores ++ x) <$> ladder self !! k
               /\ ladder s2 !! k = (fun scores => scores ++ x') <$> ladder self !! k).
  { intros k. unfold s1, s2. rewrite !replay_all_ladder, !lookup_append_all.
    do 2 eexists. split; [|split; reflexivity].
    by rewrite (concat_map_perm (fun o : outcome => o.1.2) _ _ Hos). }
  pose proof (calculate_team_stats_inv _ _ Ec1) as Hkeys1.
  destruct (calculate_team_stats_spec s1 Hkeys1) as (t1 & Et1 & Ht1).
  rewrite Et1 in Ec1. injection Ec1 as <-.
  destruct (calculate_team_stats_spec s2) as (t2 & -> & Ht2).
  { intros k Hs. rewrite He. apply Hkeys1.
    destruct (Hl k) as (x & x' & _ & -> & E2). rewrite E2 in Hs.
    apply fmap_is_Some in Hs. by apply fmap_is_Some. }
  simpl. f_equal. apply map_eq. intros k. rewrite Ht1, Ht2, He.
  destruct (Hl k) as (x & x' & Hx & -> & ->).
  unfold s1, s2. rewrite !replay_all_team_stats.
  destruct (ladder self !! k) as [scores|]; simpl; [|done].
  destruct (errors _ !! k); simpl; [|done].
  f_equal. apply row_perm. by rewrite Hx.
Qed.

Lemma C6_standings_ignore_arrival_order_witness :
  exists table,
    PacmanSshContest.standings demo_results demo_runner = Ok table
    /\ PacmanSshContest.standings (rev demo_results) demo_runner = Ok table
    /\ table !! "A"%string = Some (Row 6 2 0 0 0 8)
    /\ table !! "B"%string = Some (Row 1 0 1 1 0 (-5))
    /\ table !! "C"%string = Some (Row 1 0 1 1 0 (-3)).
Proof.
  assert (exists table,
            PacmanSshContest.standings demo_results demo_runner = Ok table
            /\ table !! "A"%string = Some (Row 6 2 0 0 0 8)
            /\ table !! "B"%string = Some (Row 1 0 1 1 0 (-5))
            /\ table !! "C"%string = Some (Row 1 0 1 1 0 (-3)))
    as (table & E & HA & HB & HC)
    by (eexists; split; [vm_compute; reflexivity | repeat split]).
  exists table. split; [exact E|]. split; [|by repeat split].
  exact (C6_standings_ignore_arrival_order demo_results (rev demo_results)
           demo_runner table (Permutation_rev demo_results) E).
Defined.

(** *** The standings of well-formed results exist *)

Lemma analyse_result_total res self :
  result_ok self res ->
  exists o, PacmanSshContest.analyse_result res self = Ok (replay o self).
Proof.
  destruct res as [[[[[[r rf] [b bf]] layout] ec] output] error].
  intros (Hke & Hkl & Hwf). simpl in Hke, Hkl.
  destruct (PacmanSshContestFacts.parse_lines_total r b _ parsed0 self Hwf Hke)
    as (v & self1 & E & _).
  destruct (AnalyseOutput.analyse_output_of_parsed
              r rf b bf layout ec _ _ _ _ E) as (ks & Hks & Ha & _ & Hrun).
  exists (ks, ladder_entries r b v, (r, b, layout, shown_score v, winner v)).
  unfold PacmanSshContest.analyse_result.
  apply Hrun; [done | by apply keys_in_entries].
Qed.

Lemma result_ok_replay o self res : result_ok (replay o self) res <-> result_ok self res.
Proof.
  destruct res as [[[[[[r rf] [b bf]] layout] ec] output] error].
  unfold result_ok, replay, apply_outcome. simpl.
  by rewrite keys_in_incr_all, keys_in_append_all.
Qed.

Lemma analyse_all_outputs_total results self :
  Forall (result_ok self) results ->
  exists os,
    PacmanSshContest._analyse_all_outputs results self
    = Ok (foldl (fun self o => replay o self) self os).
Proof.
  unfold PacmanSshContest._analyse_all_outputs. revert self.
  induction results as [|res results IH]; intros self Hok; simpl.
  { by exists []. }
  apply Forall_cons in Hok as [Hres Hok].
  destruct (analyse_result_total res self Hres) as [o ->]. simpl.
  destruct (IH (replay o self)) as [os ->].
  { eapply Forall_impl; [exact Hok|]. intros res'. apply result_ok_replay. }
  by exists (o :: os).
Qed.

(** With every ladder key also a key of the counters, as [__init__]
    leaves them, well-formed results always give a table. *)
Lemma standings_total results self :
  Forall (result_ok self) results ->
  (forall k, is_Some (ladder self !! k) -> is_Some (errors self !! k)) ->
  exists table, PacmanSshContest.standings results self = Ok table.
Proof.
  intros Hok Hkeys. unfold PacmanSshContest.standings.
  destruct (analyse_all_outputs_total results self Hok) as [os ->]. simpl.
  destruct (calculate_team_stats_spec
              (foldl (fun self o => replay o self) self os)) as (t & -> & _).
  - intros k. rewrite replay_all_errors, replay_all_ladder.
    rewrite is_Some_incr_all, is_Some_append_all. apply Hkeys.
  - simpl. eauto.
Qed.

Lemma init_keys ts ls k :
  is_Some (ladder (init ts ls) !! k) -> is_Some (errors (init ts ls) !! k).
Proof.
  simpl. rewrite <- !elem_of_dom, !dom_list_to_map_L.
  by rewrite <- !list_fmap_compose.
Qed.

(** ** The examples of the specification *)

Example red_wins_by_7 :
  exists self',
    PacmanSshContest._parse_result (lit "Red wins by 7 points") "A" "B" demo_runner
    = Ok (mkParsed 7 (Some "A"%string) (Some "B"%string) false, self').
Proof. eexists. vm_compute. reflexivity. Qed.

Example tie_game_alone :
  PacmanSshContest._parse_result (lit "Tie Game") "A" "B" demo_runner
  = Ok (parsed0, demo_runner).
Proof. vm_compute. reflexivity. Qed.

Example returned_at_least :
  PacmanSshContest.parse_line "A" "B"
    (lit "The Blue team has returned at least 18 of the opponents' dots.")
    (parsed0, demo_runner)
  = Ok (mkParsed 18 (Some "B"%string) (Some "A"%string) false, demo_runner).
Proof. vm_compute. reflexivity. Qed.

(** * Further properties *)

(** ** The plan *)

Lemma pairs_short {A : Type} (pool : list A) :
  (length pool < 2)%nat -> pairs pool = [].
Proof. destruct pool as [|x [|y pool]]; simpl; [done | done | lia]. Qed.

Lemma match_list_empty ts ls :
  (length ts < 2)%nat \/ ls = [] -> match_list ts ls = [].
Proof.
  unfold match_list. intros [H| ->].
  - by rewrite pairs_short.
  - induction (pairs ts) as [|p ps IH]; [done | exact IH].
Qed.

(** X1.  With fewer than two teams, or without layouts, nothing is
    planned: [run_contest_remotely] builds no job and no game is run,
    whatever the game engine would answer.  [run_contest] of
    [pacman-ssh-contest.py] returns the state as it found it.  So does
    [run_contest] of [ssh_commands_script.py] with two teams or more (and
    no layout); with fewer than two teams it raises [IOError], on the
    report it writes into a directory that nothing has made. *)
Theorem X1_nothing_to_play (self : ContestRunner) :
  (length (teams self) < 2)%nat \/ layouts self = [] ->
  PacmanSshContest.jobs_of self = Ok []
  /\ (forall getstatusoutput,
        PacmanSshContest.run_contest getstatusoutput self = Ok self)
  /\ (forall getstatusoutput,
        SshCommandsScript.run_contest getstatusoutput self
        = if (length (teams self) <=? 1)%nat then Raise IOError else Ok self).
Proof.
  intros H. rewrite jobs_of_ids. split; [|split; intros g].
  - by rewrite match_list_empty.
  - by rewrite run_contest_planned, match_list_empty.
  - by rewrite ssh_run_contest_planned, match_list_empty.
Qed.

Lemma X1_nothing_to_play_witness :
  (PacmanSshContest.jobs_of lonely_runner = Ok []
   /\ PacmanSshContest.run_contest tie_engine lonely_runner = Ok lonely_runner
   /\ SshCommandsScript.run_contest tie_engine lonely_runner = Raise IOError)
  /\ (PacmanSshContest.jobs_of lonely_runner_AB = Ok []
      /\ PacmanSshContest.run_contest tie_engine lonely_runner_AB
         = Ok lonely_runner_AB
      /\ SshCommandsScript.run_contest tie_engine lonely_runner_AB
         = Ok lonely_runner_AB).
Proof.
  split.
  - destruct (X1_nothing_to_play lonely_runner) as (Hj & Hp & Hs);
      [left; vm_compute; lia|].
    split; [exact Hj|]. split; [exact (Hp tie_engine) | exact (Hs tie_engine)].
  - destruct (X1_nothing_to_play lonely_runner_AB) as (Hj & Hp & Hs);
      [right; reflexivity|].
    split; [exact Hj|]. split; [exact (Hp tie_engine) | exact (Hs tie_engine)].
Defined.

Lemma elem_of_pairs_lookup {A : Type} (pool : list A) a b :
  (a, b) ∈ pairs pool
  <-> exists i j, (i < j)%nat /\ pool !! i = Some a /\ pool !! j = Some b.
Proof.
  induction pool as [|x pool IH]; simpl.
  { split; [by intros ?%elem_of_nil | by intros (i & j & _ & ? & _)]. }
  rewrite elem_of_app, list_elem_of_fmap, IH. split.
  - intros [(y & [= -> ->] & Hy)|(i & j & Hij & Hi & Hj)].
    + apply list_elem_of_lookup in Hy as [j Hj].
      exists 0%nat, (S j). split; [lia | done].
    + exists (S i), (S j). split; [lia | done].
  - intros (i & j & Hij & Hi & Hj). destruct j as [|j]; [lia|].
    destruct i as [|i].
    + left. injection Hi as ->. exists b. split; [done|].
      apply list_elem_of_lookup. eauto.
    + right. exists i, j. split; [lia | done].
Qed.

(** X2.  The games planned are exactly the triples of a team, a team later
    in [self.teams] and a layout: the team listed first is always red, so
    no game is planned with the sides exchanged. *)
Theorem X2_plan_by_positions (ts : list team) (ls : list string)
    (red blue : team) (layout : string) :
  exists ms,
    planned_matches ts ls = Ok ms
    /\ ((red, blue, layout) ∈ ms
        <-> exists i j k,
              (i < j)%nat /\ ts !! i = Some red /\ ts !! j = Some blue
              /\ ls !! k = Some layout).
Proof.
  exists (match_list ts ls). split; [apply planned_matches_eq|].
  unfold match_list. rewrite list_elem_of_In, in_flat_map. split.
  - intros ([a b] & Hp & Hm). apply in_map_iff in Hm as (l & [= -> -> ->] & Hl).
    apply list_elem_of_In, elem_of_pairs_lookup in Hp as (i & j & Hij & Hi & Hj).
    apply list_elem_of_In, list_elem_of_lookup in Hl as [k Hk].
    exists i, j, k. eauto.
  - intros (i & j & k & Hij & Hi & Hj & Hk). exists (red, blue). split.
    + apply list_elem_of_In, elem_of_pairs_lookup. eauto.
    + apply in_map_iff. exists layout. split; [done|].
      apply list_elem_of_In, list_elem_of_lookup. eauto.
Qed.

Lemma NoDup_pairs {A : Type} (pool : list A) : NoDup pool -> NoDup (pairs pool).
Proof.
  induction 1 as [|x pool Hx Hnd IH]; simpl; [constructor|].
  apply NoDup_app. split; [|split; [|done]].
  - apply NoDup_fmap_2_strong; [|done]. by intros ?? _ _ [=].
  - intros [a b] (y & [= -> ->] & Hy)%list_elem_of_fmap [Ha _]%elem_of_pairs.
    done.
Qed.

Lemma NoDup_match_list ts ls :
  NoDup ts -> NoDup ls -> NoDup (match_list ts ls).
Proof.
  intros Hts%NoDup_pairs Hls. unfold match_list.
  induction Hts as [|p ps Hp Hps IH]; simpl; [constructor|].
  apply NoDup_app. split; [|split; [|done]].
  - apply (NoDup_fmap_2_strong (fun l => (p.1, p.2, l))); [|done].
    by intros ?? _ _ [=].
  - intros [[a b] l] (l' & [= -> -> ->] & _)%list_elem_of_fmap.
    rewrite list_elem_of_In, in_flat_map. intros (q & Hq & Hm).
    apply in_map_iff in Hm as (l'' & [= Ha Hb _] & _).
    apply Hp. apply list_elem_of_In in Hq.
    destruct p, q. simpl in *. by subst.
Qed.

(** X3.  With at least two distinct teams, the ids of the jobs
    [run_contest_remotely] builds are pairwise distinct exactly when the
    layouts are: a layout drawn twice gives two jobs with the same id. *)
Theorem X3_job_ids_distinct (self : ContestRunner) (jobs : list PacmanSshContest.Job) :
  NoDup (teams self) -> (2 <= length (teams self))%nat ->
  PacmanSshContest.jobs_of self = Ok jobs ->
  NoDup (map PacmanSshContest.id jobs) <-> NoDup (layouts self).
Proof.
  intros Hnd Hlen. rewrite jobs_of_ids. intros [= <-].
  rewrite map_map. simpl. rewrite map_id. split.
  - unfold match_list.
    destruct (teams self) as [|x [|y ts]]; simpl in Hlen; [lia | lia |].
    simpl. intros [H _]%NoDup_app.
    by apply (NoDup_fmap_1 (fun l => (x, y, l))) in H.
  - by apply NoDup_match_list.
Qed.

Lemma X3_job_ids_distinct_witness :
  exists jobs,
    PacmanSshContest.jobs_of demo_runner = Ok jobs
    /\ (NoDup (map PacmanSshContest.id jobs) <-> NoDup (layouts demo_runner)).
Proof.
  assert (Hnd : NoDup (teams demo_runner))
    by (apply (bool_decide_unpack _); vm_compute; exact I).
  assert (Hlen : (2 <= length (teams demo_runner))%nat) by (vm_compute; lia).
  eexists. split; [apply jobs_of_ids|].
  exact (X3_job_ids_distinct demo_runner _ Hnd Hlen (jobs_of_ids demo_runner)).
Defined.

(** ** The parser: what always holds of its result *)

Lemma field_after_nonneg line marker stop n :
  field_after line marker stop = Ok n -> 0 <= n.
Proof.
  unfold field_after.
  intros (rest & _ & (field & _ & (m & _ & [= <-])%bind_Ok)%bind_Ok)%bind_Ok.
  apply Z.abs_nonneg.
Qed.

Lemma wins_by_nonneg r b line v v' :
  wins_by_rule r b line v = Ok v' -> 0 <= score v -> 0 <= score v'.
Proof.
  unfold wins_by_rule.
  destruct (found line (lit "wins by")); [|by intros [= <-]].
  destruct (field_after _ _ _) as [n|] eqn:E; simpl; [|done].
  apply field_after_nonneg in E.
  destruct (found line (lit "Red")); [|destruct (found line (lit "Blue"))];
    by intros [= <-].
Qed.

Lemma lookup_incr_all_other ks e k : k ∉ ks -> incr_all ks e !! k = e !! k.
Proof.
  intros Hk. rewrite lookup_incr_all.
  rewrite (filter_none (eq k) ks) by (intros j Hj ->; done).
  destruct (e !! k); simpl; [f_equal; lia | done].
Qed.

Ltac summary_nil Hbug :=
  exists []; split; [apply Forall_nil_2|];
  split; [apply Forall_nil_2|];
  split; [simpl; intros; split; [done | congruence]|];
  split; [intros; unfold set_winner_loser, set_score, set_bug; simpl; lia|];
  intros ? _; unfold incr_all; simpl; by rewrite set_errors_id.

Module PacmanSshContestSummary.
Import PacmanSshContest.

Lemma marker_rules_summary r b line v self v' self' :
  marker_rules r b line v self = Ok (v', self') ->
  exists ks,
    Forall (fun k => k = r \/ k = b) ks
    /\ keys_in (errors self) ks
    /\ (bug v' = false -> ks = [] /\ bug v = false)
    /\ (0 <= score v -> 0 <= score v')
    /\ forall self2, keys_in (errors self2) ks ->
         marker_rules r b line v self2
         = Ok (v', set_errors (incr_all ks (errors self2)) self2).
Proof.
  unfold marker_rules.
  destruct (found line BLUE_RETURNED).
  { destruct (field_after _ _ _) eqn:E; simpl; [|done]. intros [= <- <-].
    apply field_after_nonneg in E. summary_nil E. }
  destruct (found line RED_RETURNED).
  { destruct (field_after _ _ _) eqn:E; simpl; [|done]. intros [= <- <-].
    apply field_after_nonneg in E. summary_nil E. }
  destruct (found line (lit "Tie Game")).
  { intros [= <- <-]. summary_nil I. }
  destruct (found line (lit "agent crashed")); [|intros [= <- <-]; summary_nil I].
  destruct (found line (lit "Red agent crashed")),
           (found line (lit "Blue agent crashed")); simpl.
  - destruct (errors_incr r self) as [self1|] eqn:E1; simpl; [|done].
    destruct (errors_incr b self1) as [self3|] eqn:E2; simpl; [|done].
    intros [= <- <-].
    apply errors_incr_effect in E1 as [Hr ->].
    apply errors_incr_effect in E2 as [Hb ->].
    change (is_Some (incr_all [r] (errors self) !! b)) in Hb.
    apply is_Some_incr_all in Hb.
    exists [r; b]. split; [by repeat constructor; auto|].
    split; [by repeat constructor|]. split; [done|]. split; [simpl; lia|].
    intros self2 [Hr2 [Hb2 _]%Forall_cons]%Forall_cons.
    rewrite (errors_incr_Ok r) by done. simpl.
    rewrite (errors_incr_Ok b) by by apply is_Some_incr_all. done.
  - destruct (errors_incr r self) as [self1|] eqn:E1; simpl; [|done].
    intros [= <- <-]. apply errors_incr_effect in E1 as [Hr ->].
    exists [r]. split; [by repeat constructor; auto|].
    split; [by repeat constructor|]. split; [done|]. split; [simpl; lia|].
    intros self2 [Hr2 _]%Forall_cons.
    rewrite (errors_incr_Ok r) by done. done.
  - destruct (errors_incr b self) as [self1|] eqn:E1; simpl; [|done].
    intros [= <- <-]. apply errors_incr_effect in E1 as [Hb ->].
    exists [b]. split; [by repeat constructor; auto|].
    split; [by repeat constructor|]. split; [done|]. split; [simpl; lia|].
    intros self2 [Hb2 _]%Forall_cons.
    rewrite (errors_incr_Ok b) by done. done.
  - intros [= <- <-]. exists []. split; [apply Forall_nil_2|].
    split; [apply Forall_nil_2|]. split; [done|]. split; [done|].
    intros ? _. unfold incr_all. simpl. by rewrite set_errors_id.
Qed.

Lemma parse_lines_summary r b lines v self v' self' :
  for_ lines (parse_line r b) (v, self) = Ok (v', self') ->
  exists ks,
    Forall (fun k => k = r \/ k = b) ks
    /\ keys_in (errors self) ks
    /\ (bug v' = false -> ks = [] /\ bug v = false)
    /\ (0 <= score v -> 0 <= score v')
    /\ forall self2, keys_in (errors self2) ks ->
         for_ lines (parse_line r b) (v, self2)
         = Ok (v', set_errors (incr_all ks (errors self2)) self2).
Proof.
  revert v self. induction lines as [|line lines IH]; intros v self; simpl.
  { intros [= <- <-]. exists []. split; [apply Forall_nil_2|].
    split; [apply Forall_nil_2|]. split; [done|]. split; [done|].
    intros ? _. unfold incr_all. simpl. by rewrite set_errors_id. }
  intros ([v1 self1] & E1 & E2)%bind_Ok.
  unfold parse_line in E1. apply bind_Ok in E1 as (v0 & Ew & Em).
  pose proof (wins_by_inv _ _ _ _ _ Ew) as [Hbug0 _].
  pose proof (wins_by_nonneg _ _ _ _ _ Ew) as Hs0.
  pose proof (marker_rules_summary _ _ _ _ _ _ _ Em)
    as (ks1 & Hn1 & Hk1 & Hb1 & Hs1 & Hrun1).
  assert (self1 = set_errors (incr_all ks1 (errors self)) self) as ->.
  { specialize (Hrun1 self Hk1). congruence. }
  apply IH in E2 as (ks2 & Hn2 & Hk2 & Hb2 & Hs2 & Hrun2).
  simpl in Hk2. apply keys_in_incr_all in Hk2.
  exists (ks1 ++ ks2). split; [by apply Forall_app|].
  split; [by apply Forall_app|]. split; [|split; [auto|]].
  - intros Hbug. destruct (Hb2 Hbug) as [-> Hbug1].
    destruct (Hb1 Hbug1) as [-> Hbug']. split; [done | congruence].
  - intros self2 [H1 H2]%Forall_app. unfold parse_line. rewrite Ew. simpl.
    rewrite (Hrun1 self2 H1). simpl.
    rewrite Hrun2 by by apply keys_in_incr_all.
    by rewrite incr_all_app.
Qed.

End PacmanSshContestSummary.

Module SshCommandsScriptSummary.
Import SshCommandsScript.

Lemma ssh_marker_rules_summary r b line v self v' self' :
  marker_rules r b line v self = Ok (v', self') ->
  exists ks,
    Forall (fun k => k = r \/ k = b) ks
    /\ keys_in (errors self) ks
    /\ (bug v' = false -> ks = [] /\ bug v = false)
    /\ (0 <= score v -> 0 <= score v')
    /\ forall self2, keys_in (errors self2) ks ->
         marker_rules r b line v self2
         = Ok (v', set_errors (incr_all ks (errors self2)) self2).
Proof.
  unfold marker_rules.
  destruct (found line BLUE_RETURNED).
  { destruct (field_after _ _ _) eqn:E; simpl; [|done]. intros [= <- <-].
    apply field_after_nonneg in E. summary_nil E. }
  destruct (found line RED_RETURNED).
  { destruct (field_after _ _ _) eqn:E; simpl; [|done]. intros [= <- <-].
    apply field_after_nonneg in E. summary_nil E. }
  destruct (found line (lit "Tie Game")).
  { intros [= <- <-]. summary_nil I. }
  destruct (found line (lit "agent crashed")); [|intros [= <- <-]; summary_nil I].
  destruct (found line (lit "Red agent crashed")),
           (found line (lit "Blue agent crashed")); simpl.
  - destruct (errors_incr r self) as [self1|] eqn:E1; simpl; [|done].
    destruct (errors_incr b self1) as [self3|] eqn:E2; simpl; [|done].
    intros [= <- <-].
    apply errors_incr_effect in E1 as [Hr ->].
    apply errors_incr_effect in E2 as [Hb ->].
    change (is_Some (incr_all [r] (errors self) !! b)) in Hb.
    apply is_Some_incr_all in Hb.
    exists [r; b]. split; [by repeat constructor; auto|].
    split; [by repeat constructor|]. split; [done|]. split; [done|].
    intros self2 [Hr2 [Hb2 _]%Forall_cons]%Forall_cons.
    rewrite (errors_incr_Ok r) by done. simpl.
    rewrite (errors_incr_Ok b) by by apply is_Some_incr_all. done.
  - destruct (errors_incr r self) as [self1|] eqn:E1; simpl; [|done].
    intros [= <- <-]. apply errors_incr_effect in E1 as [Hr ->].
    exists [r]. split; [by repeat constructor; auto|].
    split; [by repeat constructor|]. split; [done|]. split; [done|].
    intros self2 [Hr2 _]%Forall_cons.
    rewrite (errors_incr_Ok r) by done. done.
  - destruct (errors_incr b self) as [self1|] eqn:E1; simpl; [|done].
    intros [= <- <-]. apply errors_incr_effect in E1 as [Hb ->].
    exists [b]. split; [by repeat constructor; auto|].
    split; [by repeat constructor|]. split; [done|]. split; [done|].
    intros self2 [Hb2 _]%Forall_cons.
    rewrite (errors_incr_Ok b) by done. done.
  - intros [= <- <-]. exists []. split; [apply Forall_nil_2|].
    split; [apply Forall_nil_2|]. split; [done|]. split; [done|].
    intros ? _. unfold incr_all. simpl. by rewrite set_errors_id.
Qed.

Lemma ssh_parse_lines_summary r b lines v self v' self' :
  for_ lines (parse_line r b) (v, self) = Ok (v', self') ->
  exists ks,
    Forall (fun k => k = r \/ k = b) ks
    /\ keys_in (errors self) ks
    /\ (bug v' = false -> ks = [] /\ bug v = false)
    /\ (0 <= score v -> 0 <= score v')
    /\ forall self2, keys_in (errors self2) ks ->
         for_ lines (parse_line r b) (v, self2)
         = Ok (v', set_errors (incr_all ks (errors self2)) self2).
Proof.
  revert v self. induction lines as [|line lines IH]; intros v self; simpl.
  { intros [= <- <-]. exists []. split; [apply Forall_nil_2|].
    split; [apply Forall_nil_2|]. split; [done|]. split; [done|].
    intros ? _. unfold incr_all. simpl. by rewrite set_errors_id. }
  intros ([v1 self1] & E1 & E2)%bind_Ok.
  unfold parse_line in E1. apply bind_Ok in E1 as (v0 & Ew & Em).
  pose proof (wins_by_inv _ _ _ _ _ Ew) as [Hbug0 _].
  pose proof (wins_by_nonneg _ _ _ _ _ Ew) as Hs0.
  pose proof (ssh_marker_rules_summary _ _ _ _ _ _ _ Em)
    as (ks1 & Hn1 & Hk1 & Hb1 & Hs1 & Hrun1).
  assert (self1 = set_errors (incr_all ks1 (errors self)) self) as ->.
  { specialize (Hrun1 self Hk1). congruence. }
  apply IH in E2 as (ks2 & Hn2 & Hk2 & Hb2 & Hs2 & Hrun2).
  simpl in Hk2. apply keys_in_incr_all in Hk2.
  exists (ks1 ++ ks2). split; [by apply Forall_app|].
  split; [by apply Forall_app|]. split; [|split; [auto|]].
  - intros Hbug. destruct (Hb2 Hbug) as [-> Hbug1].
    destruct (Hb1 Hbug1) as [-> Hbug']. split; [done | congruence].
  - intros self2 [H1 H2]%Forall_app. unfold parse_line. rewrite Ew. simpl.
    rewrite (Hrun1 self2 H1). simpl.
    rewrite Hrun2 by by apply keys_in_incr_all.
    by rewrite incr_all_app.
Qed.

End SshCommandsScriptSummary.

Lemma keys_in_names (e : gmap string Z) r b ks :
  Forall (fun k => k = r \/ k = b) ks -> keys_in e [r; b] -> keys_in e ks.
Proof.
  intros Hn [Hr [Hb _]%Forall_cons]%Forall_cons.
  eapply Forall_impl; [exact Hn|]. by intros k [-> | ->].
Qed.

Lemma summary_counts r b self v ks :
  Forall (fun k => k = r \/ k = b) ks ->
  (bug v = false -> ks = [] /\ bug parsed0 = false) ->
  only_counts_crashes r b self v (set_errors (incr_all ks (errors self)) self).
Proof.
  intros Hn Hbug. repeat (split; [done|]). simpl.
  split; [|split; [|split]].
  - intros k Hr Hb. apply lookup_incr_all_other. intros Hk.
    rewrite Forall_forall in Hn. destruct (Hn k Hk); congruence.
  - intros k n Hk. rewrite lookup_incr_all, Hk. simpl. eexists.
    split; [done | lia].
  - intros k Hk. by rewrite lookup_incr_all, Hk.
  - intros Hb. destruct (Hbug Hb) as [-> _]. unfold incr_all. simpl.
    apply set_errors_id.
Qed.

(** X4.  The score the parser returns is never negative, in either
    script. *)
Theorem X4_score_never_negative (output : bytes) (r b : string)
    (self : ContestRunner) (v : parsed) (self' : ContestRunner) :
  (PacmanSshContest._parse_result output r b self = Ok (v, self') ->
   0 <= score v)
  /\ (SshCommandsScript._parse_result output r b self = Ok (v, self') ->
      0 <= score v).
Proof.
  split; intros E.
  - apply PacmanSshContestSummary.parse_lines_summary in E
      as (ks & _ & _ & _ & Hs & _). by apply Hs.
  - apply SshCommandsScriptSummary.ssh_parse_lines_summary in E
      as (ks & _ & _ & _ & Hs & _). by apply Hs.
Qed.

(** X5.  The parser changes nothing of the state but the crash counters
    of the two teams it was given; no counter goes down, no key is added,
    and when the result is not flagged as crashed the state is left as it
    was.  This holds in both scripts. *)
Theorem X5_parser_only_counts_crashes (output : bytes) (r b : string)
    (self : ContestRunner) (v : parsed) (self' : ContestRunner) :
  (PacmanSshContest._parse_result output r b self = Ok (v, self') ->
   only_counts_crashes r b self v self')
  /\ (SshCommandsScript._parse_result output r b self = Ok (v, self') ->
      only_counts_crashes r b self v self').
Proof.
  split; intros E.
  - unfold PacmanSshContest._parse_result in E.
    destruct (PacmanSshContestSummary.parse_lines_summary _ _ _ _ _ _ _ E)
      as (ks & Hn & Hk & Hb & _ & Hrun).
    rewrite (Hrun self Hk) in E. injection E as <-.
    by apply summary_counts.
  - unfold SshCommandsScript._parse_result in E.
    destruct (SshCommandsScriptSummary.ssh_parse_lines_summary _ _ _ _ _ _ _ E)
      as (ks & Hn & Hk & Hb & _ & Hrun).
    rewrite (Hrun self Hk) in E. injection E as <-.
    by apply summary_counts.
Qed.

(** X6.  What the parser returns for a log does not depend on the state
    it runs in: on any other state that has both team names among its
    counters it returns the same score, winner, loser and flag, and
    increments the same counters as often. *)
Theorem X6_parse_result_ignores_state (output : bytes) (r b : string)
    (self other : ContestRunner) (v : parsed) (self' : ContestRunner) :
  keys_in (errors other) [r; b] ->
  (PacmanSshContest._parse_result output r b self = Ok (v, self') ->
   exists ks other',
     PacmanSshContest._parse_result output r b other = Ok (v, other')
     /\ errors self' = incr_all ks (errors self)
     /\ errors other' = incr_all ks (errors other))
  /\ (SshCommandsScript._parse_result output r b self = Ok (v, self') ->
      exists ks other',
        SshCommandsScript._parse_result output r b other = Ok (v, other')
        /\ errors self' = incr_all ks (errors self)
        /\ errors other' = incr_all ks (errors other)).
Proof.
  intros Hko. split; intros E.
  - unfold PacmanSshContest._parse_result in *.
    destruct (PacmanSshContestSummary.parse_lines_summary _ _ _ _ _ _ _ E)
      as (ks & Hn & Hk & _ & _ & Hrun).
    rewrite (Hrun self Hk) in E. injection E as <-.
    exists ks. eexists. split; [|split; [done|]].
    + apply Hrun. by apply (keys_in_names _ r b).
    + done.
  - unfold SshCommandsScript._parse_result in *.
    destruct (SshCommandsScriptSummary.ssh_parse_lines_summary _ _ _ _ _ _ _ E)
      as (ks & Hn & Hk & _ & _ & Hrun).
    rewrite (Hrun self Hk) in E. injection E as <-.
    exists ks. eexists. split; [|split; [done|]].
    + apply Hrun. by apply (keys_in_names _ r b).
    + done.
Qed.

Lemma X6_parse_result_ignores_state_witness :
  exists ks other',
    PacmanSshContest._parse_result crash_log "A" "B" lonely_runner_AB
    = Ok (mkParsed 1 (Some "A"%string) (Some "B"%string) true, other')
    /\ errors other' = incr_all ks (errors lonely_runner_AB).
Proof.
  assert (exists self',
            PacmanSshContest._parse_result crash_log "A" "B" demo_runner
            = Ok (mkParsed 1 (Some "A"%string) (Some "B"%string) true, self'))
    as [self' E] by (eexists; vm_compute; reflexivity).
  destruct (proj1 (X6_parse_result_ignores_state crash_log "A" "B" demo_runner
                     lonely_runner_AB _ self' ltac:(eval_keys)) E)
    as (ks & other' & E' & _ & He).
  exists ks, other'. split; [exact E' | exact He].
Defined.

(** ** A crash line that names a team without a counter *)

Lemma errors_incr_raises k self e :
  errors_incr k self = Raise e -> e = KeyError /\ errors self !! k = None.
Proof.
  unfold errors_incr. destruct (errors self !! k); [done|]. by intros [= <-].
Qed.

Lemma errors_incr_missing k self :
  errors self !! k = None -> errors_incr k self = Raise KeyError.
Proof. unfold errors_incr. by intros ->. Qed.

Lemma errors_incr_keeps_missing k k' self self' :
  errors_incr k self = Ok self' -> errors self !! k' = None ->
  errors self' !! k' = None.
Proof.
  intros [_ ->]%errors_incr_effect Hk. simpl. by rewrite lookup_incr_all, Hk.
Qed.

Lemma for_raises_at {A S : Type} (body : A -> S -> result S) (Inv : S -> Prop)
    (xs : list A) (x : A) (e : exn) (s : S) :
  (forall y s s', y ∈ xs -> Inv s -> body y s = Ok s' -> Inv s') ->
  (forall y s e', y ∈ xs -> body y s = Raise e' -> e' = e) ->
  (forall s, Inv s -> body x s = Raise e) ->
  x ∈ xs -> Inv s -> for_ xs body s = Raise e.
Proof.
  intros Hinv Hexn Hx. revert s.
  induction xs as [|y xs IH]; intros s Hin Hs; [by apply elem_of_nil in Hin|].
  simpl. destruct (body y s) as [s'|e'] eqn:E; simpl.
  - apply elem_of_cons in Hin as [<- | Hin].
    + rewrite (Hx s Hs) in E. done.
    + apply IH; [| |done|].
      * intros ????. apply Hinv. by right.
      * intros ????. eapply Hexn. by right.
      * eapply Hinv; [|exact Hs|exact E]. by left.
  - f_equal. eapply Hexn; [|exact E]. by left.
Qed.

(** The counters a team lacks. *)
Lemma wins_by_well_formed r b line v :
  well_formed line -> exists v', wins_by_rule r b line v = Ok v'.
Proof. intros [Hw _]. by apply wins_by_total. Qed.

Module PacmanSshContestRaises.
Import PacmanSshContest.

Lemma marker_rules_raises r b line v self e :
  well_formed line -> marker_rules r b line v self = Raise e -> e = KeyError.
Proof.
  intros (_ & Hb & Hr). unfold marker_rules.
  destruct (found line BLUE_RETURNED) eqn:Fb.
  { destruct (Hb eq_refl) as [n ->]. done. }
  destruct (found line RED_RETURNED) eqn:Fr.
  { destruct (Hr eq_refl eq_refl) as [n ->]. done. }
  destruct (found line (lit "Tie Game")); [done|].
  destruct (found line (lit "agent crashed")); [|done].
  destruct (found line (lit "Red agent crashed")),
           (found line (lit "Blue agent crashed")); simpl; try done.
  - destruct (errors_incr r self) as [self1|e1] eqn:E1; simpl.
    + destruct (errors_incr b self1) as [self2|e2] eqn:E2; simpl; [done|].
      intros [= <-]. by apply errors_incr_raises in E2 as [-> _].
    + intros [= <-]. by apply errors_incr_raises in E1 as [-> _].
  - destruct (errors_incr r self) as [self1|e1] eqn:E1; simpl; [done|].
    intros [= <-]. by apply errors_incr_raises in E1 as [-> _].
  - destruct (errors_incr b self) as [self1|e1] eqn:E1; simpl; [done|].
    intros [= <-]. by apply errors_incr_raises in E1 as [-> _].
Qed.

Lemma parse_line_raises r b line st e :
  well_formed line -> parse_line r b line st = Raise e -> e = KeyError.
Proof.
  destruct st as [v self]. intros Hwf. unfold parse_line.
  destruct (wins_by_well_formed r b line v Hwf) as [v' ->]. simpl.
  by apply marker_rules_raises.
Qed.

Lemma parse_line_keeps_missing r b line st st' k :
  parse_line r b line st = Ok st' -> errors st.2 !! k = None ->
  errors st'.2 !! k = None.
Proof.
  destruct st as [v self], st' as [v' self']. unfold parse_line.
  intros (v0 & _ & Em)%bind_Ok Hk. simpl in *.
  destruct (PacmanSshContestSummary.marker_rules_summary _ _ _ _ _ _ _ Em)
    as (ks & _ & Hks & _ & _ & Hrun).
  rewrite (Hrun self Hks) in Em. injection Em as <-. simpl.
  by rewrite lookup_incr_all, Hk.
Qed.

Lemma parse_line_unknown_red r b line st :
  well_formed line -> reaches_crash_test line ->
  found line (lit "Red agent crashed") = true ->
  errors st.2 !! r = None ->
  parse_line r b line st = Raise KeyError.
Proof.
  destruct st as [v self]. intros Hwf (Fb & Fr & Ft) Hc Hk. simpl in Hk.
  unfold parse_line.
  destruct (wins_by_well_formed r b line v Hwf) as [v' ->]. simpl.
  unfold marker_rules.
  rewrite Fb, Fr, Ft, (red_crashed_crashed _ Hc), Hc.
  by rewrite (errors_incr_missing _ _ Hk).
Qed.

Lemma parse_line_unknown_blue r b line st :
  well_formed line -> reaches_crash_test line ->
  found line (lit "Blue agent crashed") = true ->
  errors st.2 !! b = None ->
  parse_line r b line st = Raise KeyError.
Proof.
  destruct st as [v self]. intros Hwf (Fb & Fr & Ft) Hc Hk. simpl in Hk.
  unfold parse_line.
  destruct (wins_by_well_formed r b line v Hwf) as [v' ->]. simpl.
  unfold marker_rules.
  rewrite Fb, Fr, Ft, (blue_crashed_crashed _ Hc), Hc.
  destruct (found line (lit "Red agent crashed")); simpl.
  - destruct (errors_incr r self) as [self1|e1] eqn:E1; simpl.
    + by rewrite (errors_incr_missing b self1
                    (errors_incr_keeps_missing _ _ _ _ E1 Hk)).
    + by apply errors_incr_raises in E1 as [-> _].
  - by rewrite (errors_incr_missing _ _ Hk).
Qed.

End PacmanSshContestRaises.

Module SshCommandsScriptRaises.
Import SshCommandsScript.

Lemma ssh_marker_rules_raises r b line v self e :
  well_formed line -> marker_rules r b line v self = Raise e -> e = KeyError.
Proof.
  intros (_ & Hb & Hr). unfold marker_rules.
  destruct (found line BLUE_RETURNED) eqn:Fb.
  { destruct (Hb eq_refl) as [n ->]. done. }
  destruct (found line RED_RETURNED) eqn:Fr.
  { destruct (Hr eq_refl eq_refl) as [n ->]. done. }
  destruct (found line (lit "Tie Game")); [done|].
  destruct (found line (lit "agent crashed")); [|done].
  destruct (found line (lit "Red agent crashed")),
           (found line (lit "Blue agent crashed")); simpl; try done.
  - destruct (errors_incr r self) as [self1|e1] eqn:E1; simpl.
    + destruct (errors_incr b self1) as [self2|e2] eqn:E2; simpl; [done|].
      intros [= <-]. by apply errors_incr_raises in E2 as [-> _].
    + intros [= <-]. by apply errors_incr_raises in E1 as [-> _].
  - destruct (errors_incr r self) as [self1|e1] eqn:E1; simpl; [done|].
    intros [= <-]. by apply errors_incr_raises in E1 as [-> _].
  - destruct (errors_incr b self) as [self1|e1] eqn:E1; simpl; [done|].
    intros [= <-]. by apply errors_incr_raises in E1 as [-> _].
Qed.

Lemma ssh_parse_line_raises r b line st e :
  well_formed line -> parse_line r b line st = Raise e -> e = KeyError.
Proof.
  destruct st as [v self]. intros Hwf. unfold parse_line.
  destruct (wins_by_well_formed r b line v Hwf) as [v' ->]. simpl.
  by apply ssh_marker_rules_raises.
Qed.

Lemma ssh_parse_line_keeps_missing r b line st st' k :
  parse_line r b line st = Ok st' -> errors st.2 !! k = None ->
  errors st'.2 !! k = None.
Proof.
  destruct st as [v self], st' as [v' self']. unfold parse_line.
  intros (v0 & _ & Em)%bind_Ok Hk. simpl in *.
  destruct (SshCommandsScriptSummary.ssh_marker_rules_summary _ _ _ _ _ _ _ Em)
    as (ks & _ & Hks & _ & _ & Hrun).
  rewrite (Hrun self Hks) in Em. injection Em as <-. simpl.
  by rewrite lookup_incr_all, Hk.
Qed.

Lemma ssh_parse_line_unknown_red r b line st :
  well_formed line -> reaches_crash_test line ->
  found line (lit "Red agent crashed") = true ->
  errors st.2 !! r = None ->
  parse_line r b line st = Raise KeyError.
Proof.
  destruct st as [v self]. intros Hwf (Fb & Fr & Ft) Hc Hk. simpl in Hk.
  unfold parse_line.
  destruct (wins_by_well_formed r b line v Hwf) as [v' ->]. simpl.
  unfold marker_rules.
  rewrite Fb, Fr, Ft, (red_crashed_crashed _ Hc), Hc.
  by rewrite (errors_incr_missing _ _ Hk).
Qed.

Lemma ssh_parse_line_unknown_blue r b line st :
  well_formed line -> reaches_crash_test line ->
  found line (lit "Blue agent crashed") = true ->
  errors st.2 !! b = None ->
  parse_line r b line st = Raise KeyError.
Proof.
  destruct st as [v self]. intros Hwf (Fb & Fr & Ft) Hc Hk. simpl in Hk.
  unfold parse_line.
  destruct (wins_by_well_formed r b line v Hwf) as [v' ->]. simpl.
  unfold marker_rules.
  rewrite Fb, Fr, Ft, (blue_crashed_crashed _ Hc), Hc.
  destruct (found line (lit "Red agent crashed")); simpl.
  - destruct (errors_incr r self) as [self1|e1] eqn:E1; simpl.
    + by rewrite (errors_incr_missing b self1
                    (errors_incr_keeps_missing _ _ _ _ E1 Hk)).
    + by apply errors_incr_raises in E1 as [-> _].
  - by rewrite (errors_incr_missing _ _ Hk).
Qed.

End SshCommandsScriptRaises.

(** X7.  In a log whose numbers all read well, a line that gets as far as
    the crash test and says that the Red (or the Blue) agent crashed makes
    the parser of either script raise [KeyError] when that team has no
    entry in [self.errors]. *)
Theorem X7_crash_of_unknown_team (output line : bytes) (r b : string)
    (self : ContestRunner) :
  Forall well_formed (splitlines output) ->
  line ∈ splitlines output ->
  reaches_crash_test line ->
  (found line (lit "Red agent crashed") = true /\ errors self !! r = None)
  \/ (found line (lit "Blue agent crashed") = true /\ errors self !! b = None) ->
  PacmanSshContest._parse_result output r b self = Raise KeyError
  /\ SshCommandsScript._parse_result output r b self = Raise KeyError.
Proof.
  intros Hwf Hin Hreach Hcrash. rewrite Forall_forall in Hwf.
  destruct Hcrash as [[Hc Hk] | [Hc Hk]]; split.
  - apply (for_raises_at _ (fun st => errors st.2 !! r = None) _ line);
      [| | |done|done].
    + intros y s s' _ Hs E.
      by apply (PacmanSshContestRaises.parse_line_keeps_missing _ _ _ _ _ _ E).
    + intros y s e' Hy E.
      by apply (PacmanSshContestRaises.parse_line_raises _ _ _ _ _ (Hwf y Hy) E).
    + intros s Hs.
      by apply PacmanSshContestRaises.parse_line_unknown_red; [apply Hwf|..].
  - apply (for_raises_at _ (fun st => errors st.2 !! r = None) _ line);
      [| | |done|done].
    + intros y s s' _ Hs E.
      by apply (SshCommandsScriptRaises.ssh_parse_line_keeps_missing _ _ _ _ _ _ E).
    + intros y s e' Hy E.
      by apply (SshCommandsScriptRaises.ssh_parse_line_raises _ _ _ _ _ (Hwf y Hy) E).
    + intros s Hs.
      by apply SshCommandsScriptRaises.ssh_parse_line_unknown_red; [apply Hwf|..].
  - apply (for_raises_at _ (fun st => errors st.2 !! b = None) _ line);
      [| | |done|done].
    + intros y s s' _ Hs E.
      by apply (PacmanSshContestRaises.parse_line_keeps_missing _ _ _ _ _ _ E).
    + intros y s e' Hy E.
      by apply (PacmanSshContestRaises.parse_line_raises _ _ _ _ _ (Hwf y Hy) E).
    + intros s Hs.
      by apply PacmanSshContestRaises.parse_line_unknown_blue; [apply Hwf|..].
  - apply (for_raises_at _ (fun st => errors st.2 !! b = None) _ line);
      [| | |done|done].
    + intros y s s' _ Hs E.
      by apply (SshCommandsScriptRaises.ssh_parse_line_keeps_missing _ _ _ _ _ _ E).
    + intros y s e' Hy E.
      by apply (SshCommandsScriptRaises.ssh_parse_line_raises _ _ _ _ _ (Hwf y Hy) E).
    + intros s Hs.
      by apply SshCommandsScriptRaises.ssh_parse_line_unknown_blue; [apply Hwf|..].
Qed.

Lemma X7_crash_of_unknown_team_witness :
  PacmanSshContest._parse_result crash_log "A" "B" lonely_runner = Raise KeyError
  /\ SshCommandsScript._parse_result crash_log "A" "B" lonely_runner
     = Raise KeyError.
Proof.
  apply (X7_crash_of_unknown_team crash_log (lit "Blue agent crashed")).
  - replace (splitlines crash_log)
      with [lit "Red wins by 5 points"; lit "Blue agent crashed"; lit "Game over"]
      by (vm_compute; reflexivity).
    repeat (apply Forall_cons; split; [eval_well_formed|]).
    apply Forall_nil_2.
  - replace (splitlines crash_log)
      with [lit "Red wins by 5 points"; lit "Blue agent crashed"; lit "Game over"]
      by (vm_compute; reflexivity).
    apply list_elem_of_lookup. by exists 1%nat.
  - repeat split; vm_compute; reflexivity.
  - right. split; vm_compute; reflexivity.
Defined.

(** ** Where the score rules read their number *)

(** X8.  On a line [before ++ "wins by" ++ num ++ "points" ++ after] whose
    first [wins by] is the one shown, with [num] an integer literal of
    value [n] (blanks around it and a sign allowed), the [wins by] rule
    returns normally and sets the score to the absolute value of [n]; the
    crash flag is left alone. *)
Theorem X8_wins_by_number (before num after : bytes) (n : Z) (r b : string)
    (v : parsed) :
  found (before ++ lit "wins b") (lit "wins by") = false ->
  int num = Ok n ->
  exists v',
    wins_by_rule r b (before ++ lit "wins by" ++ num ++ lit "points" ++ after) v
    = Ok v'
    /\ score v' = Z.abs n /\ bug v' = bug v.
Proof.
  intros Hfirst Hnum.
  pose proof (wins_by_field before num after n Hfirst Hnum) as Hf.
  unfold wins_by_rule.
  assert (found (before ++ lit "wins by" ++ num ++ lit "points" ++ after)
                (lit "wins by") = true) as ->.
  { apply found_iff. by eexists _, _. }
  rewrite Hf. simpl.
  destruct (found _ (lit "Red")); [by eexists|].
  destruct (found _ (lit "Blue")); by eexists.
Qed.

Lemma X8_wins_by_number_witness :
  exists v',
    wins_by_rule "A" "B"
      (lit "Red team " ++ lit "wins by" ++ lit "  -12 " ++ lit "points"
         ++ lit ".") parsed0 = Ok v'
    /\ score v' = Z.abs (-12) /\ bug v' = bug parsed0.
Proof.
  apply (X8_wins_by_number (lit "Red team ") (lit "  -12 ") (lit ".") (-12)).
  - vm_compute; reflexivity.
  - vm_compute; reflexivity.
Defined.

(** X9.  On a line [before ++ marker ++ num ++ " " ++ after], where
    [marker] is the [has returned at least] text of one colour and occurs
    first where shown, and [num] is an integer literal of value [n]
    without a space in it, the [elif] chain of either script returns the
    score [abs n] with that colour's team as winner and the other as
    loser, and leaves the state and the crash flag alone.  For the Red
    marker the line must not hold the Blue one, which is tested first. *)
Theorem X9_returned_number (blue : bool) (before num after : bytes) (n : Z)
    (r b : string) (v : parsed) (self : ContestRunner) :
  let line := before ++ returned_marker blue ++ num ++ lit " " ++ after in
  found (before ++ removelast (returned_marker blue)) (returned_marker blue)
  = false ->
  (blue = false -> found line BLUE_RETURNED = false) ->
  Forall (fun c => c ≠ " "%char) num ->
  int num = Ok n ->
  let v' := mkParsed (Z.abs n)
              (Some (if blue then b else r)) (Some (if blue then r else b))
              (bug v) in
  PacmanSshContest.marker_rules r b line v self = Ok (v', self)
  /\ SshCommandsScript.marker_rules r b line v self = Ok (v', self).
Proof.
  intros line Hfirst Hred Hsp Hnum v'.
  assert (found line (returned_marker blue) = true) as Hfound.
  { apply found_iff. by eexists _, _. }
  assert (field_after line (returned_marker blue) (lit " ") = Ok (Z.abs n))
    as Hf.
  { destruct blue.
    - apply (returned_field (lit "Blue") before num after n); auto.
    - apply (returned_field (lit "Red") before num after n); auto. }
  unfold PacmanSshContest.marker_rules, SshCommandsScript.marker_rules.
  destruct blue; simpl in Hfound, Hf.
  - rewrite Hfound, Hf. done.
  - rewrite (Hred eq_refl), Hfound, Hf. done.
Qed.

Lemma X9_returned_number_witness :
  let line := lit "" ++ returned_marker false ++ lit "-18" ++ lit " "
                ++ lit "of the dots." in
  let v' := mkParsed (Z.abs (-18)) (Some "A"%string) (Some "B"%string)
              (bug parsed0) in
  PacmanSshContest.marker_rules "A" "B" line parsed0 demo_runner
  = Ok (v', demo_runner)
  /\ SshCommandsScript.marker_rules "A" "B" line parsed0 demo_runner
     = Ok (v', demo_runner).
Proof.
  apply (X9_returned_number false (lit "") (lit "-18") (lit "of the dots.")
           (-18) "A" "B" parsed0 demo_runner).
  - vm_compute; reflexivity.
  - intros _. vm_compute; reflexivity.
  - repeat (apply Forall_cons; split; [discriminate|]). apply Forall_nil_2.
  - vm_compute; reflexivity.
Defined.

(** ** The rows of [_calculate_team_stats] *)

Lemma tally_counts scores wins draws loses sum_score :
  tally scores wins draws loses sum_score
  = (wins + wins_in scores, draws + draws_in scores, loses + loses_in scores,
     sum_score + balance scores).
Proof.
  unfold wins_in, draws_in, loses_in, balance.
  revert wins draws loses sum_score.
  induction scores as [|s scores IH]; intros wins draws loses sum_score.
  - simpl. by rewrite !Z.add_0_r.
  - cbn [tally List.filter foldr].
    destruct (0 <? s) eqn:Hp; [|destruct (s =? 0) eqn:Hz]; rewrite IH.
    + assert ((s =? 0) = false) as -> by lia.
      assert ((s <? 0) = false) as -> by lia.
      cbn [length]. repeat apply (f_equal2 pair); lia.
    + assert ((s <? 0) = false) as -> by lia.
      cbn [length]. repeat apply (f_equal2 pair); lia.
    + assert ((s <? 0) = true) as -> by lia.
      cbn [length]. repeat apply (f_equal2 pair); lia.
Qed.

Lemma columns_add_up scores :
  wins_in scores + draws_in scores + loses_in scores
  = Z.of_nat (length scores).
Proof.
  unfold wins_in, draws_in, loses_in.
  induction scores as [|s scores IH]; [done|]. simpl.
  destruct (Z.ltb 0 s) eqn:Hp; destruct (Z.eqb s 0) eqn:Hz;
    destruct (Z.ltb s 0) eqn:Hn; simpl length; lia.
Qed.

Lemma row_columns scores e :
  row scores e
  = Row (wins_in scores * 3 + draws_in scores) (wins_in scores)
        (draws_in scores) (loses_in scores) e (balance scores).
Proof. unfold row. by rewrite tally_counts. Qed.

Lemma team_stats_round_raises item self e :
  team_stats_round item self = Raise e -> e = KeyError.
Proof.
  destruct item as [k scores]. unfold team_stats_round.
  destruct (tally _ _ _ _ _) as [[[??]?]?].
  destruct (errors self !! k); [done|]. by intros [= <-].
Qed.

Lemma team_stats_round_frame item self self' :
  team_stats_round item self = Ok self' ->
  teams self' = teams self /\ layouts self' = layouts self
  /\ ladder self' = ladder self /\ games self' = games self
  /\ errors self' = errors self.
Proof.
  destruct item as [k scores]. unfold team_stats_round.
  destruct (tally _ _ _ _ _) as [[[??]?]?].
  destruct (errors self !! k); [|done]. by intros [= <-].
Qed.

Lemma rounds_frame items self self' :
  for_ items team_stats_round self = Ok self' ->
  teams self' = teams self /\ layouts self' = layouts self
  /\ ladder self' = ladder self /\ games self' = games self
  /\ errors self' = errors self.
Proof.
  revert self. induction items as [|item items IH]; intros self; simpl.
  - by intros [= <-].
  - intros (self1 & E1 & E2)%bind_Ok.
    apply IH in E2 as (-> & -> & -> & -> & ->).
    by apply team_stats_round_frame in E1.
Qed.

(** X10.  When [_calculate_team_stats] returns, every team of the ladder
    has the row [points, wins, draws, loses, errors, sum_score] in which
    wins, draws and loses count the positive, zero and negative entries of
    its ladder (so they add up to the number of entries), points are three
    per win and one per draw, errors is the team's crash counter and
    sum_score the sum of the entries; the other entries of
    [self.team_stats] and the rest of the state are as before. *)
Theorem X10_team_stats_rows (self self' : ContestRunner) :
  _calculate_team_stats self = Ok self' ->
  (teams self' = teams self /\ layouts self' = layouts self
   /\ ladder self' = ladder self /\ games self' = games self
   /\ errors self' = errors self)
  /\ forall k,
       match ladder self !! k with
       | Some scores =>
           exists e,
             errors self !! k = Some e
             /\ team_stats self' !! k
                = Some (Row (wins_in scores * 3 + draws_in scores)
                            (wins_in scores) (draws_in scores)
                            (loses_in scores) e (balance scores))
             /\ wins_in scores + draws_in scores + loses_in scores
                = Z.of_nat (length scores)
       | None => team_stats self' !! k = team_stats self !! k
       end.
Proof.
  intros E. split; [by apply rounds_frame in E|].
  pose proof (calculate_team_stats_inv _ _ E) as Hk.
  destruct (calculate_team_stats_spec self Hk) as (t & E' & Ht).
  rewrite E' in E. injection E as <-. intros k. specialize (Ht k).
  destruct (ladder self !! k) as [scores|] eqn:El; [|done].
  destruct (Hk k) as [e He]; [by rewrite El|]. exists e.
  split; [done|]. split; [|apply columns_add_up].
  simpl. rewrite Ht, He. simpl. by rewrite row_columns.
Qed.

Lemma X10_team_stats_rows_witness :
  exists self',
    _calculate_team_stats played_runner = Ok self'
    /\ team_stats self' !! "A"%string = Some (Row 4 1 1 1 2 3).
Proof.
  assert (exists self', _calculate_team_stats played_runner = Ok self')
    as [self' E] by (eexists; vm_compute; reflexivity).
  exists self'. split; [exact E|].
  pose proof (proj2 (X10_team_stats_rows played_runner self' E) "A"%string)
    as H.
  replace (ladder played_runner !! "A"%string) with (Some [5; 0; -2]) in H
    by (vm_compute; reflexivity).
  destruct H as (e & He & Hrow & _).
  replace (errors played_runner !! "A"%string) with (Some 2) in He
    by (vm_compute; reflexivity).
  injection He as <-. exact Hrow.
Defined.

(** X11.  [_calculate_team_stats] is idempotent: run on the state it
    returned, it returns that state again. *)
Theorem X11_team_stats_idempotent (self self' : ContestRunner) :
  _calculate_team_stats self = Ok self' ->
  _calculate_team_stats self' = Ok self'.
Proof.
  intros E.
  pose proof (calculate_team_stats_inv _ _ E) as Hk.
  destruct (calculate_team_stats_spec self Hk) as (t & E' & Ht).
  rewrite E' in E. injection E as <-.
  destruct (calculate_team_stats_spec (set_team_stats t self) Hk)
    as (t' & -> & Ht').
  assert (t' = t) as ->.
  { apply map_eq. intros k. rewrite Ht'. simpl.
    destruct (ladder self !! k) eqn:El; [|done]. by rewrite (Ht k), El. }
  done.
Qed.

Lemma X11_team_stats_idempotent_witness :
  exists self',
    _calculate_team_stats played_runner = Ok self'
    /\ _calculate_team_stats self' = Ok self'.
Proof.
  assert (exists self', _calculate_team_stats played_runner = Ok self')
    as [self' E] by (eexists; vm_compute; reflexivity).
  exists self'. split; [exact E|].
  exact (X11_team_stats_idempotent played_runner self' E).
Defined.

(** X12.  [_calculate_team_stats] returns exactly when every team of the
    ladder has a crash counter; a ladder key missing from [self.errors]
    makes it raise [KeyError]. *)
Theorem X12_team_stats_missing_counter (self : ContestRunner) :
  ((forall k, is_Some (ladder self !! k) -> is_Some (errors self !! k)) ->
   exists self', _calculate_team_stats self = Ok self')
  /\ (forall k, is_Some (ladder self !! k) -> errors self !! k = None ->
      _calculate_team_stats self = Raise KeyError).
Proof.
  split.
  - intros Hk. destruct (calculate_team_stats_spec self Hk) as (t & E & _).
    eauto.
  - intros k [scores Hl] He. unfold _calculate_team_stats.
    apply (for_raises_at _ (fun s => errors s !! k = None) _ (k, scores)).
    + intros y s s' _ Hs E. apply team_stats_round_frame in E
        as (_ & _ & _ & _ & ->). done.
    + intros y s e' _ E. by apply team_stats_round_raises in E.
    + intros s Hs. unfold team_stats_round.
      destruct (tally _ _ _ _ _) as [[[??]?]?]. by rewrite Hs.
    + by apply elem_of_map_to_list.
    + done.
Qed.

(** ** What a batch of results leaves in the state *)

Lemma analyse_result_step res self self' :
  PacmanSshContest.analyse_result res self = Ok self' ->
  exists ks v,
    names_agree res.1.1.1.1.1.1 res.1.1.1.1.2.1 v
    /\ keys_in (errors self) ks
    /\ keys_in (ladder self)
         (ladder_entries res.1.1.1.1.1.1 res.1.1.1.1.2.1 v).*1
    /\ self' = apply_outcome ks
                 (ladder_entries res.1.1.1.1.1.1 res.1.1.1.1.2.1 v)
                 (res.1.1.1.1.1.1, res.1.1.1.1.2.1, res.1.1.1.2,
                  shown_score v, winner v) self.
Proof.
  destruct res as [[[[[[r rf] [b bf]] layout] ec] output] error].
  unfold PacmanSshContest.analyse_result. cbn [fst snd]. intros E.
  destruct (AnalyseOutput.analyse_output_inv r rf b bf layout ec _ _ _ E)
    as (v & self1 & Ep & Hl).
  destruct (AnalyseOutput.analyse_output_of_parsed r rf b bf layout ec _ _ _ _ Ep)
    as (ks & Hks & Ha & _ & Hrun).
  exists ks, v. split; [done|]. split; [done|]. split; [done|].
  rewrite (Hrun self Hks Hl) in E. by injection E as <-.
Qed.

Lemma count_ladder_entries r b v k :
  names_agree r b v ->
  length (filter (fun kx : string * Z => k = kx.1) (ladder_entries r b v))
  = (length (filter (fun x : string => x = k) [r])
     + length (filter (fun x : string => x = k) [b]))%nat.
Proof.
  unfold ladder_entries.
  intros [[Hw Hl]|[[Hw Hl]|[Hw Hl]]]; rewrite Hw, ?Hl;
    rewrite !filter_cons, !filter_nil; simpl;
    repeat case_decide; simpl; congruence.
Qed.

(** X13.  When [_analyse_all_outputs] returns, [self.games] has grown by
    one record per job result, in the order of the results and with the
    team names and the layout of each; the ladder of every team has grown
    by one entry for each result the team plays in, as red or as blue,
    crashed or not; no key was added to the ladder or to the counters, and
    teams, layouts and team statistics are untouched. *)
Theorem X13_one_entry_per_game (results : list job_result)
    (self self' : ContestRunner) :
  PacmanSshContest._analyse_all_outputs results self = Ok self' ->
  teams self' = teams self /\ layouts self' = layouts self
  /\ team_stats self' = team_stats self
  /\ (exists gs, games self' = games self ++ gs /\ Forall2 records results gs)
  /\ (forall k, is_Some (errors self' !! k) <-> is_Some (errors self !! k))
  /\ forall k,
       match ladder self !! k with
       | Some scores =>
           exists more,
             ladder self' !! k = Some (scores ++ more)
             /\ length more = games_played k results
       | None => ladder self' !! k = None
       end.
Proof.
  unfold PacmanSshContest._analyse_all_outputs.
  revert self. induction results as [|res results IH]; intros self.
  - simpl. intros [= <-]. repeat (split; [done|]).
    split; [exists []; by rewrite app_nil_r|]. split; [done|].
    intros k. destruct (ladder self !! k) as [scores|]; [|done].
    exists []. by rewrite app_nil_r.
  - simpl. intros (self1 & E1 & E2)%bind_Ok.
    apply IH in E2 as (-> & -> & -> & (gs & -> & Hgs) & He & Hl).
    apply analyse_result_step in E1 as (ks & v & Ha & _ & _ & ->).
    repeat (split; [done|]). split; [|split].
    + eexists (_ :: gs). split.
      * simpl. by rewrite <- app_assoc.
      * by constructor.
    + intros k. rewrite He. simpl. apply is_Some_incr_all.
    + intros k. specialize (Hl k). simpl in Hl.
      rewrite lookup_append_all in Hl.
      destruct (ladder self !! k) as [scores|]; simpl in Hl; [|done].
      destruct Hl as (more & -> & Hmore). eexists. split.
      * by rewrite <- app_assoc.
      * rewrite length_app, length_map, Hmore, (count_ladder_entries _ _ _ _ Ha).
        unfold games_played. rewrite !filter_cons, !filter_nil.
        repeat case_decide; simpl; lia.
Qed.

Lemma X13_one_entry_per_game_witness :
  exists self',
    PacmanSshContest._analyse_all_outputs demo_results demo_runner = Ok self'
    /\ exists more,
         ladder self' !! "A"%string = Some ([] ++ more)
         /\ length more = games_played "A" demo_results.
Proof.
  assert (exists self',
            PacmanSshContest._analyse_all_outputs demo_results demo_runner
            = Ok self') as [self' E] by (eexists; vm_compute; reflexivity).
  exists self'. split; [exact E|].
  pose proof (proj2 (proj2 (proj2 (proj2 (proj2
                (X13_one_entry_per_game demo_results demo_runner self' E)))))
                "A"%string) as H.
  replace (ladder demo_runner !! "A"%string) with (Some (@nil Z)) in H
    by (vm_compute; reflexivity).
  exact H.
Defined.

(** ** The two scripts and the two drivers compared *)

Lemma marker_rules_agree r b line v self :
  found line (lit "agent crashed") = false ->
  SshCommandsScript.marker_rules r b line v self
  = PacmanSshContest.marker_rules r b line v self.
Proof.
  intros H. unfold SshCommandsScript.marker_rules, PacmanSshContest.marker_rules.
  by rewrite H.
Qed.

Lemma marker_rules_no_crash r b line v self v' self' :
  found line (lit "agent crashed") = false ->
  PacmanSshContest.marker_rules r b line v self = Ok (v', self') ->
  bug v' = bug v /\ self' = self.
Proof.
  intros H. unfold PacmanSshContest.marker_rules. rewrite H.
  destruct (found line BLUE_RETURNED).
  { destruct (field_after _ _ _); simpl; [|done]. by intros [= <- <-]. }
  destruct (found line RED_RETURNED).
  { destruct (field_after _ _ _); simpl; [|done]. by intros [= <- <-]. }
  destruct (found line (lit "Tie Game")); by intros [= <- <-].
Qed.

Lemma parse_lines_agree r b lines st :
  Forall (fun line => found line (lit "agent crashed") = false) lines ->
  for_ lines (SshCommandsScript.parse_line r b) st
  = for_ lines (PacmanSshContest.parse_line r b) st.
Proof.
  intros H. revert st. induction H as [|line lines Hl _ IH]; intros st; [done|].
  simpl. assert (SshCommandsScript.parse_line r b line st
                 = PacmanSshContest.parse_line r b line st) as ->.
  { destruct st as [v self].
    unfold SshCommandsScript.parse_line, PacmanSshContest.parse_line.
    destruct (wins_by_rule r b line v); simpl; [|done].
    by apply marker_rules_agree. }
  destruct (PacmanSshContest.parse_line r b line st); simpl; [apply IH | done].
Qed.

Lemma parse_lines_no_crash r b lines v self v' self' :
  Forall (fun line => found line (lit "agent crashed") = false) lines ->
  for_ lines (PacmanSshContest.parse_line r b) (v, self) = Ok (v', self') ->
  bug v' = bug v /\ self' = self.
Proof.
  intros H. revert v self.
  induction H as [|line lines Hl _ IH]; intros v self; simpl.
  - by intros [= <- <-].
  - intros ([v1 self1] & E1 & E2)%bind_Ok.
    apply IH in E2 as [-> ->].
    unfold PacmanSshContest.parse_line in E1.
    apply bind_Ok in E1 as (v0 & Ew & Em).
    apply wins_by_inv in Ew as [<- _].
    by apply marker_rules_no_crash in Em.
Qed.

(** X14.  On a log none of whose lines contains [agent crashed] the two
    scripts do the same: [_run_match] of [ssh_commands_script.py], once
    the game has run, and [_analyse_output] of [pacman-ssh-contest.py] end
    in the same state or raise the same exception; and when they return,
    all they changed is the ladder and the list of games. *)
Theorem X14_scripts_agree_without_crash (red_team blue_team : team)
    (layout : string) (exit_code : Z) (output : bytes) (self : ContestRunner) :
  Forall (fun line => found line (lit "agent crashed") = false)
         (splitlines output) ->
  SshCommandsScript.record_match red_team blue_team layout output self
  = PacmanSshContest._analyse_output red_team blue_team layout exit_code
      output self
  /\ forall self',
       PacmanSshContest._analyse_output red_team blue_team layout exit_code
         output self = Ok self' ->
       errors self' = errors self /\ team_stats self' = team_stats self
       /\ teams self' = teams self /\ layouts self' = layouts self.
Proof.
  intros H. destruct red_team as [r rf], blue_team as [b bf].
  unfold SshCommandsScript.record_match, PacmanSshContest._analyse_output,
    SshCommandsScript._parse_result, PacmanSshContest._parse_result.
  rewrite (parse_lines_agree r b _ _ H).
  destruct (for_ (splitlines output) (PacmanSshContest.parse_line r b)
              (parsed0, self)) as [[v self1]|e] eqn:E; simpl; [|done].
  apply (parse_lines_no_crash _ _ _ _ _ _ _ H) in E as [Hb ->].
  simpl in Hb. rewrite Hb. simpl. split; [done|].
  intros self'.
  destruct (match winner v with Some _ => _ | None => _ end)
    as [self2|] eqn:E2; simpl; [|done].
  intros [= <-]. simpl.
  assert (errors self2 = errors self /\ team_stats self2 = team_stats self
          /\ teams self2 = teams self /\ layouts self2 = layouts self)
    as (-> & -> & -> & ->); [|done].
  assert (forall k x s s', ladder_append k x s = Ok s' ->
            errors s' = errors s /\ team_stats s' = team_stats s
            /\ teams s' = teams s /\ layouts s' = layouts s) as Hstep.
  { intros k x s s'. unfold ladder_append.
    destruct (ladder s !! k); [|done]. by intros [= <-]. }
  destruct (winner v).
  - apply bind_Ok in E2 as (s1 & Ea & Eb).
    destruct (loser v); [|done]. simpl in Eb.
    apply Hstep in Ea as (<- & <- & <- & <-). by apply Hstep in Eb.
  - apply bind_Ok in E2 as (s1 & Ea & Eb).
    apply Hstep in Ea as (<- & <- & <- & <-). by apply Hstep in Eb.
Qed.

Lemma X14_scripts_agree_without_crash_witness :
  SshCommandsScript.record_match team_A team_B "RANDOM17"
    (lit "Red wins by 3 points") demo_runner
  = PacmanSshContest._analyse_output team_A team_B "RANDOM17" 0
      (lit "Red wins by 3 points") demo_runner.
Proof.
  refine (proj1 (X14_scripts_agree_without_crash team_A team_B "RANDOM17" 0
                   (lit "Red wins by 3 points") demo_runner _)).
  replace (splitlines (lit "Red wins by 3 points"))
    with [lit "Red wins by 3 points"] by (vm_compute; reflexivity).
  apply Forall_cons. split; [vm_compute; reflexivity | apply Forall_nil_2].
Defined.

(** X15.  With a cluster that runs every job as [_run_match] would and
    returns the results in the order of the jobs with an empty error
    stream, [run_contest_remotely] ends in the same state as
    [run_contest], or raises the same exception. *)
Theorem X15_remote_run_is_local_run
    (getstatusoutput : team -> team -> string -> Z * bytes)
    (start : list PacmanSshContest.Job -> list job_result)
    (self : ContestRunner) :
  (forall jobs, start jobs = orderly_cluster getstatusoutput jobs) ->
  PacmanSshContest.run_contest_remotely start self
  = PacmanSshContest.run_contest getstatusoutput self.
Proof.
  intros Hstart. unfold PacmanSshContest.run_contest_remotely.
  rewrite jobs_of_ids, bind_Ok_l, Hstart, run_contest_planned.
  unfold PacmanSshContest._analyse_all_outputs, orderly_cluster.
  rewrite !for_map. apply for_ext. intros [[red_team blue_team] layout] s.
  unfold PacmanSshContest._run_match. cbn [PacmanSshContest.id fst snd].
  destruct (getstatusoutput red_team blue_team layout) as [exit_code output].
  unfold PacmanSshContest.analyse_result. by rewrite app_nil_r.
Qed.

Lemma X15_remote_run_is_local_run_witness :
  PacmanSshContest.run_contest_remotely (orderly_cluster tie_engine) demo_runner
  = PacmanSshContest.run_contest tie_engine demo_runner.
Proof.
  apply (X15_remote_run_is_local_run tie_engine (orderly_cluster tie_engine)
           demo_runner).
  intros jobs. reflexivity.
Defined.

(** ** Strings and paths *)

Module PyStrFacts.
Import PyStr OsPath.

Lemma str_lit s : str (lit s) = s.
Proof. apply string_of_list_ascii_of_string. Qed.

Lemma lit_str s : lit (str s) = s.
Proof. apply list_ascii_of_string_of_list_ascii. Qed.

Lemma str_inj s t : str s = str t -> s = t.
Proof. intros H. by rewrite <- (lit_str s), <- (lit_str t), H. Qed.

Lemma lit_inj s t : lit s = lit t -> s = t.
Proof. intros H. by rewrite <- (str_lit s), <- (str_lit t), H. Qed.

Lemma endswith_iff s suffix :
  endswith s suffix = true <-> exists front, s = front ++ suffix.
Proof.
  unfold endswith. rewrite startswith_iff. split.
  - intros [rest H]. exists (rev rest).
    apply (f_equal (@rev ascii)) in H. rewrite rev_involutive in H.
    by rewrite H, rev_app_distr, rev_involutive.
  - intros [front ->]. exists (rev front). by rewrite rev_app_distr.
Qed.

Lemma drop_last4_app front suffix :
  length suffix = 4%nat -> drop_last4 (front ++ suffix) = front.
Proof.
  intros H. unfold drop_last4. rewrite length_app, H.
  replace (length front + 4 - 4)%nat with (length front) by lia.
  by rewrite take_app_length.
Qed.

Lemma until_slash_all s :
  Forall (fun c => c ≠ "/"%char) s -> until_slash s = s.
Proof.
  induction 1 as [|c s Hc _ IH]; [done|]. simpl.
  destruct (Ascii.eqb_spec c "/"); [done|]. by rewrite IH.
Qed.

Lemma until_slash_app s rest :
  Forall (fun c => c ≠ "/"%char) s ->
  until_slash (s ++ "/"%char :: rest) = s.
Proof.
  induction 1 as [|c s Hc _ IH]; [done|]. simpl.
  destruct (Ascii.eqb_spec c "/"); [done|]. by rewrite IH.
Qed.

Lemma basename_plain s :
  Forall (fun c => c ≠ "/"%char) s -> basename s = s.
Proof.
  intros H. unfold basename. rewrite until_slash_all, ?rev_involutive; [done|].
  by apply Forall_rev.
Qed.

Lemma basename_after_slash front s :
  Forall (fun c => c ≠ "/"%char) s -> basename (front ++ lit "/" ++ s) = s.
Proof.
  intros H. unfold basename.
  rewrite !rev_app_distr. change (rev (lit "/")) with ["/"%char].
  rewrite <- app_assoc. simpl.
  rewrite until_slash_app, ?rev_involutive; [done|]. by apply Forall_rev.
Qed.

Lemma startswith_slash s :
  Forall (fun c => c ≠ "/"%char) s -> startswith s (lit "/") = false.
Proof.
  change (lit "/") with ["/"%char].
  destruct s as [|c s]; [done|]. intros [Hc _]%Forall_cons.
  cbn [startswith].
  destruct (Ascii.eqb_spec "/" c) as [<-|]; [by destruct Hc | done].
Qed.

Lemma basename_join root file :
  Forall (fun c => c ≠ "/"%char) file -> basename (join root [file]) = file.
Proof.
  intros H. unfold join. simpl. unfold join_step.
  rewrite (startswith_slash _ H).
  destruct (Nat.eqb_spec (length root) 0) as [Hz|Hz]; simpl.
  - destruct root; [|done]. simpl. by apply basename_plain.
  - destruct (endswith root (lit "/")) eqn:He.
    + apply endswith_iff in He as [front ->]. rewrite <- app_assoc.
      by apply basename_after_slash.
    + by apply basename_after_slash.
Qed.

Lemma join_step_plain path c b :
  c ≠ "/"%char -> Forall (fun c => c ≠ "/"%char) b ->
  join_step (path ++ [c]) b = path ++ [c] ++ lit "/" ++ b.
Proof.
  intros Hc Hb. unfold join_step. rewrite (startswith_slash _ Hb).
  assert (endswith (path ++ [c]) (lit "/") = false) as ->.
  { apply not_true_is_false. intros [front He]%endswith_iff.
    change (lit "/") with ["/"%char] in He.
    apply app_inj_tail in He as [_ ->]. done. }
  rewrite length_app. simpl.
  replace (length path + 1 =? 0)%nat with false
    by (symmetry; apply Nat.eqb_neq; lia).
  simpl. by rewrite <- app_assoc.
Qed.

(** A name without a slash, not empty, under the teams directory. *)
Lemma join_teams_subdir name file :
  name ≠ [] -> Forall (fun c => c ≠ "/"%char) name ->
  Forall (fun c => c ≠ "/"%char) file ->
  join (lit "teams") [name; file] = lit "teams/" ++ name ++ lit "/" ++ file.
Proof.
  intros Hn Hs Hfs. unfold join. cbn [foldl].
  change (lit "teams") with (lit "team" ++ ["s"%char]).
  rewrite join_step_plain by done.
  destruct (exists_last Hn) as (name' & c & ->).
  apply Forall_app in Hs as [Hs [Hc _]%Forall_cons].
  rewrite !app_assoc. rewrite join_step_plain by done.
  by rewrite <- !app_assoc.
Qed.

(** [partition] at a single character. *)
Lemma partition_char s c :
  match partition s [c] with
  | Some (before, after) =>
      s = before ++ c :: after /\ Forall (fun x => x ≠ c) before
  | None => Forall (fun x => x ≠ c) s
  end.
Proof.
  induction s as [|x s IH]; [by constructor|].
  rewrite partition_unfold. simpl.
  destruct (Ascii.eqb_spec c x) as [<-|Hne].
  - replace (startswith s []) with true by (by destruct s).
    split; [by rewrite drop_0 | constructor].
  - destruct (partition s [c]) as [[before after]|].
    + destruct IH as [-> Hb]. split; [done|]. constructor; [congruence | done].
    + constructor; [congruence | done].
Qed.

Lemma replace_fuel_removes fuel s c new :
  (length s <= fuel)%nat -> Forall (fun x => x ≠ c) new ->
  Forall (fun x => x ≠ c) (replace_fuel fuel s [c] new).
Proof.
  revert s. induction fuel as [|fuel IH]; intros s Hlen Hnew.
  - destruct s; [done | simpl in Hlen; lia].
  - simpl. pose proof (partition_char s c) as Hp.
    destruct (partition s [c]) as [[before after]|]; [|done].
    destruct Hp as [-> Hb]. rewrite length_app in Hlen. simpl in Hlen.
    apply Forall_app. split; [done|]. apply Forall_app. split; [done|].
    apply IH; [lia | done].
Qed.

Lemma replace_fuel_preserves (P : ascii -> Prop) fuel s c new :
  Forall P s -> Forall P new -> Forall P (replace_fuel fuel s [c] new).
Proof.
  revert s. induction fuel as [|fuel IH]; intros s Hs Hnew; [done|].
  simpl. pose proof (partition_char s c) as Hp.
  destruct (partition s [c]) as [[before after]|]; [|done].
  destruct Hp as [-> _]. apply Forall_app in Hs as [Hb [_ Ha]%Forall_cons].
  apply Forall_app. split; [done|]. apply Forall_app. split; [done|].
  by apply IH.
Qed.

Lemma replace_removes s c new :
  Forall (fun x => x ≠ c) new -> Forall (fun x => x ≠ c) (replace s [c] new).
Proof. by apply replace_fuel_removes. Qed.

Lemma replace_preserves (P : ascii -> Prop) s c new :
  Forall P s -> Forall P new -> Forall P (replace s [c] new).
Proof. apply replace_fuel_preserves. Qed.

End PyStrFacts.

(** ** The team names file *)

Module TeamNamesFacts.
Import PyStr TeamNames PyStrFacts.

Lemma index_Ok row x i : index row x = Ok i -> row !! i = Some x.
Proof.
  revert i. induction row as [|y row IH]; intros i; simpl; [done|].
  destruct (String.eqb_spec y x) as [->|_].
  - by intros [= <-].
  - destruct (index row x) as [j|]; simpl; [|done]. intros [= <-]. by apply IH.
Qed.

Lemma index_elem row x : x ∈ row -> exists i, index row x = Ok i.
Proof.
  induction 1 as [y row|y z row _ [i IH]]; simpl.
  - rewrite String.eqb_refl. eauto.
  - destruct (String.eqb z y); [eauto|]. rewrite IH. simpl. eauto.
Qed.

Lemma index_missing row x : x ∉ row -> index row x = Raise ValueError.
Proof.
  induction row as [|y row IH]; [done|]. intros [Hne Hin]%not_elem_of_cons.
  simpl. destruct (String.eqb_spec y x) as [->|_]; [done|].
  by rewrite IH.
Qed.

Lemma index_raises row x e : index row x = Raise e -> x ∉ row.
Proof.
  intros H Hin. apply index_elem in Hin as [i Hi]. congruence.
Qed.

Lemma getitem_Ok {A : Type} (l : list A) i :
  (i < length l)%nat -> exists x, getitem l i = Ok x /\ l !! i = Some x.
Proof.
  intros H. unfold getitem. destruct (lookup_lt_is_Some_2 l i H) as [x ->].
  eauto.
Qed.

Lemma getitem_short {A : Type} (l : list A) i :
  ~ (i < length l)%nat -> getitem l i = Raise IndexError.
Proof.
  intros H. unfold getitem. rewrite lookup_ge_None_2; [done | lia].
Qed.

Lemma clean_well s :
  Forall (fun c => c ≠ "/"%char /\ c ≠ " "%char) (lit (clean s)).
Proof.
  unfold clean. rewrite lit_str. apply Forall_and. split.
  - apply (replace_preserves (fun c => c ≠ "/"%char)).
    + apply (replace_removes _ "/"%char).
      change (lit "NOT_FUNNY") with (list_ascii_of_string "NOT_FUNNY"). simpl.
      repeat (constructor; [done|]). constructor.
    + by repeat constructor.
  - apply (replace_removes _ " "%char). by repeat constructor.
Qed.

(** After the first row the columns are those of the header. *)
Lemma load_row_cols row i j m st' :
  load_row row (Some (i, j), m) = Ok st' -> st'.1 = Some (i, j).
Proof.
  unfold load_row. simpl.
  destruct (getitem row i) as [sid|]; simpl; [|done].
  destruct (getitem row j) as [field|]; simpl; [|done].
  destruct (String.eqb _ _); [by intros [= <-]|].
  destruct (_ || _)%bool; by intros [= <-].
Qed.

Lemma load_row_names row cols m st' :
  load_row row (cols, m) = Ok st' ->
  (forall sid n, m !! sid = Some n -> sid ≠ ""%string /\ well_named n) ->
  (forall sid n, st'.2 !! sid = Some n -> sid ≠ ""%string /\ well_named n)
  /\ (forall sid, is_Some (m !! sid) -> is_Some (st'.2 !! sid)).
Proof.
  unfold load_row. intros E Hm.
  apply bind_Ok in E as ([i j] & _ & E).
  apply bind_Ok in E as (sid0 & _ & E).
  apply bind_Ok in E as (field & _ & E).
  destruct (String.eqb_spec (clean field) "staff_team") as [|Hstaff];
    [injection E as <-; by split|].
  destruct (String.eqb_spec sid0 "") as [|Hsid]; simpl in E;
    [injection E as <-; by split|].
  destruct (String.eqb_spec (clean field) "") as [|Hname]; simpl in E;
    [injection E as <-; by split|].
  injection E as <-. simpl. split.
  - intros sid n. destruct (decide (sid = sid0)) as [->|Hne].
    + rewrite lookup_insert_eq. intros [= <-]. split; [done|].
      split; [done|]. split; [done|]. apply clean_well.
    + rewrite lookup_insert_ne by done. apply Hm.
  - intros sid Hs. destruct (decide (sid = sid0)) as [->|Hne].
    + by rewrite lookup_insert_eq.
    + by rewrite lookup_insert_ne.
Qed.

Lemma load_rows_names rows cols m st' :
  for_ rows load_row (cols, m) = Ok st' ->
  (forall sid n, m !! sid = Some n -> sid ≠ ""%string /\ well_named n) ->
  (forall sid n, st'.2 !! sid = Some n -> sid ≠ ""%string /\ well_named n)
  /\ (forall sid, is_Some (m !! sid) -> is_Some (st'.2 !! sid)).
Proof.
  revert cols m. induction rows as [|row rows IH]; intros cols m; simpl.
  - intros [= <-] Hm. by split.
  - intros ([cols1 m1] & E1 & E2)%bind_Ok Hm.
    destruct (load_row_names _ _ _ _ E1 Hm) as [Hm1 Hk1]. simpl in *.
    destruct (IH _ _ E2 Hm1) as [Hm2 Hk2]. split; [done|]. auto.
Qed.

Lemma load_rows_keys rows cols m st' :
  for_ rows load_row (cols, m) = Ok st' ->
  forall sid, is_Some (m !! sid) -> is_Some (st'.2 !! sid).
Proof.
  revert cols m. induction rows as [|row rows IH]; intros cols m; simpl.
  - by intros [= <-].
  - intros ([cols1 m1] & E1 & E2)%bind_Ok sid Hs.
    apply (IH _ _ E2).
    unfold load_row in E1.
    apply bind_Ok in E1 as ([i j] & _ & E1).
    apply bind_Ok in E1 as (sid0 & _ & E1).
    apply bind_Ok in E1 as (field & _ & E1).
    destruct (String.eqb _ _); [by injection E1 as _ <-|].
    destruct (_ || _)%bool; injection E1 as _ <-; [done|].
    destruct (decide (sid = sid0)) as [->|Hne].
    + by rewrite lookup_insert_eq.
    + by rewrite lookup_insert_ne.
Qed.

Lemma load_row_raises row i j m e :
  load_row row (Some (i, j), m) = Raise e ->
  e = IndexError /\ ~ has_columns i j row.
Proof.
  unfold load_row, has_columns. simpl.
  destruct (decide (i < length row)%nat) as [Hi|Hi].
  - destruct (getitem_Ok row i Hi) as (sid & -> & _). simpl.
    destruct (decide (j < length row)%nat) as [Hj|Hj].
    + destruct (getitem_Ok row j Hj) as (field & -> & _). simpl.
      destruct (String.eqb _ _); [done|]. by destruct (_ || _)%bool.
    + rewrite (getitem_short row j Hj). simpl. intros [= <-]. split; [done|].
      tauto.
  - rewrite (getitem_short row i Hi). simpl. intros [= <-]. split; [done|].
    tauto.
Qed.

Lemma load_row_total row i j m :
  has_columns i j row -> exists m', load_row row (Some (i, j), m) = Ok (Some (i, j), m').
Proof.
  intros [Hi Hj]. unfold load_row. simpl.
  destruct (getitem_Ok row i Hi) as (sid & -> & _). simpl.
  destruct (getitem_Ok row j Hj) as (field & -> & _). simpl.
  destruct (String.eqb _ _); [eauto|]. destruct (_ || _)%bool; eauto.
Qed.

Lemma load_rows_total rows i j m :
  Forall (has_columns i j) rows ->
  exists m', for_ rows load_row (Some (i, j), m) = Ok (Some (i, j), m').
Proof.
  intros H. revert m. induction H as [|row rows Hrow _ IH]; intros m; simpl.
  - eauto.
  - destruct (load_row_total row i j m Hrow) as [m1 ->]. simpl. apply IH.
Qed.

Lemma load_rows_short rows i j m :
  ~ Forall (has_columns i j) rows ->
  for_ rows load_row (Some (i, j), m) = Raise IndexError.
Proof.
  revert m. induction rows as [|row rows IH]; intros m Hn.
  - destruct Hn. constructor.
  - simpl. destruct (load_row row (Some (i, j), m)) as [[cols m1]|e] eqn:E.
    + pose proof (load_row_cols _ _ _ _ _ E) as Hc. simpl in Hc. subst cols.
      simpl. apply IH. intros Hall. apply Hn. constructor; [|done].
      destruct (decide (has_columns i j row)) as [|Hrow]; [done|].
      exfalso. unfold has_columns in Hrow. unfold load_row in E. simpl in E.
      destruct (decide (i < length row)%nat) as [Hi|Hi].
      * destruct (decide (j < length row)%nat) as [Hj|Hj]; [tauto|].
        destruct (getitem row i); simpl in E; [|done].
        by rewrite (getitem_short row j Hj) in E.
      * by rewrite (getitem_short row i Hi) in E.
    + simpl. by apply load_row_raises in E as [-> _].
Qed.

Lemma header_row header i j m :
  index header "STUDENT_ID" = Ok i -> index header "TEAM_NAME" = Ok j ->
  load_row header (None, m)
  = Ok (Some (i, j), <["STUDENT_ID"%string := "TEAM_NAME"%string]> m).
Proof.
  intros Hi Hj. unfold load_row. rewrite Hi, Hj. simpl.
  apply index_Ok in Hi, Hj. unfold getitem. rewrite Hi, Hj. simpl.
  replace (clean "TEAM_NAME") with "TEAM_NAME"%string
    by (vm_compute; reflexivity).
  done.
Qed.

Lemma load_teams_names rows names sid n :
  _load_teams rows = Ok names -> names !! sid = Some n ->
  sid ≠ ""%string /\ well_named n.
Proof.
  unfold _load_teams. intros ([cols m] & E & [= <-])%bind_Ok.
  by apply (load_rows_names _ _ _ _ E).
Qed.

End TeamNamesFacts.

(** X16.  Every entry [_load_teams] returns has a student id that is not
    empty and a team name that is not empty, is not [staff_team] and holds
    neither a slash nor a space. *)
Theorem X16_team_names_are_clean (rows : list (list string))
    (names : gmap string string) (student_id team_name : string) :
  TeamNames._load_teams rows = Ok names ->
  names !! student_id = Some team_name ->
  student_id ≠ ""%string /\ well_named team_name.
Proof. apply TeamNamesFacts.load_teams_names. Qed.

Lemma X16_team_names_are_clean_witness :
  "s111"%string ≠ ""%string /\ well_named "The_ANOT_FUNNYTeam".
Proof.
  assert (exists names,
            TeamNames._load_teams demo_rows = Ok names
            /\ names !! "s111"%string = Some "The_ANOT_FUNNYTeam"%string)
    as (names & E & Hn) by (eexists; split; vm_compute; reflexivity).
  exact (X16_team_names_are_clean demo_rows names _ _ E Hn).
Defined.

(** X17.  The header row is read as a row of data too: whenever
    [_load_teams] returns for a file that is not empty, the dictionary has
    an entry for the key [STUDENT_ID]. *)
Theorem X17_header_row_is_an_entry (header : list string)
    (rest : list (list string)) (names : gmap string string) :
  TeamNames._load_teams (header :: rest) = Ok names ->
  is_Some (names !! "STUDENT_ID"%string).
Proof.
  unfold TeamNames._load_teams. intros ([cols m] & E & [= <-])%bind_Ok.
  simpl in E. apply bind_Ok in E as ([cols1 m1] & E1 & E2).
  assert (is_Some (m1 !! "STUDENT_ID"%string)) as Hs.
  { destruct (PyStr.index header "STUDENT_ID") as [i|] eqn:Hi;
      [|by unfold TeamNames.load_row in E1; rewrite Hi in E1].
    destruct (PyStr.index header "TEAM_NAME") as [j|] eqn:Hj;
      [|by unfold TeamNames.load_row in E1; rewrite Hi, Hj in E1].
    rewrite (TeamNamesFacts.header_row _ _ _ _ Hi Hj) in E1.
    injection E1 as _ <-. by rewrite lookup_insert_eq. }
  by apply (TeamNamesFacts.load_rows_keys _ _ _ _ E2).
Qed.

Lemma X17_header_row_is_an_entry_witness :
  exists names,
    TeamNames._load_teams demo_rows = Ok names
    /\ is_Some (names !! "STUDENT_ID"%string).
Proof.
  assert (exists names, TeamNames._load_teams demo_rows = Ok names)
    as (names & E) by (eexists; vm_compute; reflexivity).
  exists names. split; [exact E|].
  exact (X17_header_row_is_an_entry _ _ names E).
Defined.

(** X18.  How [_load_teams] fails.  A first row without the heading
    [STUDENT_ID] or without [TEAM_NAME] raises [ValueError].  With the two
    headings in columns [i] and [j], the function returns when every later
    row has both columns and raises [IndexError] when one is too short. *)
Theorem X18_load_teams_failures (header : list string)
    (rest : list (list string)) :
  (~ ("STUDENT_ID"%string ∈ header /\ "TEAM_NAME"%string ∈ header) ->
   TeamNames._load_teams (header :: rest) = Raise ValueError)
  /\ forall i j,
       PyStr.index header "STUDENT_ID" = Ok i ->
       PyStr.index header "TEAM_NAME" = Ok j ->
       (Forall (has_columns i j) rest ->
        exists names, TeamNames._load_teams (header :: rest) = Ok names)
       /\ (~ Forall (has_columns i j) rest ->
           TeamNames._load_teams (header :: rest) = Raise IndexError).
Proof.
  unfold TeamNames._load_teams. split.
  - intros Hn. simpl.
    assert (TeamNames.load_row header (None, ∅) = Raise ValueError) as ->;
      [|done].
    unfold TeamNames.load_row.
    destruct (decide ("STUDENT_ID"%string ∈ header)) as [Hs|Hs].
    + destruct (TeamNamesFacts.index_elem _ _ Hs) as [i ->]. simpl.
      rewrite TeamNamesFacts.index_missing; [done | tauto].
    + by rewrite (TeamNamesFacts.index_missing header "STUDENT_ID").
  - intros i j Hi Hj. simpl.
    rewrite (TeamNamesFacts.header_row _ _ _ _ Hi Hj). simpl. split.
    + intros Hall.
      destruct (TeamNamesFacts.load_rows_total rest i j
                  (<["STUDENT_ID"%string := "TEAM_NAME"%string]> ∅) Hall)
        as [m' ->].
      simpl. eauto.
    + intros Hshort. by rewrite TeamNamesFacts.load_rows_short.
Qed.

(** ** Setting up the teams of [pacman-ssh-contest.py] *)

Module SetupFacts.
Import PyStr OsPath PacmanSshContestSetup PyStrFacts.

Lemma span_digits_spec s d rest :
  span_digits s = (d, rest) ->
  s = d ++ rest /\ Forall (fun c => isdigit c = true) d.
Proof.
  revert d rest. induction s as [|c s IH]; intros d rest; simpl.
  - by intros [= <- <-].
  - destruct (isdigit c) eqn:Hc; [|by intros [= <- <-]].
    destruct (span_digits s) as [d' rest']. intros [= <- <-].
    destruct (IH d' rest' eq_refl) as [-> Hd]. split; [done|].
    by constructor.
Qed.

Lemma pattern_student_id name student_id date :
  SUBMISSION_FILENAME_PATTERN name = Some (student_id, date) ->
  exists d, d ≠ [] /\ Forall (fun c => isdigit c = true) d
            /\ student_id = "s"%char :: d.
Proof.
  unfold SUBMISSION_FILENAME_PATTERN. destruct name as [|c rest]; [done|].
  destruct (Ascii.eqb_spec c "s") as [->|]; [|done].
  destruct (span_digits rest) as [d r] eqn:Es.
  apply span_digits_spec in Es as [_ Hd].
  destruct d as [|x d]; [done|]. destruct r as [|u t]; [done|].
  destruct (Ascii.eqb u "_"); [|done].
  destruct (endswith (if endswith t _ then removelast t else t) (lit ".zip"));
    [|done].
  destruct (drop_last4 _) as [|y g].
  - intros [= <- <-]. by exists (x :: d).
  - destruct (no_newline _); [|done]. intros [= <- <-]. by exists (x :: d).
Qed.

Lemma team_of_submission_names parse_date zip ign allow self self2 :
  team_names self = team_names self2 ->
  team_of_submission parse_date zip ign allow self
  = team_of_submission parse_date zip ign allow self2.
Proof. unfold team_of_submission. by intros ->. Qed.

(** Where a team name comes from, and that a dated file has a date. *)
Lemma team_of_submission_origin parse_date zip ign allow self n t :
  team_of_submission parse_date zip ign allow self = Some (n, t) ->
  ((exists sid, team_names self !! sid = Some n)
   \/ (allow = true /\ student_id_like n)
   \/ (ign = true /\ n = str (drop_last4 (basename zip)) /\ t = None
       /\ SUBMISSION_FILENAME_PATTERN (basename zip) = None))
  /\ (ign = false -> is_Some t).
Proof.
  unfold team_of_submission.
  destruct (SUBMISSION_FILENAME_PATTERN (basename zip)) as [[sid date]|] eqn:Ep.
  - apply pattern_student_id in Ep as (d & Hd & Hds & ->).
    destruct (team_names self !! str ("s"%char :: d)) as [n'|] eqn:En.
    + destruct (parse_date date) as [time|].
      * intros [= <- <-]. split; [eauto | eauto].
      * destruct ign; simpl; [|done]. intros [= <- <-]. split; [eauto | done].
    + destruct allow; [|done].
      assert (student_id_like (str ("s"%char :: d))) by (by exists d).
      destruct (parse_date date) as [time|].
      * intros [= <- <-]. split; [auto | eauto].
      * destruct ign; simpl; [|done]. intros [= <- <-]. split; [auto | done].
  - destruct ign; simpl; [|done]. intros [= <- <-]. split; [|done].
    right. right. done.
Qed.

(** What one call does to the state. *)
Lemma setup_team_step parse_date zip ign allow self :
  match _setup_team parse_date zip ign allow self with
  | Returns self' =>
      team_names self' = team_names self
      /\ (self' = self
          \/ (exists n t,
                team_of_submission parse_date zip ign allow self = Some (n, t)
                /\ submission_times self !! n = None
                /\ teams self'
                   = teams self
                       ++ [(n, str (join TEAMS_SUBDIR [lit n; lit "myTeam.py"]))]
                /\ submission_times self' = <[n := t]> (submission_times self))
          \/ (exists n t t0,
                team_of_submission parse_date zip ign allow self
                = Some (n, Some t)
                /\ submission_times self !! n = Some (Some t0)
                /\ t0 < t
                /\ teams self' = teams self
                /\ submission_times self'
                   = <[n := Some t]> (submission_times self)))
  | SystemExit _ => False
  | TypeError =>
      exists n t,
        team_of_submission parse_date zip ign allow self = Some (n, Some t)
        /\ submission_times self !! n = Some None
  end.
Proof.
  unfold _setup_team.
  destruct (team_of_submission parse_date zip ign allow self) as [[n t]|];
    [|by split; [|left]].
  destruct (submission_times self !! n) as [stored|] eqn:Es.
  - destruct t as [t|]; [|by split; [|left]].
    destruct stored as [t0|]; [|by exists n, t].
    destruct (Z.ltb_spec t0 t); [|by split; [|left]].
    split; [done|]. right. right. by exists n, t, t0.
  - split; [done|]. right. left. by exists n, t.
Qed.

Lemma setup_team_consistent parse_date zip ign allow self self' :
  _setup_team parse_date zip ign allow self = Returns self' ->
  consistent self -> consistent self'.
Proof.
  intros E [Hnd Hkeys]. pose proof (setup_team_step parse_date zip ign allow self) as H.
  rewrite E in H. destruct H as [_ [->|[(n & t & _ & Hn & Ht & Hs)|(n & t & t0 & _ & Hn & _ & Ht & Hs)]]].
  - by split.
  - split.
    + rewrite Ht, fmap_app. simpl. apply NoDup_app. split; [done|]. split.
      * intros k Hk [->|[]%elem_of_nil]%elem_of_cons.
        apply Hkeys in Hk. rewrite Hn in Hk. by destruct Hk.
      * apply NoDup_singleton.
    + intros k. rewrite Ht, Hs, fmap_app, elem_of_app. simpl.
      destruct (decide (k = n)) as [->|Hne].
      * rewrite lookup_insert_eq. split; [eauto|]. intros _. right. by left.
      * rewrite lookup_insert_ne by done. rewrite Hkeys.
        split; [|by left]. intros [|[|[]%elem_of_nil]%elem_of_cons]; done.
  - split; [by rewrite Ht|]. intros k. rewrite Ht, Hs.
    destruct (decide (k = n)) as [->|Hne].
    + rewrite lookup_insert_eq. rewrite Hkeys, Hn. split; eauto.
    + by rewrite lookup_insert_ne.
Qed.

Lemma setup_team_dated parse_date zip allow self :
  all_dated self ->
  exists self',
    _setup_team parse_date zip false allow self = Returns self'
    /\ all_dated self'.
Proof.
  intros Hd. pose proof (setup_team_step parse_date zip false allow self) as H.
  destruct (_setup_team parse_date zip false allow self) as [self'|code|];
    [|done|].
  - exists self'. split; [done|].
    destruct H as [_ [->|[(n & t & Ho & Hn & Ht & Hs)|(n & t & t0 & _ & Hn & _ & Ht & Hs)]]].
    + done.
    + apply team_of_submission_origin in Ho as [_ Hsome].
      intros k stored. rewrite Hs. destruct (decide (k = n)) as [->|Hne].
      * rewrite lookup_insert_eq. intros [= <-]. by apply Hsome.
      * rewrite lookup_insert_ne by done. apply Hd.
    + intros k stored. rewrite Hs. destruct (decide (k = n)) as [->|Hne].
      * rewrite lookup_insert_eq. intros [= <-]. eauto.
      * rewrite lookup_insert_ne by done. apply Hd.
  - destruct H as (n & t & _ & Hn). apply Hd in Hn. by destruct Hn.
Qed.

(** Any property of the state that a call keeps holds after the loop. *)
Lemma setup_submissions_inv parse_date root listing allow
    (Inv : Setup -> Prop) self :
  (forall zip s s',
     _setup_team parse_date zip false allow s = Returns s' ->
     all_dated s -> Inv s -> Inv s') ->
  all_dated self -> Inv self ->
  exists self',
    setup_submissions parse_date root listing allow self = Returns self'
    /\ all_dated self' /\ Inv self'.
Proof.
  intros Hstep. revert self.
  induction listing as [|f listing IH]; intros self Hd Hi; simpl; [eauto|].
  destruct (endswith f (lit ".zip")); [|by apply IH].
  destruct (setup_team_dated parse_date (join root [f]) allow self Hd)
    as (self1 & E & Hd1).
  rewrite E. apply IH; [done|]. by apply (Hstep _ _ _ E).
Qed.

Lemma staff_file_name :
  SUBMISSION_FILENAME_PATTERN (basename STAFF_TEAM_ZIP_FILE) = None
  /\ str (drop_last4 (basename STAFF_TEAM_ZIP_FILE)) = "staff_team"%string.
Proof. split; vm_compute; reflexivity. Qed.

Lemma staff_submission parse_date self :
  team_of_submission parse_date STAFF_TEAM_ZIP_FILE true false self
  = Some ("staff_team"%string, None).
Proof.
  unfold team_of_submission. destruct staff_file_name as [-> ->]. done.
Qed.

Lemma setup_staff parse_date self :
  _setup_team parse_date STAFF_TEAM_ZIP_FILE true false self
  = match submission_times self !! "staff_team"%string with
    | None =>
        Returns (mkSetup (team_names self)
                   (teams self ++ [("staff_team"%string,
                                    "teams/staff_team/myTeam.py"%string)])
                   (<["staff_team"%string := None]> (submission_times self)))
    | Some _ => Returns self
    end.
Proof.
  unfold _setup_team. rewrite staff_submission.
  by destruct (submission_times self !! "staff_team"%string).
Qed.

Lemma student_id_not_staff n : student_id_like n -> n ≠ "staff_team"%string.
Proof.
  intros (d & Hd & Hds & ->) H. apply (f_equal lit) in H.
  rewrite lit_str in H. destruct d as [|c d]; [done|].
  apply Forall_cons in Hds as [Hc _]. injection H as -> _. done.
Qed.

Lemma student_id_plain n :
  student_id_like n ->
  lit n ≠ [] /\ Forall (fun c => c ≠ "/"%char) (lit n).
Proof.
  intros (d & Hd & Hds & ->). rewrite lit_str. split; [done|].
  constructor; [done|]. eapply Forall_impl; [exact Hds|].
  intros c Hc ->. done.
Qed.

Lemma well_named_plain n :
  well_named n -> lit n ≠ [] /\ Forall (fun c => c ≠ "/"%char) (lit n).
Proof.
  intros (Hne & _ & Hc). split.
  - intros H. apply Hne. apply lit_inj. by rewrite H.
  - eapply Forall_impl; [exact Hc|]. by intros c [? _].
Qed.

Lemma factory_plain n :
  lit n ≠ [] -> Forall (fun c => c ≠ "/"%char) (lit n) ->
  str (join TEAMS_SUBDIR [lit n; lit "myTeam.py"]) = factory_of n.
Proof.
  intros Hne Hs. unfold factory_of, TEAMS_SUBDIR. f_equal.
  rewrite join_teams_subdir; [|done|done|].
  - reflexivity.
  - change (lit "myTeam.py") with (list_ascii_of_string "myTeam.py"). simpl.
    repeat (constructor; [done|]). constructor.
Qed.

End SetupFacts.

(** X19.  The team part of [__init__] never reaches the comparison of a
    stored [None] with a date, so it does not end in that [TypeError].
    When it stops by [sys.exit], the status is 1, the staff team was to
    be included and its file is not there.  When it returns, the teams it
    leaves have pairwise distinct names, which are the keys of
    [self.submission_times], and the file of the staff team is there if
    the staff team is included. *)
Theorem X19_team_names_distinct (parse_date : option bytes -> option Z)
    (path_exists : bytes -> bool)
    (names : gmap string string) (teams_root : bytes) (listing : list bytes)
    (include_staff_team allow_non_registered_students : bool) :
  match PacmanSshContestSetup.setup_teams parse_date path_exists names
          teams_root listing include_staff_team
          allow_non_registered_students with
  | PacmanSshContestSetup.Returns self =>
      PacmanSshContestSetup.team_names self = names
      /\ NoDup (PacmanSshContestSetup.teams self).*1
      /\ (forall n,
            n ∈ (PacmanSshContestSetup.teams self).*1
            <-> is_Some (PacmanSshContestSetup.submission_times self !! n))
      /\ (include_staff_team = true ->
          path_exists PacmanSshContestSetup.STAFF_TEAM_ZIP_FILE = true)
  | PacmanSshContestSetup.SystemExit code =>
      code = 1 /\ include_staff_team = true
      /\ path_exists PacmanSshContestSetup.STAFF_TEAM_ZIP_FILE = false
  | PacmanSshContestSetup.TypeError => False
  end.
Proof.
  unfold PacmanSshContestSetup.setup_teams.
  destruct (SetupFacts.setup_submissions_inv parse_date teams_root listing
              allow_non_registered_students
              (fun s => PacmanSshContestSetup.team_names s = names
                        /\ consistent s)
              (PacmanSshContestSetup.mkSetup names [] ∅))
    as (self & -> & _ & Hn & Hc).
  - intros zip s s' E _ [Hn Hc]. split.
    + pose proof (SetupFacts.setup_team_step parse_date zip false
                    allow_non_registered_students s) as H.
      rewrite E in H. destruct H as [-> _]. done.
    + by apply (SetupFacts.setup_team_consistent _ _ _ _ _ _ E).
  - by intros n stored ?.
  - split; [done|]. split; [constructor|]. intros n. simpl.
    rewrite lookup_empty. split; [by intros ?%elem_of_nil | by intros []].
  - destruct Hc as [Hnd Hkeys].
    destruct include_staff_team; [|done].
    destruct (path_exists PacmanSshContestSetup.STAFF_TEAM_ZIP_FILE);
      simpl; [|done].
    pose proof (SetupFacts.setup_team_step parse_date
                  PacmanSshContestSetup.STAFF_TEAM_ZIP_FILE true false self)
      as H.
    destruct (PacmanSshContestSetup._setup_team parse_date
                PacmanSshContestSetup.STAFF_TEAM_ZIP_FILE true false self)
      as [self'|code|] eqn:E.
    + destruct H as [-> _]. split; [done|].
      destruct (SetupFacts.setup_team_consistent _ _ _ _ _ _ E
                  (conj Hnd Hkeys)) as [Hnd' Hkeys'].
      done.
    + done.
    + rewrite SetupFacts.setup_staff in E.
      by destruct (PacmanSshContestSetup.submission_times self !! _).
Qed.

Module SetupLoop.
Import PyStr OsPath PacmanSshContestSetup PyStrFacts SetupFacts.

Lemma students_loop parse_date names root listing allow :
  (forall sid n, names !! sid = Some n -> well_named n) ->
  exists self,
    setup_submissions parse_date root listing allow (mkSetup names [] ∅)
    = Returns self
    /\ team_names self = names
    /\ consistent self
    /\ forall n f, (n, f) ∈ teams self ->
         f = factory_of n /\ student_team names allow n.
Proof.
  intros Hnames.
  destruct (setup_submissions_inv parse_date root listing allow
              (fun s => team_names s = names /\ consistent s
                        /\ forall n f, (n, f) ∈ teams s ->
                             f = factory_of n /\ student_team names allow n)
              (mkSetup names [] ∅))
    as (self & E & _ & Hn & Hc & Ht); [| | |by exists self].
  - intros zip s s' E _ (Hn & Hc & Ht).
    pose proof (setup_team_consistent _ _ _ _ _ _ E Hc) as Hc'.
    pose proof (setup_team_step parse_date zip false allow s) as H.
    rewrite E in H.
    destruct H as [Hn' [->|[(n & t & Ho & _ & Hts & _)|(n & t & t0 & _ & _ & _ & Hts & _)]]].
    + done.
    + split; [congruence|]. split; [done|].
      intros k f. rewrite Hts. intros [Hin|Hin]%elem_of_app; [by apply Ht|].
      apply elem_of_cons in Hin as [[= -> ->]|[]%elem_of_nil].
      apply team_of_submission_origin in Ho as [Ho _].
      assert (student_team names allow n) as Hst.
      { destruct Ho as [[sid Hs]|[[-> Hs]|[[=] _]]].
        - left. exists sid. congruence.
        - by right. }
      split; [|done]. apply factory_plain.
      * destruct Hst as [[sid Hs]|[_ Hs]].
        -- by apply well_named_plain, (Hnames sid).
        -- by apply student_id_plain.
      * destruct Hst as [[sid Hs]|[_ Hs]].
        -- by apply well_named_plain, (Hnames sid).
        -- by apply student_id_plain.
    + split; [congruence|]. split; [done|]. by rewrite Hts.
  - by intros n stored ?.
  - split; [done|]. split.
    + split; [constructor|]. intros n. simpl. rewrite lookup_empty.
      split; [by intros ?%elem_of_nil | by intros []].
    + by intros n f ?%elem_of_nil.
Qed.

Lemma student_team_not_staff names allow n :
  (forall sid n, names !! sid = Some n -> well_named n) ->
  student_team names allow n -> n ≠ "staff_team"%string.
Proof.
  intros Hnames [[sid Hs]|[_ Hs]].
  - by destruct (Hnames _ _ Hs) as (_ & ? & _).
  - by apply student_id_not_staff.
Qed.

End SetupLoop.

(** X20.  With the team names [_load_teams] read, every team the team
    part of [__init__] sets up has the agent factory
    [teams/<name>/myTeam.py], and its name is a team name of the file, or
    a student id (when students without a team are let in), or
    [staff_team] (when the staff team is included). *)
Theorem X20_where_teams_come_from (parse_date : option bytes -> option Z)
    (path_exists : bytes -> bool)
    (rows : list (list string)) (names : gmap string string)
    (teams_root : bytes) (listing : list bytes)
    (include_staff_team allow_non_registered_students : bool)
    (self : PacmanSshContestSetup.Setup) (name agent_factory : string) :
  TeamNames._load_teams rows = Ok names ->
  PacmanSshContestSetup.setup_teams parse_date path_exists names teams_root
    listing include_staff_team allow_non_registered_students
  = PacmanSshContestSetup.Returns self ->
  (name, agent_factory) ∈ PacmanSshContestSetup.teams self ->
  agent_factory = factory_of name
  /\ (student_team names allow_non_registered_students name
      \/ (include_staff_team = true /\ name = "staff_team"%string)).
Proof.
  intros Hload. unfold PacmanSshContestSetup.setup_teams.
  assert (forall sid n, names !! sid = Some n -> well_named n) as Hnames.
  { intros sid n Hs.
    by destruct (TeamNamesFacts.load_teams_names rows names sid n Hload Hs). }
  destruct (SetupLoop.students_loop parse_date names teams_root listing
              allow_non_registered_students Hnames)
    as (self1 & -> & _ & _ & Ht).
  destruct include_staff_team.
  - destruct (path_exists PacmanSshContestSetup.STAFF_TEAM_ZIP_FILE);
      simpl; [|done].
    rewrite SetupFacts.setup_staff.
    destruct (PacmanSshContestSetup.submission_times self1 !! _).
    + intros [= <-] Hin. destruct (Ht _ _ Hin). auto.
    + intros [= <-]. simpl. intros [Hin|Hin]%elem_of_app.
      * destruct (Ht _ _ Hin). auto.
      * apply elem_of_cons in Hin as [[= -> ->]|[]%elem_of_nil].
        split; [vm_compute; reflexivity | auto].
  - intros [= <-] Hin. destruct (Ht _ _ Hin). auto.
Qed.

Lemma X20_where_teams_come_from_witness :
  exists names,
    TeamNames._load_teams demo_rows = Ok names
    /\ ("teams/The_ANOT_FUNNYTeam/myTeam.py"%string
        = factory_of "The_ANOT_FUNNYTeam"
        /\ (student_team names true "The_ANOT_FUNNYTeam"
            \/ (true = true /\ "The_ANOT_FUNNYTeam"%string = "staff_team"%string))).
Proof.
  assert (exists names,
            TeamNames._load_teams demo_rows = Ok names
            /\ exists self,
                 PacmanSshContestSetup.setup_teams demo_parse_date all_there
                   names (lit "subs") demo_listing true true
                 = PacmanSshContestSetup.Returns self
                 /\ ("The_ANOT_FUNNYTeam"%string,
                     "teams/The_ANOT_FUNNYTeam/myTeam.py"%string)
                    ∈ PacmanSshContestSetup.teams self)
    as (names & Hload & self & E & Hin).
  { eexists. split; [vm_compute; reflexivity|].
    eexists. split; [vm_compute; reflexivity|].
    apply list_elem_of_lookup. exists 0%nat. reflexivity. }
  exists names. split; [exact Hload|].
  exact (X20_where_teams_come_from demo_parse_date all_there demo_rows names
           (lit "subs") demo_listing true true self _ _ Hload E Hin).
Defined.

Module LatestSubmission.
Import PyStr OsPath PacmanSshContestSetup PyStrFacts SetupFacts.

Section loop.
Variable parse_date : option bytes -> option Z.
Variable names : gmap string string.
Variable teams_root : bytes.
Variable allow : bool.

Local Notation "'kept'" := (latest_kept parse_date names teams_root allow).
Local Notation "'sub'" := (submitted parse_date names teams_root allow).

Lemma kept_skip files f self :
  (forall n t, ~ sub f n t) -> kept files self -> kept (files ++ [f]) self.
Proof.
  intros Hf H n. specialize (H n).
  destruct (submission_times self !! n) as [stored|].
  - destruct H as (t & -> & (g & Hg & Hsub) & Hmax). exists t.
    split; [done|]. split.
    + exists g. split; [|done]. apply elem_of_app. by left.
    + intros g' t' [Hin|[->|[]%elem_of_nil]%elem_of_cons]%elem_of_app Hs.
      * by apply (Hmax g').
      * by destruct (Hf n t').
  - intros g t' [Hin|[->|[]%elem_of_nil]%elem_of_cons]%elem_of_app.
    + by apply H.
    + apply Hf.
Qed.

Lemma kept_step files f self self' :
  team_names self = names ->
  endswith f (lit ".zip") = true ->
  _setup_team parse_date (join teams_root [f]) false allow self
  = Returns self' ->
  kept files self -> kept (files ++ [f]) self'.
Proof.
  intros Hn Hzip E H. unfold _setup_team in E.
  destruct (team_of_submission parse_date (join teams_root [f]) false allow
              self) as [[m tm]|] eqn:Ho.
  2:{ injection E as <-. apply kept_skip; [|done].
      intros n t [_ Hs].
      rewrite (team_of_submission_names _ _ _ _ _ self) in Hs by done.
      congruence. }
  destruct (proj2 (team_of_submission_origin _ _ _ _ _ _ _ Ho) eq_refl)
    as [t ->].
  assert (forall n t', sub f n t' <-> n = m /\ t' = t) as Hsub.
  { intros n t'. unfold submitted.
    rewrite (team_of_submission_names _ _ _ _ _ self), Ho by done.
    split; [by intros [_ [= -> ->]] | by intros [-> ->]]. }
  assert (forall s,
            (forall n, n ≠ m ->
               submission_times s !! n = submission_times self !! n) ->
            forall n, n ≠ m ->
              match submission_times s !! n with
              | Some stored =>
                  exists t0,
                    stored = Some t0
                    /\ (exists g, g ∈ files ++ [f] /\ sub g n t0)
                    /\ forall g t', g ∈ files ++ [f] -> sub g n t' -> t' <= t0
              | None => forall g t', g ∈ files ++ [f] -> ~ sub g n t'
              end) as Hother.
  { intros s Hs n Hne. rewrite (Hs n Hne). specialize (H n).
    destruct (submission_times self !! n) as [stored|].
    - destruct H as (t0 & -> & (g & Hg & Hgs) & Hmax). exists t0.
      split; [done|]. split.
      + exists g. split; [|done]. apply elem_of_app. by left.
      + intros g' t' [Hin|[->|[]%elem_of_nil]%elem_of_cons]%elem_of_app Hs'.
        * by apply (Hmax g').
        * apply Hsub in Hs' as [-> _]. done.
    - intros g t' [Hin|[->|[]%elem_of_nil]%elem_of_cons]%elem_of_app.
      + by apply H.
      + intros [-> _]%Hsub. done. }
  assert (f ∈ files ++ [f]) as Hf by (apply elem_of_app; right; by left).
  pose proof (H m) as Hm.
  destruct (submission_times self !! m) as [stored|] eqn:Es.
  - destruct Hm as (t0 & -> & (g & Hg & Hgs) & Hmax).
    destruct (Z.ltb_spec t0 t); injection E as <-.
    + intros n. destruct (decide (n = m)) as [->|Hne].
      * simpl. rewrite lookup_insert_eq. exists t. split; [done|]. split.
        -- exists f. split; [done|]. by apply Hsub.
        -- intros g' t' [Hin|[->|[]%elem_of_nil]%elem_of_cons]%elem_of_app Hs.
           ++ specialize (Hmax g' t' Hin Hs). lia.
           ++ apply Hsub in Hs as [_ ->]. lia.
      * apply Hother; [|done]. intros k Hk. simpl. by rewrite lookup_insert_ne.
    + intros n. destruct (decide (n = m)) as [->|Hne].
      * rewrite Es. exists t0. split; [done|]. split.
        -- exists g. split; [|done]. apply elem_of_app. by left.
        -- intros g' t' [Hin|[->|[]%elem_of_nil]%elem_of_cons]%elem_of_app Hs.
           ++ by apply (Hmax g').
           ++ apply Hsub in Hs as [_ ->]. lia.
      * by apply Hother.
  - injection E as <-. intros n. destruct (decide (n = m)) as [->|Hne].
    + simpl. rewrite lookup_insert_eq. exists t. split; [done|]. split.
      * exists f. split; [done|]. by apply Hsub.
      * intros g' t' [Hin|[->|[]%elem_of_nil]%elem_of_cons]%elem_of_app Hs.
        -- by destruct (Hm g' t' Hin).
        -- apply Hsub in Hs as [_ ->]. lia.
    + apply Hother; [|done]. intros k Hk. simpl. by rewrite lookup_insert_ne.
Qed.

Lemma kept_loop todo files self self' :
  team_names self = names ->
  setup_submissions parse_date teams_root todo allow self = Returns self' ->
  kept files self -> kept (files ++ todo) self'.
Proof.
  revert files self. induction todo as [|f todo IH]; intros files self Hn; simpl.
  - intros [= <-]. by rewrite app_nil_r.
  - replace (files ++ f :: todo) with ((files ++ [f]) ++ todo)
      by (by rewrite <- app_assoc).
    destruct (endswith f (lit ".zip")) eqn:Hzip.
    + destruct (_setup_team parse_date (join teams_root [f]) false allow self)
        as [self1|code|] eqn:E; [|done|done].
      intros E' H. apply (IH _ self1); [|done|by apply (kept_step _ _ self)].
      pose proof (setup_team_step parse_date (join teams_root [f]) false allow
                    self) as Hstep.
      rewrite E in Hstep. destruct Hstep as [-> _]. done.
    + intros E' H. apply (IH _ self); [done|done|].
      apply kept_skip; [|done]. intros n t [Hz _]. congruence.
Qed.

End loop.
End LatestSubmission.

(** X21.  When the staff team is included, with the team names
    [_load_teams] read, it is the last team of [self.teams], under the
    name [staff_team] with the factory [teams/staff_team/myTeam.py] and
    without a submission time, and no other team has that name. *)
Theorem X21_staff_team_is_last (parse_date : option bytes -> option Z)
    (path_exists : bytes -> bool)
    (rows : list (list string)) (names : gmap string string)
    (teams_root : bytes) (listing : list bytes)
    (allow_non_registered_students : bool)
    (self : PacmanSshContestSetup.Setup) :
  TeamNames._load_teams rows = Ok names ->
  PacmanSshContestSetup.setup_teams parse_date path_exists names teams_root
    listing true allow_non_registered_students
  = PacmanSshContestSetup.Returns self ->
  exists students,
    PacmanSshContestSetup.teams self
    = students ++ [("staff_team", "teams/staff_team/myTeam.py")%string]
    /\ ("staff_team"%string ∉ (students.*1))
    /\ PacmanSshContestSetup.submission_times self !! "staff_team"%string
       = Some None.
Proof.
  intros Hload. unfold PacmanSshContestSetup.setup_teams.
  assert (forall sid n, names !! sid = Some n -> well_named n) as Hnames.
  { intros sid n Hs.
    by destruct (TeamNamesFacts.load_teams_names rows names sid n Hload Hs). }
  destruct (SetupLoop.students_loop parse_date names teams_root listing
              allow_non_registered_students Hnames)
    as (self1 & -> & _ & [_ Hkeys] & Ht).
  assert ("staff_team"%string ∉ (PacmanSshContestSetup.teams self1).*1) as Hno.
  { intros ([n f] & Hn & Hin)%list_elem_of_fmap. simpl in Hn. subst n.
    destruct (Ht _ _ Hin) as [_ Hst].
    by apply (SetupLoop.student_team_not_staff _ _ _ Hnames Hst). }
  destruct (path_exists PacmanSshContestSetup.STAFF_TEAM_ZIP_FILE);
    simpl; [|done].
  rewrite SetupFacts.setup_staff.
  destruct (PacmanSshContestSetup.submission_times self1 !! "staff_team"%string)
    eqn:Es.
  - destruct Hno. apply Hkeys. by rewrite Es.
  - intros [= <-]. exists (PacmanSshContestSetup.teams self1). simpl.
    split; [done|]. split; [done|]. by rewrite lookup_insert_eq.
Qed.

(** X22.  After the loop over the submissions directory,
    [self.submission_times] holds for every team the time of its latest
    dated submission among the files read, whatever their order; a team
    without such a file has no entry. *)
Theorem X22_latest_submission_kept (parse_date : option bytes -> option Z)
    (names : gmap string string) (teams_root : bytes) (listing : list bytes)
    (allow_non_registered_students : bool)
    (self : PacmanSshContestSetup.Setup) :
  PacmanSshContestSetup.setup_submissions parse_date teams_root listing
    allow_non_registered_students (PacmanSshContestSetup.mkSetup names [] ∅)
  = PacmanSshContestSetup.Returns self ->
  latest_kept parse_date names teams_root allow_non_registered_students
    listing self.
Proof.
  intros E.
  apply (LatestSubmission.kept_loop parse_date names teams_root
           allow_non_registered_students listing []
           (PacmanSshContestSetup.mkSetup names [] ∅) self eq_refl E).
  intros n. simpl. rewrite lookup_empty. by intros f t ?%elem_of_nil.
Qed.

Lemma X22_latest_submission_kept_witness :
  exists self,
    PacmanSshContestSetup.setup_submissions demo_parse_date (lit "subs")
      demo_listing true (PacmanSshContestSetup.mkSetup ∅ [] ∅)
    = PacmanSshContestSetup.Returns self
    /\ latest_kept demo_parse_date ∅ (lit "subs") true demo_listing self.
Proof.
  assert (exists self,
            PacmanSshContestSetup.setup_submissions demo_parse_date
              (lit "subs") demo_listing true
              (PacmanSshContestSetup.mkSetup ∅ [] ∅)
            = PacmanSshContestSetup.Returns self)
    as [self E] by (eexists; vm_compute; reflexivity).
  exists self. split; [exact E|].
  exact (X22_latest_submission_kept demo_parse_date ∅ (lit "subs")
           demo_listing true self E).
Defined.

Lemma X21_staff_team_is_last_witness :
  exists self students,
    PacmanSshContestSetup.setup_teams demo_parse_date all_there
      (<["s111"%string := "The_ANOT_FUNNYTeam"%string]>
         (<["STUDENT_ID"%string := "TEAM_NAME"%string]> ∅))
      (lit "subs") demo_listing true false
    = PacmanSshContestSetup.Returns self
    /\ PacmanSshContestSetup.teams self
       = students ++ [("staff_team", "teams/staff_team/myTeam.py")%string].
Proof.
  assert (TeamNames._load_teams demo_rows
          = Ok (<["s111"%string := "The_ANOT_FUNNYTeam"%string]>
                  (<["STUDENT_ID"%string := "TEAM_NAME"%string]> ∅)))
    as Hload by (vm_compute; reflexivity).
  assert (exists self,
            PacmanSshContestSetup.setup_teams demo_parse_date all_there
              (<["s111"%string := "The_ANOT_FUNNYTeam"%string]>
                 (<["STUDENT_ID"%string := "TEAM_NAME"%string]> ∅))
              (lit "subs") demo_listing true false
            = PacmanSshContestSetup.Returns self)
    as [self E] by (eexists; vm_compute; reflexivity).
  destruct (X21_staff_team_is_last demo_parse_date all_there demo_rows _
              (lit "subs")
              demo_listing false self Hload E) as (students & Ht & _).
  exists self, students. split; [exact E | exact Ht].
Defined.

(** ** Setting up the teams of [ssh_commands_script.py] *)

Module SshSetupFacts.
Import PyStr OsPath SshCommandsScriptSetup PyStrFacts.

Lemma zip_name f :
  endswith f (lit ".zip") = true -> f = drop_last4 f ++ lit ".zip".
Proof.
  intros [front ->]%endswith_iff. by rewrite drop_last4_app.
Qed.

Lemma ssh_setup_team_name root f acc :
  plain_name f ->
  (_setup_team (join root [f]) acc).*1 = acc.*1 ++ [str (drop_last4 f)].
Proof.
  intros Hf. unfold _setup_team. rewrite fmap_app. simpl.
  by rewrite basename_join.
Qed.

Lemma ssh_submissions_names root listing acc :
  Forall plain_name listing ->
  (setup_submissions root listing acc).*1
  = acc.*1 ++ ((fun f => str (drop_last4 f))
                 <$> filter (fun f => endswith f (lit ".zip") = true) listing).
Proof.
  unfold setup_submissions. intros H. revert acc.
  induction H as [|f listing Hf _ IH]; intros acc; simpl.
  - by rewrite app_nil_r.
  - rewrite IH. destruct (endswith f (lit ".zip")) eqn:Hz.
    + rewrite filter_cons_True by done.
      rewrite ssh_setup_team_name by done. by rewrite <- app_assoc.
    + rewrite filter_cons_False; [done|]. by rewrite Hz.
Qed.

Lemma ssh_staff_name acc :
  (_setup_team STAFF_TEAM_ZIP_FILE acc).*1 = acc.*1 ++ ["staff_team"%string].
Proof. unfold _setup_team. by rewrite fmap_app. Qed.

Lemma zip_names_inj f g :
  endswith f (lit ".zip") = true -> endswith g (lit ".zip") = true ->
  str (drop_last4 f) = str (drop_last4 g) -> f = g.
Proof.
  intros Hf Hg H%str_inj. rewrite (zip_name f Hf), (zip_name g Hg). by rewrite H.
Qed.

End SshSetupFacts.

(** X23.  In [ssh_commands_script.py] every zip file of the teams
    directory becomes a team, named after the file.  With the distinct
    names [os.listdir] returns, the team names are pairwise distinct
    unless the staff team is included and the directory holds a file
    [staff_team.zip], which then enters twice. *)
Theorem X23_ssh_team_names (teams_root : bytes) (listing : list bytes)
    (include_staff_team : bool) :
  Forall plain_name listing -> NoDup listing ->
  (SshCommandsScriptSetup.setup_teams teams_root listing include_staff_team).*1
  = ((fun f => PyStr.str (PyStr.drop_last4 f))
       <$> filter (fun f => PyStr.endswith f (lit ".zip") = true) listing)
    ++ (if include_staff_team then ["staff_team"%string] else [])
  /\ (NoDup (SshCommandsScriptSetup.setup_teams teams_root listing
               include_staff_team).*1
      <-> ~ (include_staff_team = true /\ lit "staff_team.zip" ∈ listing)).
Proof.
  intros Hplain Hnd.
  assert ((SshCommandsScriptSetup.setup_teams teams_root listing
             include_staff_team).*1
          = ((fun f => PyStr.str (PyStr.drop_last4 f))
               <$> filter (fun f => PyStr.endswith f (lit ".zip") = true) listing)
            ++ (if include_staff_team then ["staff_team"%string] else []))
    as Hnames.
  { unfold SshCommandsScriptSetup.setup_teams. destruct include_staff_team.
    - rewrite SshSetupFacts.ssh_staff_name.
      by rewrite SshSetupFacts.ssh_submissions_names.
    - rewrite SshSetupFacts.ssh_submissions_names by done.
      by rewrite app_nil_r. }
  split; [done|]. rewrite Hnames.
  assert (NoDup ((fun f => PyStr.str (PyStr.drop_last4 f))
                   <$> filter (fun f => PyStr.endswith f (lit ".zip") = true)
                         listing)) as Hstudents.
  { apply NoDup_fmap_2_strong; [|by apply NoDup_filter].
    intros f g [Hf _]%list_elem_of_filter [Hg _]%list_elem_of_filter.
    by apply SshSetupFacts.zip_names_inj. }
  destruct include_staff_team.
  - rewrite NoDup_app. split.
    + intros (_ & Hdis & _) [_ Hin]. apply (Hdis "staff_team"%string).
      * apply list_elem_of_fmap. exists (lit "staff_team.zip").
        split; [vm_compute; reflexivity|].
        apply list_elem_of_filter. split; [vm_compute; reflexivity | done].
      * by left.
    + intros Hno. split; [done|]. split; [|apply NoDup_singleton].
      intros n Hn [->|[]%elem_of_nil]%elem_of_cons. apply Hno. split; [done|].
      apply list_elem_of_fmap in Hn as (f & Hf & [Hz Hin]%list_elem_of_filter).
      replace (lit "staff_team.zip") with f; [done|].
      apply SshSetupFacts.zip_names_inj; [done | vm_compute; reflexivity|].
      rewrite <- Hf. vm_compute; reflexivity.
  - rewrite app_nil_r. split; [by intros _ [[=] _] | done].
Qed.

Lemma X23_ssh_team_names_witness :
  NoDup (SshCommandsScriptSetup.setup_teams (lit "teams")
           [lit "alpha.zip"; lit "README"; lit "beta.zip"] true).*1.
Proof.
  refine (proj2 (proj2 (X23_ssh_team_names (lit "teams")
                          [lit "alpha.zip"; lit "README"; lit "beta.zip"] true
                          _ _)) _).
  - repeat (apply Forall_cons; split;
              [vm_compute; repeat (constructor; [discriminate|]); constructor|]).
    apply Forall_nil_2.
  - apply (bool_decide_unpack _). vm_compute. reflexivity.
  - intros [_ Hin]. revert Hin.
    change (lit "staff_team.zip"
              ∉ [lit "alpha.zip"; lit "README"; lit "beta.zip"]).
    apply (bool_decide_unpack _). vm_compute. reflexivity.
Defined.

(** ** The settings *)

Module SettingsFacts.
Import Settings.

Lemma set_if_given_other key x s k :
  k ≠ key -> set_if_given key x s !! k = s !! k.
Proof.
  intros Hne. unfold set_if_given. destruct x as [[|c r]|]; [done| |done].
  by rewrite lookup_insert_ne.
Qed.

Lemma set_if_given_some key x s k :
  is_Some (s !! k) -> is_Some (set_if_given key x s !! k).
Proof.
  intros Hs. unfold set_if_given. destruct x as [[|c r]|]; [done| |done].
  destruct (decide (k = key)) as [->|Hne].
  - by rewrite lookup_insert_eq.
  - by rewrite lookup_insert_ne.
Qed.

Lemma set_if_given_key key x s :
  set_if_given key x s !! key
  = if given x then Some (of_option x) else s !! key.
Proof.
  unfold set_if_given. destruct x as [[|c r]|]; [done| |done].
  by rewrite lookup_insert_eq.
Qed.

Lemma set_if_true_other key flag s k :
  k ≠ key -> set_if_true key flag s !! k = s !! k.
Proof.
  intros Hne. unfold set_if_true. destruct flag; [|done].
  by rewrite lookup_insert_ne.
Qed.

Lemma set_if_true_some key flag s k :
  is_Some (s !! k) -> is_Some (set_if_true key flag s !! k).
Proof.
  intros Hs. unfold set_if_true. destruct flag; [|done].
  destruct (decide (k = key)) as [->|Hne].
  - by rewrite lookup_insert_eq.
  - by rewrite lookup_insert_ne.
Qed.

Lemma set_if_true_key key flag s :
  set_if_true key flag s !! key = if flag then Some (VBool true) else s !! key.
Proof.
  unfold set_if_true. destruct flag; [|done]. by rewrite lookup_insert_eq.
Qed.

Lemma set_int_if_given_Ok key x s s' :
  set_int_if_given key x s = Ok s' ->
  (forall k, k ≠ key -> s' !! k = s !! k)
  /\ (forall k, is_Some (s !! k) -> is_Some (s' !! k))
  /\ (if given x
      then exists n, (exists y, x = Some y /\ int y = Ok n)
                     /\ s' !! key = Some (VInt n)
      else s' = s).
Proof.
  unfold set_int_if_given. destruct x as [[|c r]|]; simpl.
  - by intros [= <-].
  - destruct (int (c :: r)) as [n|] eqn:En; simpl; [|done]. intros [= <-].
    split; [|split].
    + intros k Hne. by rewrite lookup_insert_ne.
    + intros k Hs. destruct (decide (k = key)) as [->|Hne].
      * by rewrite lookup_insert_eq.
      * by rewrite lookup_insert_ne.
    + exists n. split; [by exists (c :: r)|]. by rewrite lookup_insert_eq.
  - by intros [= <-].
Qed.


Lemma insert_some {V : Type} key (v : V) (s : gmap string V) k :
  is_Some (s !! k) -> is_Some (<[key := v]> s !! k).
Proof.
  intros Hs. destruct (decide (k = key)) as [->|Hne].
  - by rewrite lookup_insert_eq.
  - by rewrite lookup_insert_ne.
Qed.

End SettingsFacts.

Module PacmanSettingsFacts.
Import Settings PacmanSshContestSettings SettingsFacts.

(** What [fill] leaves under the keys it always sets, and under
    [no_fixed_layouts]. *)
Lemma fill_keys args s0 s :
  fill args s0 = Ok s ->
  is_Some (s !! "include_staff_team"%string)
  /\ is_Some (s !! "max_steps"%string)
  /\ s !! "allow_non_registered_students"%string
     = Some (VBool (allow_non_registered_students args))
  /\ (no_fixed_layouts args ≠ Some [] ->
      exists n,
        s !! "no_fixed_layouts"%string = Some (VInt n)
        /\ match no_fixed_layouts args with
           | None => n = 3
           | Some x => int x = Ok n
           end).
Proof.
  unfold fill.
  set (s1 := set_if_true "compress_logs" _ (set_if_given "organizer" _ s0)).
  set (s2 := if include_staff_team args then _ else _).
  assert (is_Some (s2 !! "include_staff_team"%string)) as Hstaff.
  { unfold s2. destruct (include_staff_team args).
    - by rewrite lookup_insert_eq.
    - destruct (s1 !! "include_staff_team"%string) eqn:E1; [by rewrite E1|].
      by rewrite lookup_insert_eq. }
  set (s3 := set_if_given "output_path" _ (set_if_given "teams_root" _ s2)).
  assert (is_Some (s3 !! "include_staff_team"%string)) as Hstaff3
    by (by do 2 apply set_if_given_some).
  clearbody s3. clear Hstaff.
  intros (s4 & E4 & E)%bind_Ok.
  apply bind_Ok in E as (s5 & E5 & E).
  apply bind_Ok in E as (s6 & E6 & E). injection E as <-.
  apply set_int_if_given_Ok in E5 as (H5o & H5s & _).
  assert (is_Some (s4 !! "include_staff_team"%string)
          /\ (no_fixed_layouts args ≠ Some [] ->
              exists n,
                s4 !! "no_fixed_layouts"%string = Some (VInt n)
                /\ match no_fixed_layouts args with
                   | None => n = 3
                   | Some x => int x = Ok n
                   end)) as [Hstaff4 Hfixed4].
  { destruct (no_fixed_layouts args) as [x|].
    - apply set_int_if_given_Ok in E4 as (_ & H4s & H4k). split; [auto|].
      intros Hx. destruct x as [|c r]; [done|]. simpl in H4k.
      destruct H4k as (n & (y & [= <-] & Hy) & Hn). eauto.
    - injection E4 as <-. split; [by apply insert_some|]. intros _.
      exists 3. by rewrite lookup_insert_eq. }
  assert (is_Some (s6 !! "include_staff_team"%string)
          /\ is_Some (s6 !! "max_steps"%string)
          /\ s6 !! "no_fixed_layouts"%string = s4 !! "no_fixed_layouts"%string)
    as (Hstaff6 & Hmax6 & Hfixed6).
  { destruct (given (max_steps args)) eqn:Hg.
    - apply set_int_if_given_Ok in E6 as (H6o & H6s & H6k). rewrite Hg in H6k.
      destruct H6k as (n & _ & Hn). split; [auto|]. split; [by rewrite Hn|].
      rewrite H6o by done. by apply H5o.
    - destruct (s5 !! "max_steps"%string) eqn:Em; injection E6 as <-.
      + split; [auto|]. split; [by rewrite Em|]. by apply H5o.
      + split; [by apply insert_some; auto|].
        split; [by rewrite lookup_insert_eq|].
        rewrite lookup_insert_ne by done. by apply H5o. }
  split; [by apply insert_some; do 2 apply set_if_given_some|].
  split; [by apply insert_some; do 2 apply set_if_given_some|].
  split; [by rewrite lookup_insert_eq|].
  intros Hx. destruct (Hfixed4 Hx) as (n & Hn & Hv). exists n. split; [|done].
  rewrite lookup_insert_ne, !set_if_given_other by done. congruence.
Qed.



Lemma gather_config read_json args :
  gather read_json args
  = match config_of read_json args with
    | NoFile =>
        match fill args ∅ with
        | Ok settings => Returned settings
        | Raise e => Raised e
        end
    | Unreadable => Raised IOError
    | NotJson => Raised ValueError
    | NotObject => fill_other args
    | Object loaded =>
        match fill args loaded with
        | Ok settings => Returned settings
        | Raise e => Raised e
        end
    end.
Proof.
  unfold gather, config_of. by destruct (config_file args).
Qed.

Lemma gather_Returned read_json args s :
  gather read_json args = Returned s ->
  exists s0,
    fill args s0 = Ok s
    /\ (config_of read_json args = Object s0
        \/ (config_of read_json args = NoFile /\ s0 = ∅)).
Proof.
  rewrite gather_config.
  destruct (config_of read_json args) as [| | | |loaded]; try done.
  - destruct (fill args ∅) as [s'|] eqn:E; [|done]. intros [= <-].
    exists ∅. auto.
  - unfold fill_other. by destruct (_ || _)%bool.
  - destruct (fill args loaded) as [s'|] eqn:E; [|done]. intros [= <-].
    exists loaded. auto.
Qed.

Lemma load_settings_Returned read_json args s w :
  load_settings read_json args = Returned (s, w) ->
  gather read_json args = Returned s.
Proof.
  unfold load_settings.
  destruct (gather read_json args) as [s'| | | |]; try done.
  destruct (s' !! "organizer"%string); [|done].
  destruct (build_config_file args).
  - destruct (config_file args); [|done]. by intros [= <- <-].
  - by intros [= <- <-].
Qed.

End PacmanSettingsFacts.

(** X24.  Whenever [load_settings] of [pacman-ssh-contest.py] returns,
    the settings hold an organizer, [include_staff_team] and [max_steps],
    and [allow_non_registered_students] is the flag of the command line,
    whatever the configuration file says. *)
Theorem X24_settings_always_set
    (read_json : bytes -> Settings.config)
    (args : PacmanSshContestSettings.Args) (settings : Settings.settings)
    (written : option (bytes * Settings.settings)) :
  PacmanSshContestSettings.load_settings read_json args
  = Settings.Returned (settings, written) ->
  is_Some (settings !! "organizer"%string)
  /\ is_Some (settings !! "include_staff_team"%string)
  /\ is_Some (settings !! "max_steps"%string)
  /\ settings !! "allow_non_registered_students"%string
     = Some (Settings.VBool
               (PacmanSshContestSettings.allow_non_registered_students args)).
Proof.
  intros E.
  pose proof (PacmanSettingsFacts.load_settings_Returned _ _ _ _ E) as Eg.
  destruct (PacmanSettingsFacts.gather_Returned _ _ _ Eg) as (s0 & Ef & _).
  destruct (PacmanSettingsFacts.fill_keys _ _ _ Ef) as (Hs & Hm & Ha & _).
  split; [|done].
  unfold PacmanSshContestSettings.load_settings in E. rewrite Eg in E.
  by destruct (settings !! "organizer"%string).
Qed.

Lemma X24_settings_always_set_witness :
  exists settings,
    PacmanSshContestSettings.load_settings no_file only_organizer
    = Settings.Returned (settings, None)
    /\ settings !! "allow_non_registered_students"%string
       = Some (Settings.VBool false).
Proof.
  assert (exists settings,
            PacmanSshContestSettings.load_settings no_file only_organizer
            = Settings.Returned (settings, None))
    as [settings E] by (eexists; vm_compute; reflexivity).
  exists settings. split; [exact E|].
  exact (proj2 (proj2 (proj2
           (X24_settings_always_set no_file only_organizer settings None E)))).
Defined.

(** X25.  The [no_fixed_layouts] of the configuration file is never
    used: unless the empty string is passed for it, the setting
    [load_settings] returns is the number of the command line, or [3]
    when the option is not passed. *)
Theorem X25_fixed_layouts_from_command_line
    (read_json : bytes -> Settings.config)
    (args : PacmanSshContestSettings.Args) (settings : Settings.settings)
    (written : option (bytes * Settings.settings)) :
  PacmanSshContestSettings.load_settings read_json args
  = Settings.Returned (settings, written) ->
  PacmanSshContestSettings.no_fixed_layouts args ≠ Some [] ->
  exists n,
    settings !! "no_fixed_layouts"%string = Some (Settings.VInt n)
    /\ match PacmanSshContestSettings.no_fixed_layouts args with
       | None => n = 3
       | Some x => int x = Ok n
       end.
Proof.
  intros E.
  pose proof (PacmanSettingsFacts.load_settings_Returned _ _ _ _ E) as Eg.
  destruct (PacmanSettingsFacts.gather_Returned _ _ _ Eg) as (s0 & Ef & _).
  by destruct (PacmanSettingsFacts.fill_keys _ _ _ Ef) as (_ & _ & _ & Hf).
Qed.

Lemma X25_fixed_layouts_from_command_line_witness :
  exists settings n,
    PacmanSshContestSettings.load_settings seven_layouts with_config_file
    = Settings.Returned (settings, None)
    /\ settings !! "no_fixed_layouts"%string = Some (Settings.VInt n)
    /\ n = 3.
Proof.
  assert (exists settings,
            PacmanSshContestSettings.load_settings seven_layouts
              with_config_file
            = Settings.Returned (settings, None))
    as [settings E] by (eexists; vm_compute; reflexivity).
  destruct (X25_fixed_layouts_from_command_line _ _ settings None E)
    as (n & Hn & Hv); [discriminate|].
  exists settings, n. split; [exact E|]. split; [exact Hn | exact Hv].
Defined.



Module PacmanMainFacts.
Import Settings PacmanSshContestSettings SettingsFacts.

(** What [fill] leaves in an empty dictionary under the keys only the
    command line can set. *)
Lemma fill_fresh args s :
  fill args ∅ = Ok s ->
  (is_Some (s !! "organizer"%string) -> given (organizer args) = true)
  /\ (is_Some (s !! "teams_root"%string) -> given (teams_root args) = true)
  /\ (is_Some (s !! "output_path"%string) -> given (output_path args) = true)
  /\ (is_Some (s !! "team_names_file"%string) ->
      given (team_names_file args) = true)
  /\ (is_Some (s !! "workers_file_path"%string) ->
      given (workers_file_path args) = true)
  /\ (is_Some (s !! "compress_logs"%string) -> compress_logs args = true)
  /\ (is_Some (s !! "no_random_layouts"%string) ->
      given (no_random_layouts args) = true).
Proof.
  unfold fill.
  set (s1 := set_if_true "compress_logs" _ (set_if_given "organizer" _ ∅)).
  set (s2 := if include_staff_team args then _ else _).
  assert (forall k, k ≠ "include_staff_team"%string -> s2 !! k = s1 !! k) as H2.
  { intros k Hk. unfold s2. destruct (include_staff_team args).
    - by rewrite lookup_insert_ne.
    - destruct (s1 !! "include_staff_team"%string); [done|].
      by rewrite lookup_insert_ne. }
  clearbody s2.
  intros (s4 & E4 & E)%bind_Ok.
  apply bind_Ok in E as (s5 & E5 & E).
  apply bind_Ok in E as (s6 & E6 & E). injection E as <-.
  assert (forall k, k ≠ "no_fixed_layouts"%string ->
            s4 !! k
            = set_if_given "output_path" (output_path args)
                (set_if_given "teams_root" (teams_root args) s2) !! k) as H4.
  { intros k Hk. destruct (no_fixed_layouts args).
    - apply set_int_if_given_Ok in E4 as (H4 & _ & _). by apply H4.
    - injection E4 as <-. by rewrite lookup_insert_ne. }
  assert (forall k, k ≠ "max_steps"%string -> s6 !! k = s5 !! k) as H6.
  { intros k Hk. destruct (given (max_steps args)).
    - apply set_int_if_given_Ok in E6 as (H6 & _ & _). by apply H6.
    - destruct (s5 !! "max_steps"%string); injection E6 as <-; [done|].
      by rewrite lookup_insert_ne. }
  apply set_int_if_given_Ok in E5 as (H5 & _ & H5k).
  unfold s1 in H2. clear s1 E4 E6.
  repeat split.
  - rewrite lookup_insert_ne, !set_if_given_other, H6, H5, H4 by done.
    rewrite !set_if_given_other, H2, set_if_true_other by done.
    rewrite set_if_given_key. destruct (given (organizer args)); [done|].
    rewrite lookup_empty. by intros [].
  - rewrite lookup_insert_ne, !set_if_given_other, H6, H5, H4 by done.
    rewrite set_if_given_other, set_if_given_key by done.
    destruct (given (teams_root args)); [done|].
    rewrite H2, set_if_true_other, set_if_given_other by done.
    rewrite lookup_empty. by intros [].
  - rewrite lookup_insert_ne, !set_if_given_other, H6, H5, H4 by done.
    rewrite set_if_given_key.
    destruct (given (output_path args)); [done|].
    rewrite set_if_given_other, H2, set_if_true_other, set_if_given_other
      by done.
    rewrite lookup_empty. by intros [].
  - rewrite lookup_insert_ne, set_if_given_other, set_if_given_key by done.
    destruct (given (team_names_file args)); [done|].
    rewrite H6, H5, H4 by done.
    rewrite !set_if_given_other, H2, set_if_true_other, set_if_given_other
      by done.
    rewrite lookup_empty. by intros [].
  - rewrite lookup_insert_ne, set_if_given_key by done.
    destruct (given (workers_file_path args)); [done|].
    rewrite set_if_given_other, H6, H5, H4 by done.
    rewrite !set_if_given_other, H2, set_if_true_other, set_if_given_other
      by done.
    rewrite lookup_empty. by intros [].
  - rewrite lookup_insert_ne, !set_if_given_other, H6, H5, H4 by done.
    rewrite !set_if_given_other, H2, set_if_true_key by done.
    destruct (compress_logs args); [done|].
    rewrite set_if_given_other by done.
    rewrite lookup_empty. by intros [].
  - rewrite lookup_insert_ne, !set_if_given_other, H6 by done.
    destruct (given (no_random_layouts args)); [done|]. subst s5.
    rewrite H4 by done.
    rewrite !set_if_given_other, H2, set_if_true_other, set_if_given_other
      by done.
    rewrite lookup_empty. by intros [].
Qed.

Lemma binds_required required optional s k :
  binds required optional s = true -> k ∈ required -> is_Some (s !! k).
Proof.
  unfold binds. intros [Hr _]%andb_true_iff Hk.
  rewrite forallb_forall in Hr. apply list_elem_of_In in Hk.
  apply Hr in Hk. by apply bool_decide_eq_true in Hk.
Qed.

End PacmanMainFacts.

(** X27.  Without a configuration file, [__main__] of
    [pacman-ssh-contest.py] gets as far as a [ContestRunner] only when the
    command line names the organizer, the teams directory, the output
    path, the team names file, the workers file and the number of random
    layouts, and passes [--compress-logs]: these settings have no
    default. *)
Theorem X27_command_line_needed
    (read_json : bytes -> Settings.config)
    (args : PacmanSshContestSettings.Args) :
  PacmanSshContestSettings.config_file args = None ->
  PacmanSshContestSettings.main_binds read_json args = Settings.Returned true ->
  Settings.given (PacmanSshContestSettings.organizer args) = true
  /\ Settings.given (PacmanSshContestSettings.teams_root args) = true
  /\ Settings.given (PacmanSshContestSettings.output_path args) = true
  /\ Settings.given (PacmanSshContestSettings.team_names_file args) = true
  /\ Settings.given (PacmanSshContestSettings.workers_file_path args) = true
  /\ PacmanSshContestSettings.compress_logs args = true
  /\ Settings.given (PacmanSshContestSettings.no_random_layouts args) = true.
Proof.
  intros Hc. unfold PacmanSshContestSettings.main_binds,
    PacmanSshContestSettings.load_settings,
    PacmanSshContestSettings.gather.
  rewrite Hc.
  destruct (PacmanSshContestSettings.fill args ∅) as [s|] eqn:E; [|done].
  destruct (PacmanMainFacts.fill_fresh _ _ E)
    as (Ho & Ht & Hp & Hn & Hw & Hl & Hr).
  destruct (s !! "organizer"%string) eqn:Eo; [|done].
  destruct (PacmanSshContestSettings.build_config_file args); [done|].
  destruct (s !! "workers_file_path"%string) eqn:Ew; [|done].
  intros [= Hb].
  assert (is_Some (s !! "workers_file_path"%string)) as Hwork
    by (by rewrite Ew).
  assert (forall k, k ∈ PacmanSshContestSettings.init_parameters ->
            is_Some (s !! k)) as Hreq.
  { intros k Hk.
    pose proof (PacmanMainFacts.binds_required _ _ _ k Hb Hk) as [x Hx].
    apply lookup_delete_Some in Hx as [_ Hx]. by rewrite Hx. }
  split; [by apply Ho|].
  split; [apply Ht, Hreq; by apply (bool_decide_unpack _)|].
  split; [apply Hp, Hreq; by apply (bool_decide_unpack _)|].
  split; [apply Hn, Hreq; by apply (bool_decide_unpack _)|].
  split; [by apply Hw|].
  split; [apply Hl, Hreq; by apply (bool_decide_unpack _)|].
  apply Hr, Hreq; by apply (bool_decide_unpack _).
Qed.

Lemma X27_command_line_needed_witness :
  Settings.given (PacmanSshContestSettings.organizer full_command_line) = true
  /\ Settings.given (PacmanSshContestSettings.teams_root full_command_line)
     = true
  /\ Settings.given (PacmanSshContestSettings.output_path full_command_line)
     = true
  /\ Settings.given (PacmanSshContestSettings.team_names_file full_command_line)
     = true
  /\ Settings.given
       (PacmanSshContestSettings.workers_file_path full_command_line) = true
  /\ PacmanSshContestSettings.compress_logs full_command_line = true
  /\ Settings.given
       (PacmanSshContestSettings.no_random_layouts full_command_line) = true.
Proof.
  apply (X27_command_line_needed no_file full_command_line).
  - reflexivity.
  - vm_compute. reflexivity.
Defined.

(** X28.  Whenever [load_settings] of [ssh_commands_script.py] returns,
    it has written the settings it returns to [config.json], and they
    hold an organizer.  Host and user are taken from the command line
    exactly when [--organizer] is passed, then replacing those of the
    configuration file, by [None] when not passed themselves; without
    [--organizer] the [--host] and [--user] of the command line are
    dropped.  The teams directory of the configuration file is never
    used, unless the empty string is passed for it. *)
Theorem X28_ssh_host_and_user (config : option Settings.settings)
    (args : SshCommandsScriptSettings.Args)
    (settings written : Settings.settings) :
  SshCommandsScriptSettings.load_settings config args
  = Settings.Returned (settings, written) ->
  written = settings
  /\ is_Some (settings !! "organizer"%string)
  /\ (if Settings.given (SshCommandsScriptSettings.organizer args)
      then settings !! "host"%string
           = Some (Settings.of_option (SshCommandsScriptSettings.host args))
           /\ settings !! "user"%string
              = Some (Settings.of_option (SshCommandsScriptSettings.user args))
      else settings !! "host"%string = default ∅ config !! "host"%string
           /\ settings !! "user"%string = default ∅ config !! "user"%string)
  /\ (SshCommandsScriptSettings.teams_root args ≠ Some [] ->
      settings !! "teams_root"%string
      = Some (Settings.VStr
                (default (lit "teams")
                   (SshCommandsScriptSettings.teams_root args)))).
Proof.
  unfold SshCommandsScriptSettings.load_settings.
  destruct (SshCommandsScriptSettings.gather config args
              !! "organizer"%string) eqn:Eo; [|done].
  intros [= <- <-]. split; [done|]. split; [by rewrite Eo|].
  unfold SshCommandsScriptSettings.gather.
  replace (match config with Some loaded => loaded | None => ∅ end)
    with (default ∅ config) by (by destruct config).
  split.
  - destruct (Settings.given (SshCommandsScriptSettings.organizer args)).
    + split.
      * rewrite SettingsFacts.set_if_given_other,
          !SettingsFacts.set_if_true_other by done.
        by rewrite lookup_insert_ne, lookup_insert_eq.
      * rewrite SettingsFacts.set_if_given_other,
          !SettingsFacts.set_if_true_other by done.
        by rewrite lookup_insert_eq.
    + split.
      * by rewrite SettingsFacts.set_if_given_other,
          !SettingsFacts.set_if_true_other, SettingsFacts.set_if_given_other
          by done.
      * by rewrite SettingsFacts.set_if_given_other,
          !SettingsFacts.set_if_true_other, SettingsFacts.set_if_given_other
          by done.
  - intros Ht. rewrite SettingsFacts.set_if_given_key.
    unfold SshCommandsScriptSettings.teams_root_arg.
    destruct (SshCommandsScriptSettings.teams_root args) as [[|c r]|]; done.
Qed.

Lemma X28_ssh_host_and_user_witness :
  exists settings,
    SshCommandsScriptSettings.load_settings
      (Some (<["organizer"%string := Settings.VStr (lit "RMIT")]>
               (<["host"%string := Settings.VStr (lit "old.example")]> ∅)))
      (SshCommandsScriptSettings.mkArgs None (Some (lit "new.example")) None
         None None false false)
    = Settings.Returned (settings, settings)
    /\ settings !! "host"%string = Some (Settings.VStr (lit "old.example")).
Proof.
  assert (exists settings,
            SshCommandsScriptSettings.load_settings
              (Some (<["organizer"%string := Settings.VStr (lit "RMIT")]>
                       (<["host"%string := Settings.VStr (lit "old.example")]> ∅)))
              (SshCommandsScriptSettings.mkArgs None (Some (lit "new.example"))
                 None None None false false)
            = Settings.Returned (settings, settings))
    as [settings E] by (eexists; vm_compute; reflexivity).
  exists settings. split; [exact E|].
  destruct (X28_ssh_host_and_user _ _ settings settings E)
    as (_ & _ & [Hhost _] & _).
  exact Hhost.
Defined.

